(** * Contrast specification of the IBC tasks: a shallow embedding

    The development follows [ibc_public/utils_contrasts.py] (the contrast
    registry) and the thresholding step of [data_paper_scripts/global_stat.py].

    Modelling conventions.
    - A column label is a [string]; a design matrix is known here only through
      its ordered column labels, [list string].
    - A numpy vector is a [list Qc] that holds the exact value of each of its
      float64 entries.  The coefficients of the polynomial contrasts
      ([np.linspace], the squares and their mean) are computed in binary64,
      with the kernel's floats, and enter the vectors by their exact values.
      Sums, differences, opposites, doubles, halves and eighths of basis
      vectors are exact in binary64.  The two divisions by 5 (the audio and
      the HCP motor definitions) are kept as exact fifths; no property below
      depends on their values.
    - Identifiers and labels are ASCII strings, so that slicing by character
      and by byte agree.
    - A Python [dict] with string keys is a [gmap string _].
    - A raised exception is the [Raise] branch of [result]. *)

From Stdlib Require Import Ascii QArith Qcanon Floats.
From stdpp Require Import gmap strings list fin_maps pretty sorting.

Open Scope Qc_scope.
Open Scope nat_scope.

(** ** Exceptions and results *)

Inductive exn : Type :=
| KeyError (key : string)
| ValueError (msg : string)
| AssertionError
| IndexError.

Inductive result (A : Type) : Type :=
| Ok (a : A)
| Raise (e : exn).

Arguments Ok {A} a.
Arguments Raise {A} e.

#[global] Instance result_ret : MRet result := λ A a, Ok a.
#[global] Instance result_bind : MBind result := λ A B f r,
  match r with
  | Ok a => f a
  | Raise e => Raise e
  end.

Definition is_Ok {A} (r : result A) : bool :=
  match r with
  | Ok _ => true
  | Raise _ => false
  end.

(** [try r except KeyError: h] *)
Definition except_KeyError {A} (r : result A) (h : result A) : result A :=
  match r with
  | Raise (KeyError _) => h
  | _ => r
  end.

(** ** Python string slices *)

Module Py.

(** [s[:k]] *)
Definition take (k : nat) (s : string) : string := String.substring 0 k s.

(** [s[k:]] *)
Definition drop (k : nat) (s : string) : string :=
  String.substring k (String.length s - k) s.

(** [s[-k:]]: the last [k] characters, the whole string when it is shorter. *)
Definition last (k : nat) (s : string) : string :=
  String.substring (String.length s - k) k s.

(** [s[:-1]] *)
Definition drop_last (s : string) : string :=
  String.substring 0 (String.length s - 1) s.

(** [s[-1]], an [IndexError] on the empty string. *)
Definition last_char (s : string) : result ascii :=
  match String.get (String.length s - 1) s with
  | Some c => Ok c
  | None => Raise IndexError
  end.

(** [str.lower], on the ASCII letters. *)
Definition lower_ascii (c : ascii) : ascii :=
  let n := nat_of_ascii c in
  if bool_decide (65 ≤ n ≤ 90) then ascii_of_nat (n + 32) else c.

Fixpoint lower (s : string) : string :=
  match s with
  | EmptyString => EmptyString
  | String c s' => String (lower_ascii c) (lower s')
  end.

(** [sorted] on a list of strings. *)
Definition sorted (l : list string) : list string := merge_sort String.le l.

(** [dict(l)] for a list of key/value pairs: later pairs win. *)
Definition dict {A} (l : list (string * A)) : gmap string A :=
  foldl (λ d kv, <[kv.1 := kv.2]> d) ∅ l.

(** [d.keys()] *)
Definition keys {A} (d : gmap string A) : list string := (map_to_list d).*1.

(** [d[k]] *)
Definition getitem {A} (d : gmap string A) (k : string) : result A :=
  match d !! k with
  | Some v => Ok v
  | None => Raise (KeyError k)
  end.

(** [d[k] = r], where evaluating the right-hand side may raise. *)
Definition setitem {A} (d : gmap string A) (k : string) (r : result A)
  : result (gmap string A) :=
  v ← r; Ok (<[k := v]> d).

(** A dict display [{k1: e1, ..., kn: en}]: the values are evaluated in
    order, the first exception wins. *)
Fixpoint display_from {A} (d : gmap string A) (l : list (string * result A))
  : result (gmap string A) :=
  match l with
  | [] => Ok d
  | (k, r) :: l' => v ← r; display_from (<[k := v]> d) l'
  end.

Definition display {A} (l : list (string * result A)) : result (gmap string A) :=
  display_from ∅ l.

(** [[f(x) for x in l]] where [f] may raise. *)
Fixpoint comprehension {A B} (f : A → result B) (l : list A) : result (list B) :=
  match l with
  | [] => Ok []
  | x :: l' => y ← f x; ys ← comprehension f l'; Ok (y :: ys)
  end.

End Py.

(** ** Vectors *)

Abbreviation vec := (list Qc).

(** [np.eye(n)[i]] *)
Definition eye (n i : nat) : vec :=
  (λ j, if bool_decide (j = i) then 1%Qc else 0%Qc) <$> seq 0 n.

Definition vadd (u v : vec) : vec := zip_with Qcplus u v.
Definition vsub (u v : vec) : vec := zip_with Qcminus u v.
Definition vneg (u : vec) : vec := Qcopp <$> u.
Definition vscale (c : Qc) (u : vec) : vec := Qcmult c <$> u.
Definition vdiv (u : vec) (c : Qc) : vec := (λ x, (x / c)%Qc) <$> u.

(** The same operations on operands whose evaluation may raise; the left
    operand is evaluated first. *)
Definition radd (a b : result vec) : result vec := u ← a; v ← b; Ok (vadd u v).
Definition rsub (a b : result vec) : result vec := u ← a; v ← b; Ok (vsub u v).
Definition rneg (a : result vec) : result vec := u ← a; Ok (vneg u).
Definition rscale (c : Qc) (a : result vec) : result vec := u ← a; Ok (vscale c u).
Definition rdiv (a : result vec) (c : Qc) : result vec := u ← a; Ok (vdiv u c).

Declare Scope contrast_scope.
Delimit Scope contrast_scope with con.
Notation "d .[ k ]" := (Py.getitem d k)
  (at level 1, left associativity, format "d .[ k ]") : contrast_scope.
Infix "⊕" := radd (at level 50, left associativity) : contrast_scope.
Infix "⊖" := rsub (at level 50, left associativity) : contrast_scope.
Infix "⊛" := rscale (at level 40, left associativity) : contrast_scope.
Infix "⊘" := rdiv (at level 40, left associativity) : contrast_scope.
Notation "⊖ a" := (rneg a) (at level 35, right associativity) : contrast_scope.
Open Scope contrast_scope.

(** [np.dot(c, m)] for a coefficient vector [c] and a matrix [m] given by its
    rows, all of length [n]: the combination of the rows.  The definitions
    apply it to rows that are basis vectors at different positions, so that
    each entry of the product is one coefficient or zero and nothing is
    rounded. *)
Fixpoint np_dot (n : nat) (c : vec) (m : list vec) : vec :=
  match c, m with
  | x :: c', row :: m' => vadd (vscale x row) (np_dot n c' m')
  | _, _ => replicate n 0%Qc
  end.

(** [np.ones(k)] *)
Definition np_ones (k : nat) : vec := replicate k 1%Qc.

(** *** Coefficients computed in binary64 *)

(** The exact value of a finite float. *)
Definition to_Qc (f : float) : Qc :=
  match Prim2SF f with
  | S754_finite s m e =>
      let q := (inject_Z (Z.pos m) * 2 ^ e)%Q in
      Q2Qc (if s then (- q)%Q else q)
  | _ => 0%Qc
  end.

(** The float of a count. *)
Definition of_nat64 (i : nat) : float :=
  PrimFloat.of_uint63 (Uint63.of_Z (Z.of_nat i)).

(** [np.linspace(start, stop, num)], end point included: numpy multiplies
    [arange(0, num)] by the step [(stop - start) / (num - 1)] (dividing
    first and multiplying by the difference when the step is zero), adds
    [start], and then sets the last value to [stop]. *)
Definition np_linspace (start stop : float) (num : nat) : list float :=
  let div := num - 1 in
  let delta := (stop - start)%float in
  let y := of_nat64 <$> seq 0 num in
  let y :=
    if bool_decide (0 < div) then
      let step := (delta / of_nat64 div)%float in
      if (step =? 0)%float
      then (λ x, (x / of_nat64 div * delta)%float) <$> y
      else (λ x, (x * step)%float) <$> y
    else (λ x, (x * delta)%float) <$> y in
  let y := (λ x, (x + start)%float) <$> y in
  if bool_decide (1 < num) then take (num - 1) y ++ [stop] else y.

(** [v ** 2]: numpy squares by multiplying. *)
Definition vsquare (v : list float) : list float :=
  (λ x, (x * x)%float) <$> v.

(** The sum of the values of a float vector as numpy's add reduction
    computes it.  Fewer than 8 values are added in order.  Up to 128 values
    are added into 8 running sums, one block of 8 after the other; the 8
    sums are then added in pairs, and the values left over from the last
    full block are added in order.  A longer vector is split in two at a
    multiple of 8. *)
Definition sum8 (r : list float) : float :=
  match r with
  | [r0; r1; r2; r3; r4; r5; r6; r7] =>
      (((r0 + r1) + (r2 + r3)) + ((r4 + r5) + (r6 + r7)))%float
  | _ => 0%float
  end.

Fixpoint blocks_sum (r a : list float) (blocks : nat) : list float :=
  match blocks with
  | 0 => r
  | S blocks' =>
      blocks_sum (zip_with PrimFloat.add r (take 8 a)) (drop 8 a) blocks'
  end.

Fixpoint pairwise_sum (fuel : nat) (a : list float) : float :=
  let n := length a in
  if bool_decide (n < 8) then foldl PrimFloat.add 0%float a
  else if bool_decide (n ≤ 128) then
    let full := n - n mod 8 in
    let r := blocks_sum (take 8 a) (drop 8 a) (full / 8 - 1) in
    foldl PrimFloat.add (sum8 r) (drop full a)
  else
    match fuel with
    | 0 => 0%float
    | S fuel' =>
        let n2 := n / 2 - (n / 2) mod 8 in
        (pairwise_sum fuel' (take n2 a) + pairwise_sum fuel' (drop n2 a))%float
    end.

Definition np_sum (v : list float) : float :=
  (0 + pairwise_sum (length v) v)%float.

(** [v.mean()]: the sum divided by the count. *)
Definition vmean (v : list float) : float :=
  (np_sum v / of_nat64 (length v))%float.

(** Integer and simple decimal coefficients. *)
Definition qc (z : Z) : Qc := Q2Qc (inject_Z z).
Definition half : Qc := Q2Qc (1 # 2).

(** ** Contrast values *)

(** What a contrast dict holds: a vector, a matrix given by its rows, the
    empty list of the schema-only call, or (in the two MTT definitions) a
    string. *)
Inductive value : Type :=
| VVec (v : vec)
| VMat (rows : list vec)
| VEmpty
| VStr (s : string).

Abbreviation contrast_set := (gmap string value).

(** ** Elementary contrasts and the two extensions *)

(** The loop of [_elementary_contrasts]: [con[columns[i]] = np.eye(n)[i]]. *)
Fixpoint elementary_loop (n i : nat) (columns : list string)
  (con : gmap string vec) : gmap string vec :=
  match columns with
  | [] => con
  | c :: columns' => elementary_loop n (S i) columns' (<[c := eye n i]> con)
  end.

Definition _elementary_contrasts (design_matrix_columns : list string)
  : gmap string vec :=
  elementary_loop (length design_matrix_columns) 0 design_matrix_columns ∅.

Definition nuisance : list string :=
  ["tx"; "ty"; "tz"; "rx"; "ry"; "rz"; "constant"]
  ++ ((λ i : nat, "drift_" +:+ pretty i) <$> seq 0 20)
  ++ ((λ i : nat, "conf_" +:+ pretty i) <$> seq 0 20).

(** The test on a column name shared by the two extensions:
    [len(name) > 11] and then [name[-11:] == '_derivative']. *)
Definition derivative_test (name : string) : bool :=
  bool_decide (11 < String.length name)
  && bool_decide (Py.last 11 name = "_derivative").

Fixpoint effects_interest_loop (n i : nat) (columns : list string)
  (con : list vec) : list vec :=
  match columns with
  | [] => con
  | c :: columns' =>
      if bool_decide (c ∈ nuisance) then effects_interest_loop n (S i) columns' con
      else if derivative_test c then effects_interest_loop n (S i) columns' con
      else effects_interest_loop n (S i) columns' (con ++ [eye n i])
  end.

Definition effects_interest_rows (design_matrix_columns : list string) : list vec :=
  effects_interest_loop (length design_matrix_columns) 0 design_matrix_columns [].

Definition _append_effects_interest_contrast
  (design_matrix_columns : list string) (contrast : contrast_set) : contrast_set :=
  let con := effects_interest_rows design_matrix_columns in
  if bool_decide (con ≠ []) then <["effects_interest" := VMat con]> contrast
  else contrast.

Fixpoint derivative_loop (n i : nat) (columns : list string)
  (con : list vec) : list vec :=
  match columns with
  | [] => con
  | c :: columns' =>
      if derivative_test c then derivative_loop n (S i) columns' (con ++ [eye n i])
      else derivative_loop n (S i) columns' con
  end.

Definition derivative_rows (design_matrix_columns : list string) : list vec :=
  derivative_loop (length design_matrix_columns) 0 design_matrix_columns [].

Definition _append_derivative_contrast
  (design_matrix_columns : list string) (contrast : contrast_set) : contrast_set :=
  let con := derivative_rows design_matrix_columns in
  if bool_decide (con ≠ []) then <["derivatives" := VMat con]> contrast
  else contrast.

(** ** Idioms shared by the paradigm definitions *)

(** [dict([(name, []) for name in contrast_names])] *)
Definition schema (contrast_names : list string) : contrast_set :=
  Py.dict ((λ name, (name, VEmpty)) <$> contrast_names).

(** [dict([(name, con[name]) for name in names])] *)
Definition select (con : gmap string vec) (names : list string)
  : result (gmap string vec) :=
  kvs ← Py.comprehension (λ name, v ← con.[name]; Ok (name, v)) names;
  Ok (Py.dict kvs).

(** A dict of vectors seen as a contrast set. *)
Definition vectors (d : gmap string vec) : contrast_set := VVec <$> d.

(** [assert sorted(contrasts.keys()) == sorted(contrast_names)] *)
Definition assert_names {A} (d : gmap string A) (contrast_names : list string)
  : result unit :=
  if bool_decide (Py.sorted (Py.keys d) = Py.sorted contrast_names) then Ok ()
  else Raise AssertionError.

(** The common tail of a definition: the assertion, then the two
    extensions, derivatives first. *)
Definition finish (design_matrix_columns : list string)
  (contrast_names : list string) (d : gmap string vec) : result contrast_set :=
  _ ← assert_names d contrast_names;
  Ok (_append_effects_interest_contrast design_matrix_columns
        (_append_derivative_contrast design_matrix_columns (vectors d))).

(** ** Paradigm definitions *)

Definition math_language (design_matrix_columns : option (list string))
  : result contrast_set :=
  let contrast_names :=
    ["colorlessg"; "control"; "arithfact"; "tom"; "geomfact";
     "general"; "arithprin"; "context"; "math-others";
     "geometry-arithmetics"; "tom_and_context-general"; "tom-general"] in
  match design_matrix_columns with
  | None => Ok (schema contrast_names)
  | Some columns =>
      let con := _elementary_contrasts columns in
      contrasts ← select con contrast_names;
      contrasts ← Py.setitem contrasts "math-others"
        (contrasts.["arithprin"] ⊕ contrasts.["arithfact"]
         ⊕ contrasts.["geomfact"] ⊖ contrasts.["tom"] ⊖ contrasts.["general"]
         ⊖ contrasts.["context"]);
      contrasts ← Py.setitem contrasts "geometry-arithmetics"
        (contrasts.["geomfact"]
         ⊖ half ⊛ (contrasts.["arithprin"] ⊕ contrasts.["arithfact"]));
      contrasts ← Py.setitem contrasts "tom_and_context-general"
        (contrasts.["tom"] ⊕ contrasts.["context"]
         ⊖ qc 2 ⊛ contrasts.["general"]);
      contrasts ← Py.setitem contrasts "tom-general"
        (contrasts.["tom"] ⊖ contrasts.["general"]);
      finish columns contrast_names contrasts
  end.

Definition spatial_navigation (design_matrix_columns : option (list string))
  : result contrast_set :=
  let contrast_names := ["experimental"; "pointing"; "control"] in
  match design_matrix_columns with
  | None => Ok (schema contrast_names)
  | Some columns =>
      let con := _elementary_contrasts columns in
      _ ← select con contrast_names;
      contrasts ← Py.display
        [("experimental", con.["experimental"]);
         ("pointing", con.["pointing_phase"]);
         ("control", con.["control"])];
      finish columns contrast_names contrasts
  end.

Definition wedge (design_matrix_columns : option (list string))
  : result contrast_set :=
  let contrast_names :=
    ["lower_meridian"; "lower_right"; "right_meridian"; "upper_right";
     "upper_meridian"; "upper_left"; "left_meridian"; "lower_left"] in
  match design_matrix_columns with
  | None => Ok (schema contrast_names)
  | Some columns =>
      let con := _elementary_contrasts columns in
      contrasts ← select con contrast_names;
      finish columns contrast_names contrasts
  end.

Definition ring (design_matrix_columns : option (list string))
  : result contrast_set :=
  let contrast_names := ["foveal"; "middle"; "peripheral"] in
  match design_matrix_columns with
  | None => Ok (schema contrast_names)
  | Some columns =>
      let con := _elementary_contrasts columns in
      contrasts ← select con contrast_names;
      finish columns contrast_names contrasts
  end.

Definition biological_motion1 (design_matrix_columns : option (list string))
  : result contrast_set :=
  let contrast_names :=
    ["global_upright"; "global_inverted";
     "natural_upright"; "natural_inverted";
     "global_upright - natural_upright";
     "global_upright - global_inverted";
     "natural_upright - natural_inverted"] in
  match design_matrix_columns with
  | None => Ok (schema contrast_names)
  | Some columns =>
      let con := _elementary_contrasts columns in
      contrasts ← select con (firstn 4 contrast_names);
      contrasts ← Py.setitem contrasts "global_upright - natural_upright"
        (contrasts.["global_upright"] ⊖ contrasts.["natural_upright"]);
      contrasts ← Py.setitem contrasts "global_upright - global_inverted"
        (contrasts.["global_upright"] ⊖ contrasts.["global_inverted"]);
      contrasts ← Py.setitem contrasts "natural_upright - natural_inverted"
        (contrasts.["natural_upright"] ⊖ contrasts.["natural_inverted"]);
      finish columns contrast_names contrasts
  end.

Definition biological_motion2 (design_matrix_columns : option (list string))
  : result contrast_set :=
  let contrast_names :=
    ["modified_upright"; "modified_inverted";
     "natural_upright"; "natural_inverted";
     "modified_upright - natural_upright";
     "modified_upright - modified_inverted";
     "natural_upright - natural_inverted"] in
  match design_matrix_columns with
  | None => Ok (schema contrast_names)
  | Some columns =>
      let con := _elementary_contrasts columns in
      contrasts ← select con (firstn 4 contrast_names);
      contrasts ← Py.setitem contrasts "modified_upright - natural_upright"
        (contrasts.["modified_upright"] ⊖ contrasts.["natural_upright"]);
      contrasts ← Py.setitem contrasts "modified_upright - modified_inverted"
        (contrasts.["modified_upright"] ⊖ contrasts.["modified_inverted"]);
      contrasts ← Py.setitem contrasts "natural_upright - natural_inverted"
        (contrasts.["natural_upright"] ⊖ contrasts.["natural_inverted"]);
      finish columns contrast_names contrasts
  end.

Definition dot_patterns (design_matrix_columns : option (list string))
  : result contrast_set :=
  let contrast_names :=
    ["cue";
     "correct_cue_correct_probe";
     "correct_cue_incorrect_probe";
     "incorrect_cue_correct_probe";
     "incorrect_cue_incorrect_probe";
     "correct_cue_incorrect_probe-correct_cue_correct_probe";
     "incorrect_cue_incorrect_probe-incorrect_cue_correct_probe";
     "correct_cue_incorrect_probe-incorrect_cue_correct_probe";
     "incorrect_cue_incorrect_probe-correct_cue_incorrect_probe";
     "correct_cue-incorrect_cue";
     "incorrect_probe-correct_probe"] in
  match design_matrix_columns with
  | None => Ok (schema contrast_names)
  | Some columns =>
      let con := _elementary_contrasts columns in
      contrasts ← Py.display
        [("cue", con.["cue"]);
         ("correct_cue_correct_probe", con.["correct_cue_correct_probe"]);
         ("correct_cue_incorrect_probe", con.["correct_cue_incorrect_probe"]);
         ("incorrect_cue_correct_probe", con.["incorrect_cue_correct_probe"]);
         ("incorrect_cue_incorrect_probe", con.["incorrect_cue_incorrect_probe"]);
         ("correct_cue_incorrect_probe-correct_cue_correct_probe",
          con.["correct_cue_incorrect_probe"]
          ⊖ con.["correct_cue_correct_probe"]);
         ("incorrect_cue_incorrect_probe-incorrect_cue_correct_probe",
          con.["incorrect_cue_incorrect_probe"]
          ⊖ con.["incorrect_cue_correct_probe"]);
         ("correct_cue_incorrect_probe-incorrect_cue_correct_probe",
          con.["correct_cue_incorrect_probe"]
          ⊖ con.["incorrect_cue_correct_probe"]);
         ("incorrect_cue_incorrect_probe-correct_cue_incorrect_probe",
          con.["incorrect_cue_incorrect_probe"]
          ⊖ con.["correct_cue_incorrect_probe"]);
         ("correct_cue-incorrect_cue",
          con.["correct_cue_correct_probe"]
          ⊕ con.["correct_cue_incorrect_probe"]
          ⊖ con.["incorrect_cue_correct_probe"]
          ⊖ con.["incorrect_cue_incorrect_probe"]);
         ("incorrect_probe-correct_probe",
          ⊖ con.["correct_cue_correct_probe"]
          ⊕ con.["correct_cue_incorrect_probe"]
          ⊖ con.["incorrect_cue_correct_probe"]
          ⊕ con.["incorrect_cue_incorrect_probe"])];
      finish columns contrast_names contrasts
  end.

Definition columbia_cards (design_matrix_columns : option (list string))
  : result contrast_set :=
  let contrast_names := ["num_loss_cards"; "loss"; "gain"] in
  match design_matrix_columns with
  | None => Ok (schema contrast_names)
  | Some columns =>
      let con := _elementary_contrasts columns in
      contrasts ← select con contrast_names;
      finish columns contrast_names contrasts
  end.

Definition discount (design_matrix_columns : option (list string))
  : result contrast_set :=
  let contrast_names := ["delay"; "amount"] in
  match design_matrix_columns with
  | None => Ok (schema contrast_names)
  | Some columns =>
      let con := _elementary_contrasts columns in
      contrasts ← select con contrast_names;
      finish columns contrast_names contrasts
  end.

Definition towertask (design_matrix_columns : option (list string))
  : result contrast_set :=
  let contrast_names :=
    ["ambiguous_intermediate"; "ambiguous_direct";
     "unambiguous_intermediate"; "unambiguous_direct";
     "intermediate-direct"; "ambiguous-unambiguous"] in
  match design_matrix_columns with
  | None => Ok (schema contrast_names)
  | Some columns =>
      let con := _elementary_contrasts columns in
      contrasts ← Py.display
        [("ambiguous_intermediate", con.["ambiguous_intermediate"]);
         ("ambiguous_direct", con.["ambiguous_direct"]);
         ("unambiguous_intermediate", con.["unambiguous_intermediate"]);
         ("unambiguous_direct", con.["unambiguous_direct"]);
         ("intermediate-direct",
          con.["ambiguous_intermediate"] ⊕ con.["unambiguous_intermediate"]
          ⊖ (con.["ambiguous_direct"] ⊕ con.["unambiguous_direct"]));
         ("ambiguous-unambiguous",
          con.["ambiguous_intermediate"] ⊖ con.["unambiguous_intermediate"]
          ⊕ con.["ambiguous_direct"] ⊖ con.["unambiguous_direct"])];
      finish columns contrast_names contrasts
  end.

Definition two_by_two (design_matrix_columns : option (list string))
  : result contrast_set :=
  let contrast_names :=
    ["task_stay_cue_stay"; "task_switch_cue_switch";
     "task_switch_cue_stay"; "task_stay_cue_switch";
     "task_switch-stay"; "task_repetition"] in
  match design_matrix_columns with
  | None => Ok (schema contrast_names)
  | Some columns =>
      let con := _elementary_contrasts columns in
      contrasts ← Py.display
        [("task_stay_cue_stay", con.["taskstay_cuestay"]);
         ("task_switch_cue_switch", con.["taskswitch_cueswitch"]);
         ("task_switch_cue_stay", con.["taskswitch_cuestay"]);
         ("task_stay_cue_switch", con.["taskstay_cueswitch"]);
         ("task_switch-stay",
          con.["taskswitch_cueswitch"] ⊕ con.["taskswitch_cuestay"]
          ⊖ qc 2 ⊛ con.["taskstay_cueswitch"]);
         ("cue_switch",
          con.["taskstay_cueswitch"] ⊖ con.["taskstay_cuestay"])];
      finish columns contrast_names contrasts
  end.

Definition attention (design_matrix_columns : option (list string))
  : result contrast_set :=
  let contrast_names :=
    ["spatial_cue-double_cue";
     "spatial_cue"; "double_cue";
     "incongruent-congruent"; "spatial_incongruent-spatial_congruent";
     "double_incongruent-double_congruent"; "spatial_incongruent";
     "double_congruent"; "spatial_congruent";
     "double_incongruent"] in
  match design_matrix_columns with
  | None => Ok (schema contrast_names)
  | Some columns =>
      let con := _elementary_contrasts columns in
      contrasts ← Py.display
        [("spatial_cue-double_cue", con.["spatialcue"] ⊖ con.["doublecue"]);
         ("spatial_cue", con.["spatialcue"]);
         ("double_cue", con.["doublecue"]);
         ("incongruent-congruent",
          con.["spatial_incongruent"] ⊖ con.["spatial_congruent"]
          ⊕ con.["double_incongruent"] ⊖ con.["double_congruent"]);
         ("spatial_incongruent-spatial_congruent",
          con.["spatial_incongruent"] ⊖ con.["spatial_congruent"]);
         ("double_incongruent-double_congruent",
          con.["double_incongruent"] ⊖ con.["double_congruent"]);
         ("spatial_incongruent", con.["spatial_incongruent"]);
         ("double_congruent", con.["double_congruent"]);
         ("spatial_congruent", con.["spatial_congruent"]);
         ("double_incongruent", con.["double_incongruent"])];
      finish columns contrast_names contrasts
  end.

Definition selective_stop_signal (design_matrix_columns : option (list string))
  : result contrast_set :=
  let contrast_names :=
    ["go"; "stop"; "ignore";
     "stop-go"; "ignore-stop"; "stop-ignore"; "ignore-go"] in
  match design_matrix_columns with
  | None => Ok (schema contrast_names)
  | Some columns =>
      let con := _elementary_contrasts columns in
      contrasts ← Py.display
        [("go", con.["go"]);
         ("stop", con.["stop"]);
         ("ignore", con.["ignore"]);
         ("stop-go", con.["stop"] ⊖ con.["go"]);
         ("ignore-stop", con.["ignore"] ⊖ con.["stop"]);
         ("stop-ignore", con.["stop"] ⊖ con.["ignore"]);
         ("ignore-go", con.["ignore"] ⊖ con.["go"])];
      finish columns contrast_names contrasts
  end.

Definition stop_signal (design_matrix_columns : option (list string))
  : result contrast_set :=
  let contrast_names := ["go"; "stop"; "stop-go"] in
  match design_matrix_columns with
  | None => Ok (schema contrast_names)
  | Some columns =>
      let con := _elementary_contrasts columns in
      contrasts ← Py.display
        [("go", con.["go"]);
         ("stop", con.["stop"]);
         ("stop-go", con.["stop"] ⊖ con.["go"])];
      finish columns contrast_names contrasts
  end.

Definition stroop (design_matrix_columns : option (list string))
  : result contrast_set :=
  let contrast_names :=
    ["congruent"; "incongruent"; "congruent-incongruent";
     "incongruent-congruent"] in
  match design_matrix_columns with
  | None => Ok (schema contrast_names)
  | Some columns =>
      let con := _elementary_contrasts columns in
      contrasts ← Py.display
        [("congruent", con.["congruent"]);
         ("incongruent", con.["incongruent"]);
         ("incongruent-congruent", con.["incongruent"] ⊖ con.["congruent"])];
      finish columns contrast_names contrasts
  end.

Definition lyon_lec2 (design_matrix_columns : option (list string))
  : result contrast_set :=
  let contrast_names := ["attend"; "unattend"; "attend-unattend"] in
  match design_matrix_columns with
  | None => Ok (schema contrast_names)
  | Some columns =>
      let con := _elementary_contrasts columns in
      contrasts ← Py.display
        [("attend", con.["attend"]);
         ("unattend", con.["unattend"]);
         ("attend-unattend", con.["attend"] ⊖ con.["unattend"])];
      finish columns contrast_names contrasts
  end.

(** The loop [for name in names: contrasts[name + suffix] = con[name] - con[base]]. *)
Fixpoint minus_base_loop (con : gmap string vec) (suffix base : string)
  (names : list string) (contrasts : gmap string vec)
  : result (gmap string vec) :=
  match names with
  | [] => Ok contrasts
  | name :: names' =>
      contrasts ← Py.setitem contrasts (name +:+ suffix)
        (con.[name] ⊖ con.[base]);
      minus_base_loop con suffix base names' contrasts
  end.

Definition lyon_audi (design_matrix_columns : option (list string))
  : result contrast_set :=
  let contrast_names :=
    ["tear"; "suomi"; "yawn"; "human"; "music";
     "reverse"; "speech"; "alphabet"; "cough"; "environment";
     "laugh"; "animals"; "silence"; "tear-silence";
     "suomi-silence";
     "yawn-silence"; "human-silence"; "music-silence";
     "reverse-silence"; "speech-silence"; "alphabet-silence";
     "cough-silence"; "environment-silence";
     "laugh-silence"; "animals-silence"] in
  match design_matrix_columns with
  | None => Ok (schema contrast_names)
  | Some columns =>
      let con := _elementary_contrasts columns in
      contrasts ← select con (firstn 13 contrast_names);
      contrasts ← minus_base_loop con "-silence" "silence"
        (firstn 12 contrast_names) contrasts;
      finish columns contrast_names contrasts
  end.

Definition lyon_visu (design_matrix_columns : option (list string))
  : result contrast_set :=
  let contrast_names :=
    ["scrambled"; "scene"; "tool"; "face"; "target_fruit";
     "house"; "animal"; "characters"; "pseudoword";
     "scene-scrambled"; "tool-scrambled";
     "face-scrambled"; "house-scrambled"; "animal-scrambled";
     "characters-scrambled"; "pseudoword-scrambled"] in
  match design_matrix_columns with
  | None => Ok (schema contrast_names)
  | Some columns =>
      let con := _elementary_contrasts columns in
      let canonical_contrasts :=
        ["scrambled"; "scene"; "tool"; "face";
         "house"; "animal"; "characters"; "pseudoword"] in
      contrast ← select con canonical_contrasts;
      contrast ← Py.setitem contrast "target_fruit" con.["target_fruit"];
      contrast ← Py.setitem contrast "scene-scrambled"
        (contrast.["scene"] ⊖ contrast.["scrambled"]);
      contrast ← Py.setitem contrast "tool-scrambled"
        (contrast.["tool"] ⊖ contrast.["scrambled"]);
      contrast ← Py.setitem contrast "face-scrambled"
        (contrast.["face"] ⊖ contrast.["scrambled"]);
      contrast ← Py.setitem contrast "house-scrambled"
        (contrast.["house"] ⊖ contrast.["scrambled"]);
      contrast ← Py.setitem contrast "animal-scrambled"
        (contrast.["animal"] ⊖ contrast.["scrambled"]);
      contrast ← Py.setitem contrast "characters-scrambled"
        (contrast.["characters"] ⊖ contrast.["scrambled"]);
      contrast ← Py.setitem contrast "pseudoword-scrambled"
        (contrast.["pseudoword"] ⊖ contrast.["scrambled"]);
      finish columns contrast_names contrast
  end.

Definition lyon_lec1 (design_matrix_columns : option (list string))
  : result contrast_set :=
  let contrast_names :=
    ["pseudoword"; "word"; "random_string"; "word-pseudoword";
     "word-random_string"; "pseudoword-random_string"] in
  match design_matrix_columns with
  | None => Ok (schema contrast_names)
  | Some columns =>
      let con := _elementary_contrasts columns in
      contrasts ← Py.display
        [("pseudoword", con.["pseudoword"]);
         ("word", con.["word"]);
         ("random_string", con.["random_string"]);
         ("word-pseudoword", con.["word"] ⊖ con.["pseudoword"]);
         ("word-random_string", con.["word"] ⊖ con.["random_string"]);
         ("pseudoword-random_string",
          con.["pseudoword"] ⊖ con.["random_string"])];
      finish columns contrast_names contrasts
  end.

Definition audio (design_matrix_columns : option (list string))
  : result contrast_set :=
  let contrast_names :=
    ["animal"; "music"; "nature";
     "speech"; "tool"; "voice";
     "animal-others"; "music-others"; "nature-others";
     "speech-others"; "tool-others"; "voice-others"; "mean-silence";
     "animal-silence"; "music-silence"; "nature-silence";
     "speech-silence"; "tool-silence"; "voice-silence"] in
  match design_matrix_columns with
  | None => Ok (schema contrast_names)
  | Some columns =>
      let con := _elementary_contrasts columns in
      others ← (con.["animal"] ⊕ con.["music"] ⊕ con.["nature"]
                ⊕ con.["speech"] ⊕ con.["tool"] ⊕ con.["voice"]) ⊘ qc 5;
      let others : result vec := Ok others in
      contrasts ← Py.display
        [("animal", con.["animal"]);
         ("music", con.["music"]);
         ("nature", con.["nature"]);
         ("speech", con.["speech"]);
         ("tool", con.["tool"]);
         ("voice", con.["voice"]);
         ("mean-silence", others ⊖ con.["silence"]);
         ("animal-others", con.["animal"] ⊖ others);
         ("music-others", con.["music"] ⊖ others);
         ("nature-others", con.["nature"] ⊖ others);
         ("speech-others", con.["speech"] ⊖ others);
         ("tool-others", con.["tool"] ⊖ others);
         ("voice-others", con.["voice"] ⊖ others);
         ("animal-silence", con.["animal"] ⊖ con.["silence"]);
         ("music-silence", con.["music"] ⊖ con.["silence"]);
         ("nature-silence", con.["nature"] ⊖ con.["silence"]);
         ("speech-silence", con.["speech"] ⊖ con.["silence"]);
         ("tool-silence", con.["tool"] ⊖ con.["silence"]);
         ("voice-silence", con.["voice"] ⊖ con.["silence"])];
      finish columns contrast_names contrasts
  end.

Definition lyon_mveb (design_matrix_columns : option (list string))
  : result contrast_set :=
  let contrast_names :=
    ["response"; "2_letters_different"; "2_letters_same";
     "4_letters_different"; "4_letters_same";
     "6_letters_different"; "6_letters_same";
     "2_letters_different-same";
     "4_letters_different-same"; "6_letters_different-same";
     "6_letters_different-2_letters_different"] in
  match design_matrix_columns with
  | None => Ok (schema contrast_names)
  | Some columns =>
      let con := _elementary_contrasts columns in
      contrasts ← select con (firstn 7 contrast_names);
      contrasts ← Py.setitem contrasts "2_letters_different-same"
        (con.["2_letters_different"] ⊖ con.["2_letters_same"]);
      contrasts ← Py.setitem contrasts "4_letters_different-same"
        (con.["4_letters_different"] ⊖ con.["4_letters_same"]);
      contrasts ← Py.setitem contrasts "6_letters_different-same"
        (con.["6_letters_different"] ⊖ con.["6_letters_same"]);
      contrasts ← Py.setitem contrasts "6_letters_different-2_letters_different"
        (con.["6_letters_different"] ⊖ con.["2_letters_different"]);
      finish columns contrast_names contrasts
  end.

Definition lyon_mvis (design_matrix_columns : option (list string))
  : result contrast_set :=
  let contrast_names :=
    ["response";
     "2_dots-2_dots_control"; "4_dots-4_dots_control";
     "6_dots-6_dots_control"; "6_dots-2_dots"; "dots-control"] in
  match design_matrix_columns with
  | None => Ok (schema contrast_names)
  | Some columns =>
      let con := _elementary_contrasts columns in
      contrasts ← Py.display [("response", con.["response"])];
      contrasts ← Py.setitem contrasts "2_dots-2_dots_control"
        (con.["2_dots"] ⊖ con.["2_dots_control"]);
      contrasts ← Py.setitem contrasts "4_dots-4_dots_control"
        (con.["4_dots"] ⊖ con.["4_dots_control"]);
      contrasts ← Py.setitem contrasts "6_dots-6_dots_control"
        (con.["6_dots"] ⊖ con.["6_dots_control"]);
      contrasts ← Py.setitem contrasts "6_dots-2_dots"
        (con.["6_dots"] ⊖ con.["2_dots"]);
      contrasts ← Py.setitem contrasts "dots-control"
        (con.["6_dots"] ⊕ con.["4_dots"] ⊕ con.["2_dots"]
         ⊖ (con.["2_dots_control"] ⊕ con.["6_dots_control"]
            ⊕ con.["4_dots_control"]));
      finish columns contrast_names contrasts
  end.

Definition lyon_moto (design_matrix_columns : option (list string))
  : result contrast_set :=
  let contrast_names :=
    ["instructions"; "finger_right-fixation"; "finger_left-fixation";
     "foot_left-fixation"; "foot_right-fixation"; "hand_left-fixation";
     "hand_right-fixation"; "saccade-fixation"; "tongue-fixation"] in
  match design_matrix_columns with
  | None => Ok (schema contrast_names)
  | Some columns =>
      let con := _elementary_contrasts columns in
      contrasts ← Py.display [("instructions", con.["instructions"])];
      con ← Py.setitem con "fixation"
        (half ⊛ (con.["fixation_left"] ⊕ con.["fixation_right"]));
      contrasts ← Py.setitem contrasts "finger_right-fixation"
        (con.["finger_right"] ⊖ con.["fixation"]);
      contrasts ← Py.setitem contrasts "finger_left-fixation"
        (con.["finger_left"] ⊖ con.["fixation"]);
      contrasts ← Py.setitem contrasts "foot_left-fixation"
        (con.["foot_left"] ⊖ con.["fixation"]);
      contrasts ← Py.setitem contrasts "foot_right-fixation"
        (con.["foot_right"] ⊖ con.["fixation"]);
      contrasts ← Py.setitem contrasts "hand_left-fixation"
        (con.["hand_left"] ⊖ con.["fixation"]);
      contrasts ← Py.setitem contrasts "hand_right-fixation"
        (con.["hand_right"] ⊖ con.["fixation"]);
      contrasts ← Py.setitem contrasts "saccade-fixation"
        (con.["saccade_left"] ⊕ con.["saccade_right"]
         ⊖ qc 2 ⊛ con.["fixation"]);
      contrasts ← Py.setitem contrasts "tongue-fixation"
        (con.["tongue_left"] ⊕ con.["tongue_right"]
         ⊖ qc 2 ⊛ con.["fixation"]);
      finish columns contrast_names contrasts
  end.

Definition lyon_mcse (design_matrix_columns : option (list string))
  : result contrast_set :=
  let contrast_names :=
    ["high_salience_left"; "high_salience_right";
     "low_salience_left"; "low_salience_right";
     "low-high_salience"; "salience_left-right";
     "low+high_salience"] in
  match design_matrix_columns with
  | None => Ok (schema contrast_names)
  | Some columns =>
      let con := _elementary_contrasts columns in
      contrasts ← Py.display
        [("high_salience_left", con.["hi_salience_left"]);
         ("high_salience_right", con.["hi_salience_right"]);
         ("low_salience_left", con.["low_salience_left"]);
         ("low_salience_right", con.["low_salience_right"]);
         ("high-low_salience",
          con.["hi_salience_left"] ⊕ con.["hi_salience_right"]
          ⊖ con.["low_salience_left"] ⊖ con.["low_salience_right"]);
         ("low-high_salience",
          ⊖ con.["hi_salience_left"] ⊖ con.["hi_salience_right"]
          ⊕ con.["low_salience_left"] ⊕ con.["low_salience_right"]);
         ("salience_left-right",
          con.["hi_salience_left"] ⊖ con.["hi_salience_right"]
          ⊕ con.["low_salience_left"] ⊖ con.["low_salience_right"]);
         ("salience_right-left",
          ⊖ con.["hi_salience_left"] ⊕ con.["hi_salience_right"]
          ⊖ con.["low_salience_left"] ⊕ con.["low_salience_right"]);
         ("low+high_salience",
          con.["hi_salience_left"] ⊕ con.["hi_salience_right"]
          ⊕ con.["low_salience_left"] ⊕ con.["low_salience_right"])];
      finish columns contrast_names contrasts
  end.

Definition bang (design_matrix_columns : option (list string))
  : result contrast_set :=
  let contrast_names := ["talk"; "no_talk"; "talk-no_talk"] in
  match design_matrix_columns with
  | None => Ok (schema contrast_names)
  | Some columns =>
      let con := _elementary_contrasts columns in
      contrasts ← Py.display
        [("talk", con.["talk"]);
         ("no_talk", con.["no_talk"]);
         ("talk-no_talk", con.["talk"] ⊖ con.["no_talk"])];
      finish columns contrast_names contrasts
  end.

(** [k in con.keys()] *)
Definition has_key {A} (con : gmap string A) (k : string) : bool :=
  bool_decide (is_Some (con !! k)).

Definition self_localizer (design_matrix_columns : option (list string))
  : result contrast_set :=
  let contrast_names :=
    ["encode_self-other"; "encode_other"; "encode_self";
     "instructions"; "false_alarm"; "correct_rejection";
     "recognition_hit"; "recognition_hit-correct_rejection";
     "recognition_self-other"; "recognition_self_hit";
     "recognition_other_hit"] in
  match design_matrix_columns with
  | None => Ok (schema contrast_names)
  | Some columns =>
      let con := _elementary_contrasts columns in
      recognition_hit ←
        except_KeyError
          (con.["recognition_other_hit"] ⊕ con.["recognition_self_hit"])
          (if has_key con "recognition_self_hit"
           then con.["recognition_self_hit"]
           else if has_key con "recognition_other_hit"
           then con.["recognition_other_hit"]
           else con.["recognition_other_no_response"]);
      correct_rejection ←
        except_KeyError con.["correct_rejection"] con.["false_alarm"];
      recognition_self_hit ←
        except_KeyError con.["recognition_self_hit"]
          con.["recognition_self_miss"];
      recognition_self ←
        except_KeyError
          (con.["recognition_self_hit"] ⊕ con.["recognition_self_miss"])
          (if has_key con "recognition_self_miss"
           then con.["recognition_self_miss"]
           else con.["recognition_self_hit"]);
      recognition_other ←
        except_KeyError
          (con.["recognition_other_hit"] ⊕ con.["recognition_other_miss"])
          (if has_key con "recognition_other_hit"
           then con.["recognition_other_hit"]
           else con.["recognition_other_miss"]);
      recognition_other_hit ←
        except_KeyError con.["recognition_other_hit"]
          con.["recognition_other_miss"];
      contrasts ← Py.display
        [("encode_self-other", con.["encode_self"] ⊖ con.["encode_other"]);
         ("encode_other", con.["encode_other"]);
         ("encode_self", con.["encode_self"]);
         ("instructions", con.["instructions"]);
         ("false_alarm", con.["false_alarm"]);
         ("recognition_hit", Ok recognition_hit);
         ("recognition_self_hit", Ok recognition_self_hit);
         ("recognition_hit-correct_rejection",
          Ok recognition_hit ⊖ Ok correct_rejection);
         ("correct_rejection", Ok correct_rejection);
         ("recognition_self-other",
          Ok recognition_self ⊖ Ok recognition_other);
         ("recognition_other_hit", Ok recognition_other_hit)];
      finish columns contrast_names contrasts
  end.

Definition colour (design_matrix_columns : option (list string))
  : result contrast_set :=
  match design_matrix_columns with
  | None => Ok (Py.dict [("color", VEmpty); ("grey", VEmpty);
                         ("color-grey", VEmpty)])
  | Some columns =>
      let con := _elementary_contrasts columns in
      contrasts ← Py.display
        [("color", con.["color"]);
         ("grey", con.["grey"]);
         ("color-grey", con.["color"] ⊖ con.["grey"])];
      Ok (vectors contrasts)
  end.

(** [np.array([con['response_num_%d' % i] for i in range(lo, hi)])] *)
Definition response_rows (con : gmap string vec) (lo hi : nat)
  : result (list vec) :=
  Py.comprehension (λ i : nat, con.["response_num_" +:+ pretty i])
    (seq lo (hi - lo)).

Definition vstm (design_matrix_columns : option (list string))
  : result contrast_set :=
  let contrast_names := ["vstm_linear"; "vstm_constant"; "vstm_quadratic"] in
  match design_matrix_columns with
  | None => Ok (schema contrast_names)
  | Some columns =>
      let n := length columns in
      let constant := np_ones 6 in
      let linear := np_linspace (-1) 1 6 in
      let quadratic :=
        (λ x, (x - vmean (vsquare linear))%float) <$> vsquare linear in
      let con := _elementary_contrasts columns in
      response ← response_rows con 1 7;
      contrasts ← Py.display
        [("vstm_constant", Ok (np_dot n constant response));
         ("vstm_linear", Ok (np_dot n (to_Qc <$> linear) response));
         ("vstm_quadratic",
          Ok (np_dot n (to_Qc <$> quadratic) response))];
      finish columns contrast_names contrasts
  end.

Definition enumeration (design_matrix_columns : option (list string))
  : result contrast_set :=
  let contrast_names :=
    ["enumeration_linear"; "enumeration_constant"; "enumeration_quadratic"] in
  match design_matrix_columns with
  | None => Ok (schema contrast_names)
  | Some columns =>
      let n := length columns in
      let constant := np_ones 8 in
      let linear := np_linspace (-1) 1 8 in
      let quadratic :=
        (λ x, (x - vmean (vsquare linear))%float) <$> vsquare linear in
      let con := _elementary_contrasts columns in
      response ← response_rows con 1 9;
      contrasts ← Py.display
        [("enumeration_constant", Ok (np_dot n constant response));
         ("enumeration_linear", Ok (np_dot n (to_Qc <$> linear) response));
         ("enumeration_quadratic",
          Ok (np_dot n (to_Qc <$> quadratic) response))];
      finish columns contrast_names contrasts
  end.

Definition pain_movie (design_matrix_columns : option (list string))
  : result contrast_set :=
  let contrast_names := ["movie_pain"; "movie_mental"; "movie_mental-pain"] in
  match design_matrix_columns with
  | None => Ok (schema contrast_names)
  | Some columns =>
      let con := _elementary_contrasts columns in
      contrasts ← Py.display
        [("movie_pain", con.["pain"]);
         ("movie_mental", con.["mental"]);
         ("movie_mental-pain", con.["mental"] ⊖ con.["pain"])];
      finish columns contrast_names contrasts
  end.

Definition emotional_pain (design_matrix_columns : option (list string))
  : result contrast_set :=
  let contrast_names :=
    ["physical_pain"; "emotional_pain"; "emotional-physical_pain"] in
  match design_matrix_columns with
  | None => Ok (schema contrast_names)
  | Some columns =>
      let con := _elementary_contrasts columns in
      contrasts ← Py.display
        [("emotional_pain", con.["emotional_pain"]);
         ("physical_pain", con.["physical_pain"]);
         ("emotional-physical_pain",
          con.["emotional_pain"] ⊖ con.["physical_pain"])];
      finish columns contrast_names contrasts
  end.

Definition theory_of_mind (design_matrix_columns : option (list string))
  : result contrast_set :=
  let contrast_names := ["belief"; "photo"; "belief-photo"] in
  match design_matrix_columns with
  | None => Ok (schema contrast_names)
  | Some columns =>
      let con := _elementary_contrasts columns in
      contrasts ← Py.display
        [("photo", con.["photo"]);
         ("belief", con.["belief"]);
         ("belief-photo", con.["belief"] ⊖ con.["photo"])];
      finish columns contrast_names contrasts
  end.

Definition preferences (design_matrix_columns : option (list string))
  (domain : string) : result contrast_set :=
  if bool_decide (domain ∉ ["painting"; "house"; "face"; "food"])
  then Raise (ValueError "Not a correct domain")
  else
    let contrast_names :=
      [domain +:+ "_linear"; domain +:+ "_constant";
       domain +:+ "_quadratic"] in
    match design_matrix_columns with
    | None => Ok (schema contrast_names)
    | Some columns =>
        let con := _elementary_contrasts columns in
        contrasts ← select con contrast_names;
        finish columns contrast_names contrasts
    end.

(** [cname.startswith(names)] for a tuple of prefixes. *)
Definition startswith_any (names : list string) (cname : string) : bool :=
  existsb (λ p, String.prefix p cname) names.

Definition _beta_contrasts (design_matrix_columns : list string)
  : gmap string vec :=
  let con := _elementary_contrasts design_matrix_columns in
  let bad_names :=
    ["constant"; "rx"; "ry"; "rz"; "tx"; "ty"; "tz"]
    ++ ((λ d : nat, "drift_" +:+ pretty d) <$> seq 0 20)
    ++ ((λ d : nat, "conf_" +:+ pretty d) <$> seq 0 20) in
  filter (λ kv, startswith_any bad_names kv.1 = false) con.

(** In the two MTT definitions the entry for the event response is the
    string literal itself; it takes no part in the arithmetic that follows,
    so the numeric entries are computed in a dict of vectors and the string
    entry is put beside them. *)
Definition mtt_we_relative (design_matrix_columns : option (list string))
  : result contrast_set :=
  let contrast_list :=
    ["we_average_reference";
     "we_all_space_cue";
     "we_all_time_cue";
     "we_all_space-time_cue";
     "we_all_time-space_cue";
     "we_average_event";
     "we_space_event";
     "we_time_event";
     "we_space-time_event";
     "we_time-space_event";
     "westside-eastside_event";
     "eastside-westside_event";
     "we_before-after_event";
     "we_after-before_event";
     "we_all_event_response"] in
  match design_matrix_columns with
  | None => Ok (schema contrast_list)
  | Some columns =>
      let con := _beta_contrasts columns in
      contrasts ← Py.display
        [("we_average_reference", con.["we_all_reference"]);
         ("we_all_space_cue", con.["we_all_space_cue"]);
         ("we_all_time_cue", con.["we_all_time_cue"]);
         ("we_westside_event",
          con.["we_westside_close_event"] ⊕ con.["we_westside_far_event"]);
         ("we_eastside_event",
          con.["we_eastside_close_event"] ⊕ con.["we_eastside_far_event"]);
         ("we_before_event",
          con.["we_before_close_event"] ⊕ con.["we_before_far_event"]);
         ("we_after_event",
          con.["we_after_close_event"] ⊕ con.["we_after_far_event"])];
      let response := VStr "we_all_event_response" in
      contrasts ← Py.setitem contrasts "we_all_space-time_cue"
        (contrasts.["we_all_space_cue"] ⊖ contrasts.["we_all_time_cue"]);
      contrasts ← Py.setitem contrasts "we_all_time-space_cue"
        (⊖ contrasts.["we_all_space-time_cue"]);
      contrasts ← Py.setitem contrasts "we_space_event"
        (contrasts.["we_westside_event"] ⊕ contrasts.["we_eastside_event"]);
      contrasts ← Py.setitem contrasts "we_time_event"
        (contrasts.["we_before_event"] ⊕ contrasts.["we_after_event"]);
      contrasts ← Py.setitem contrasts "we_average_event"
        (contrasts.["we_space_event"] ⊕ contrasts.["we_time_event"]);
      contrasts ← Py.setitem contrasts "we_space-time_event"
        (contrasts.["we_space_event"] ⊖ contrasts.["we_time_event"]);
      contrasts ← Py.setitem contrasts "we_time-space_event"
        (⊖ contrasts.["we_space-time_event"]);
      contrasts ← Py.setitem contrasts "westside-eastside_event"
        (contrasts.["we_westside_event"] ⊖ contrasts.["we_eastside_event"]);
      contrasts ← Py.setitem contrasts "eastside-westside_event"
        (⊖ contrasts.["westside-eastside_event"]);
      contrasts ← Py.setitem contrasts "we_before-after_event"
        (contrasts.["we_before_event"] ⊖ contrasts.["we_after_event"]);
      contrasts ← Py.setitem contrasts "we_after-before_event"
        (⊖ contrasts.["we_before-after_event"]);
      Ok (_append_effects_interest_contrast columns
            (<["we_all_event_response" := response]> (vectors contrasts)))
  end.

Definition mtt_sn_relative (design_matrix_columns : option (list string))
  : result contrast_set :=
  let contrast_list :=
    ["sn_average_reference";
     "sn_all_space_cue";
     "sn_all_time_cue";
     "sn_all_space-time_cue";
     "sn_all_time-space_cue";
     "sn_average_event";
     "sn_space_event";
     "sn_time_event";
     "sn_space-time_event";
     "sn_time-space_event";
     "northside-southside_event";
     "southside-northside_event";
     "sn_before-after_event";
     "sn_after-before_event";
     "sn_all_event_response"] in
  match design_matrix_columns with
  | None => Ok (schema contrast_list)
  | Some columns =>
      let con := _beta_contrasts columns in
      contrasts ← Py.display
        [("sn_average_reference", con.["sn_all_reference"]);
         ("sn_all_space_cue", con.["sn_all_space_cue"]);
         ("sn_all_time_cue", con.["sn_all_time_cue"]);
         ("sn_southside_event",
          con.["sn_southside_close_event"] ⊕ con.["sn_southside_far_event"]);
         ("sn_northside_event",
          con.["sn_northside_close_event"] ⊕ con.["sn_northside_far_event"]);
         ("sn_before_event",
          con.["sn_before_close_event"] ⊕ con.["sn_before_far_event"]);
         ("sn_after_event",
          con.["sn_after_close_event"] ⊕ con.["sn_after_far_event"])];
      let response := VStr "sn_all_event_response" in
      contrasts ← Py.setitem contrasts "sn_all_space-time_cue"
        (contrasts.["sn_all_space_cue"] ⊖ contrasts.["sn_all_time_cue"]);
      contrasts ← Py.setitem contrasts "sn_all_time-space_cue"
        (⊖ contrasts.["sn_all_space-time_cue"]);
      contrasts ← Py.setitem contrasts "sn_space_event"
        (contrasts.["sn_southside_event"] ⊕ contrasts.["sn_northside_event"]);
      contrasts ← Py.setitem contrasts "sn_time_event"
        (contrasts.["sn_before_event"] ⊕ contrasts.["sn_after_event"]);
      contrasts ← Py.setitem contrasts "sn_average_event"
        (contrasts.["sn_space_event"] ⊕ contrasts.["sn_time_event"]);
      contrasts ← Py.setitem contrasts "sn_space-time_event"
        (contrasts.["sn_space_event"] ⊖ contrasts.["sn_time_event"]);
      contrasts ← Py.setitem contrasts "sn_time-space_event"
        (⊖ contrasts.["sn_space-time_event"]);
      contrasts ← Py.setitem contrasts "southside-northside_event"
        (contrasts.["sn_southside_event"] ⊖ contrasts.["sn_northside_event"]);
      contrasts ← Py.setitem contrasts "northside-southside_event"
        (⊖ contrasts.["southside-northside_event"]);
      contrasts ← Py.setitem contrasts "sn_before-after_event"
        (contrasts.["sn_before_event"] ⊖ contrasts.["sn_after_event"]);
      contrasts ← Py.setitem contrasts "sn_after-before_event"
        (⊖ contrasts.["sn_before-after_event"]);
      Ok (_append_effects_interest_contrast columns
            (<["sn_all_event_response" := response]> (vectors contrasts)))
  end.

Definition retino (design_matrix_columns : option (list string))
  : result contrast_set :=
  match design_matrix_columns with
  | None => Ok (Py.dict [("cos", VEmpty); ("sin", VEmpty);
                         ("effects_interest", VEmpty)])
  | Some columns =>
      let con := _elementary_contrasts columns in
      cos ← con.["cos"];
      sin ← con.["sin"];
      cos' ← con.["cos"];
      sin' ← con.["sin"];
      Ok (Py.dict [("cos", VVec cos); ("sin", VVec sin);
                   ("effects_interest", VMat [cos'; sin'])])
  end.

Definition rsvp_language (design_matrix_columns : option (list string))
  : result contrast_set :=
  let contrast_names :=
    ["complex"; "simple"; "jabberwocky"; "word_list";
     "pseudoword_list"; "consonant_string"; "complex-simple";
     "sentence-jabberwocky"; "sentence-word";
     "word-consonant_string"; "jabberwocky-pseudo";
     "word-pseudo"; "pseudo-consonant_string";
     "sentence-consonant_string"; "simple-consonant_string";
     "complex-consonant_string"; "sentence-pseudo"; "probe";
     "jabberwocky-consonant_string"] in
  match design_matrix_columns with
  | None => Ok (schema contrast_names)
  | Some columns =>
      let con := _elementary_contrasts columns in
      con ← Py.setitem con "complex" con.["complex_sentence"];
      con ← Py.setitem con "simple" con.["simple_sentence"];
      contrasts ← Py.display
        [("complex", con.["complex"]);
         ("simple", con.["simple"]);
         ("probe", con.["probe"]);
         ("jabberwocky", con.["jabberwocky"]);
         ("word_list", con.["word_list"]);
         ("pseudoword_list", con.["pseudoword_list"]);
         ("consonant_string", con.["consonant_strings"]);
         ("complex-simple", con.["complex"] ⊖ con.["simple"]);
         ("sentence-jabberwocky",
          con.["complex"] ⊕ con.["simple"] ⊖ qc 2 ⊛ con.["jabberwocky"]);
         ("sentence-word",
          con.["complex"] ⊕ con.["simple"] ⊖ qc 2 ⊛ con.["word_list"]);
         ("word-consonant_string",
          con.["word_list"] ⊖ con.["consonant_strings"]);
         ("jabberwocky-pseudo",
          con.["jabberwocky"] ⊖ con.["pseudoword_list"]);
         ("jabberwocky-consonant_string",
          con.["jabberwocky"] ⊖ con.["consonant_strings"]);
         ("word-pseudo", con.["word_list"] ⊖ con.["pseudoword_list"]);
         ("pseudo-consonant_string",
          con.["pseudoword_list"] ⊖ con.["consonant_strings"]);
         ("sentence-consonant_string",
          con.["complex"] ⊕ con.["simple"]
          ⊖ qc 2 ⊛ con.["consonant_strings"]);
         ("simple-consonant_string",
          con.["simple"] ⊖ con.["consonant_strings"]);
         ("complex-consonant_string",
          con.["complex"] ⊖ con.["consonant_strings"]);
         ("sentence-pseudo",
          con.["complex"] ⊕ con.["simple"]
          ⊖ qc 2 ⊛ con.["pseudoword_list"])];
      finish columns contrast_names contrasts
  end.

Definition archi_social (design_matrix_columns : option (list string))
  : result contrast_set :=
  let contrast_names :=
    ["triangle_mental-random"; "false_belief-mechanistic_audio";
     "mechanistic_audio"; "false_belief-mechanistic_video";
     "mechanistic_video"; "false_belief-mechanistic";
     "speech-non_speech"; "triangle_mental"; "triangle_random";
     "false_belief_audio"; "false_belief_video";
     "speech_sound"; "non_speech_sound"] in
  match design_matrix_columns with
  | None => Ok (schema contrast_names)
  | Some columns =>
      let con := _elementary_contrasts columns in
      contrasts ← Py.display
        [("triangle_mental", con.["triangle_intention"]);
         ("triangle_random", con.["triangle_random"]);
         ("false_belief_audio", con.["false_belief_audio"]);
         ("mechanistic_audio", con.["mechanistic_audio"]);
         ("false_belief_video", con.["false_belief_video"]);
         ("mechanistic_video", con.["mechanistic_video"]);
         ("speech_sound", con.["speech"]);
         ("non_speech_sound", con.["non_speech"]);
         ("triangle_mental-random",
          con.["triangle_intention"] ⊖ con.["triangle_random"]);
         ("false_belief-mechanistic_audio",
          con.["false_belief_audio"] ⊖ con.["mechanistic_audio"]);
         ("false_belief-mechanistic_video",
          con.["false_belief_video"] ⊖ con.["mechanistic_video"]);
         ("speech-non_speech", con.["speech"] ⊖ con.["non_speech"]);
         ("mechanistic_video", con.["mechanistic_video"]);
         ("mechanistic_audio", con.["mechanistic_audio"])];
      contrasts ← Py.setitem contrasts "false_belief-mechanistic"
        (contrasts.["false_belief-mechanistic_audio"]
         ⊕ contrasts.["false_belief-mechanistic_video"]);
      finish columns contrast_names contrasts
  end.

Definition archi_spatial (design_matrix_columns : option (list string))
  : result contrast_set :=
  let contrast_names :=
    ["saccades"; "rotation_hand"; "rotation_side"; "object_grasp";
     "object_orientation"; "hand-side"; "grasp-orientation"] in
  match design_matrix_columns with
  | None => Ok (schema contrast_names)
  | Some columns =>
      let contrasts := _elementary_contrasts columns in
      contrasts ← Py.display
        [("saccades", contrasts.["saccade"]);
         ("rotation_hand", contrasts.["rotation_hand"]);
         ("rotation_side", contrasts.["rotation_side"]);
         ("object_grasp", contrasts.["object_grasp"]);
         ("object_orientation", contrasts.["object_orientation"]);
         ("hand-side",
          contrasts.["rotation_hand"] ⊖ contrasts.["rotation_side"]);
         ("grasp-orientation",
          contrasts.["object_grasp"] ⊖ contrasts.["object_orientation"])];
      finish columns contrast_names contrasts
  end.

Definition archi_standard (design_matrix_columns : option (list string))
  : result contrast_set :=
  let contrast_names :=
    ["audio_left_button_press"; "audio_right_button_press";
     "video_left_button_press"; "video_right_button_press";
     "left-right_button_press"; "right-left_button_press";
     "listening-reading"; "reading-listening";
     "motor-cognitive"; "cognitive-motor"; "reading-checkerboard";
     "horizontal-vertical"; "vertical-horizontal";
     "horizontal_checkerboard"; "vertical_checkerboard";
     "audio_sentence"; "video_sentence";
     "audio_computation"; "video_computation";
     "sentences"; "computation";
     "computation-sentences"; "sentences-computation"] in
  match design_matrix_columns with
  | None => Ok (schema contrast_names)
  | Some columns =>
      let contrasts := _elementary_contrasts columns in
      contrasts ← Py.setitem contrasts "audio_left_button_press"
        contrasts.["audio_left_hand"];
      contrasts ← Py.setitem contrasts "audio_right_button_press"
        contrasts.["audio_right_hand"];
      contrasts ← Py.setitem contrasts "video_left_button_press"
        contrasts.["video_left_hand"];
      contrasts ← Py.setitem contrasts "video_right_button_press"
        contrasts.["video_right_hand"];
      contrasts ← Py.setitem contrasts "audio"
        (contrasts.["audio_left_hand"] ⊕ contrasts.["audio_right_hand"]
         ⊕ contrasts.["audio_computation"] ⊕ contrasts.["audio_sentence"]);
      contrasts ← Py.setitem contrasts "audio_sentence"
        contrasts.["audio_sentence"];
      contrasts ← Py.setitem contrasts "video_sentence"
        contrasts.["video_sentence"];
      contrasts ← Py.setitem contrasts "audio_computation"
        contrasts.["audio_computation"];
      contrasts ← Py.setitem contrasts "video_computation"
        contrasts.["video_computation"];
      contrasts ← Py.setitem contrasts "video"
        (contrasts.["video_left_hand"] ⊕ contrasts.["video_right_hand"]
         ⊕ contrasts.["video_computation"] ⊕ contrasts.["video_sentence"]);
      contrasts ← Py.setitem contrasts "left_button_press"
        (contrasts.["audio_left_hand"] ⊕ contrasts.["video_left_hand"]);
      contrasts ← Py.setitem contrasts "right_button_press"
        (contrasts.["audio_right_hand"] ⊕ contrasts.["video_right_hand"]);
      contrasts ← Py.setitem contrasts "computation"
        (contrasts.["audio_computation"] ⊕ contrasts.["video_computation"]);
      contrasts ← Py.setitem contrasts "sentences"
        (contrasts.["audio_sentence"] ⊕ contrasts.["video_sentence"]);
      contrasts ← Py.setitem contrasts "horizontal-vertical"
        (contrasts.["horizontal_checkerboard"]
         ⊖ contrasts.["vertical_checkerboard"]);
      contrasts ← Py.setitem contrasts "vertical-horizontal"
        (contrasts.["vertical_checkerboard"]
         ⊖ contrasts.["horizontal_checkerboard"]);
      contrasts ← Py.setitem contrasts "left-right_button_press"
        (contrasts.["left_button_press"] ⊖ contrasts.["right_button_press"]);
      contrasts ← Py.setitem contrasts "right-left_button_press"
        (contrasts.["right_button_press"] ⊖ contrasts.["left_button_press"]);
      contrasts ← Py.setitem contrasts "motor-cognitive"
        (contrasts.["left_button_press"] ⊕ contrasts.["right_button_press"]
         ⊖ contrasts.["computation"] ⊖ contrasts.["sentences"]);
      contrasts ← Py.setitem contrasts "cognitive-motor"
        (⊖ (contrasts.["left_button_press"] ⊕ contrasts.["right_button_press"]
            ⊖ contrasts.["computation"] ⊖ contrasts.["sentences"]));
      contrasts ← Py.setitem contrasts "listening-reading"
        (contrasts.["audio"] ⊖ contrasts.["video"]);
      contrasts ← Py.setitem contrasts "reading-listening"
        (contrasts.["video"] ⊖ contrasts.["audio"]);
      contrasts ← Py.setitem contrasts "computation-sentences"
        (contrasts.["computation"] ⊖ contrasts.["sentences"]);
      contrasts ← Py.setitem contrasts "sentences-computation"
        (contrasts.["sentences"] ⊖ contrasts.["computation"]);
      contrasts ← Py.setitem contrasts "reading-checkerboard"
        (contrasts.["video_sentence"]
         ⊖ contrasts.["horizontal_checkerboard"]);
      contrasts ← select contrasts contrast_names;
      finish columns contrast_names contrasts
  end.

Definition archi_emotional (design_matrix_columns : option (list string))
  : result contrast_set :=
  let contrast_names :=
    ["face_gender"; "face_control"; "face_trusty";
     "expression_intention"; "expression_gender"; "expression_control";
     "trusty_and_intention-control"; "trusty_and_intention-gender";
     "expression_gender-control"; "expression_intention-control";
     "expression_intention-gender"; "face_trusty-control";
     "face_gender-control"; "face_trusty-gender"] in
  match design_matrix_columns with
  | None => Ok (schema contrast_names)
  | Some columns =>
      let contrasts := _elementary_contrasts columns in
      contrasts ← Py.display
        [("face_gender", contrasts.["face_gender"]);
         ("face_control", contrasts.["face_control"]);
         ("face_trusty", contrasts.["face_trusty"]);
         ("expression_intention", contrasts.["expression_intention"]);
         ("expression_gender", contrasts.["expression_gender"]);
         ("expression_control", contrasts.["expression_control"]);
         ("face_trusty-gender",
          contrasts.["face_trusty"] ⊖ contrasts.["face_gender"]);
         ("face_gender-control",
          contrasts.["face_gender"] ⊖ contrasts.["face_control"]);
         ("face_trusty-control",
          contrasts.["face_trusty"] ⊖ contrasts.["face_control"]);
         ("expression_intention-gender",
          contrasts.["expression_intention"]
          ⊖ contrasts.["expression_gender"]);
         ("expression_intention-control",
          contrasts.["expression_intention"]
          ⊖ contrasts.["expression_control"]);
         ("expression_gender-control",
          contrasts.["expression_gender"]
          ⊖ contrasts.["expression_control"])];
      contrasts ← Py.setitem contrasts "trusty_and_intention-gender"
        (contrasts.["face_trusty-gender"]
         ⊕ contrasts.["expression_intention-gender"]);
      contrasts ← Py.setitem contrasts "trusty_and_intention-control"
        (contrasts.["face_trusty-control"]
         ⊕ contrasts.["expression_intention-control"]);
      finish columns contrast_names contrasts
  end.

(** The loop of the HCP definitions:
    [contrasts[columns[i].lower()] = np.eye(n)[i]]. *)
Fixpoint lower_loop (n i : nat) (columns : list string)
  (contrasts : gmap string vec) : gmap string vec :=
  match columns with
  | [] => contrasts
  | c :: columns' =>
      lower_loop n (S i) columns' (<[Py.lower c := eye n i]> contrasts)
  end.

Definition lower_contrasts (design_matrix_columns : list string)
  : gmap string vec :=
  lower_loop (length design_matrix_columns) 0 design_matrix_columns ∅.

Definition hcp_emotion (design_matrix_columns : option (list string))
  : result contrast_set :=
  let contrast_names := ["face"; "shape"; "face-shape"; "shape-face"] in
  match design_matrix_columns with
  | None => Ok (schema contrast_names)
  | Some columns =>
      let contrasts := lower_contrasts columns in
      kvs ← Py.comprehension
        (λ key, v ← contrasts.[Py.lower key]; Ok (key, v)) ["face"; "shape"];
      let contrasts := Py.dict kvs in
      contrasts ← Py.display
        [("face-shape", contrasts.["face"] ⊖ contrasts.["shape"]);
         ("shape-face", contrasts.["shape"] ⊖ contrasts.["face"]);
         ("face", contrasts.["face"]);
         ("shape", contrasts.["shape"])];
      finish columns contrast_names contrasts
  end.

Definition hcp_gambling (design_matrix_columns : option (list string))
  : result contrast_set :=
  let contrast_names :=
    ["punishment-reward"; "reward-punishment"; "punishment"; "reward"] in
  match design_matrix_columns with
  | None => Ok (schema contrast_names)
  | Some columns =>
      let contrasts := lower_contrasts columns in
      contrasts ← select contrasts ["punishment"; "reward"];
      contrasts ← Py.display
        [("punishment-reward",
          contrasts.["punishment"] ⊖ contrasts.["reward"]);
         ("reward-punishment",
          contrasts.["reward"] ⊖ contrasts.["punishment"]);
         ("punishment", contrasts.["punishment"]);
         ("reward", contrasts.["reward"])];
      finish columns contrast_names contrasts
  end.

Definition hcp_language (design_matrix_columns : option (list string))
  : result contrast_set :=
  let contrast_names := ["math-story"; "story-math"; "math"; "story"] in
  match design_matrix_columns with
  | None => Ok (schema contrast_names)
  | Some columns =>
      let contrasts := lower_contrasts columns in
      contrasts ← select contrasts ["math"; "story"];
      contrasts ← Py.display
        [("math-story", contrasts.["math"] ⊖ contrasts.["story"]);
         ("story-math", contrasts.["story"] ⊖ contrasts.["math"]);
         ("math", contrasts.["math"]);
         ("story", contrasts.["story"])];
      finish columns contrast_names contrasts
  end.

Definition hcp_motor (design_matrix_columns : option (list string))
  : result contrast_set :=
  let contrast_names :=
    ["left_hand"; "right_hand"; "left_foot"; "right_foot";
     "tongue"; "tongue-avg"; "left_hand-avg"; "right_hand-avg";
     "left_foot-avg"; "right_foot-avg"; "cue"] in
  match design_matrix_columns with
  | None => Ok (schema contrast_names)
  | Some columns =>
      let contrasts := lower_contrasts columns in
      contrasts ← Py.setitem contrasts "Average"
        ((contrasts.["left_hand"] ⊕ contrasts.["right_hand"]
          ⊕ contrasts.["left_foot"]
          ⊕ contrasts.["right_foot"] ⊕ contrasts.["tongue"]) ⊘ qc 5);
      contrasts ← Py.display
        [("cue", contrasts.["cue"]);
         ("left_hand", contrasts.["left_hand"]);
         ("right_hand", contrasts.["right_hand"]);
         ("left_foot", contrasts.["left_foot"]);
         ("right_foot", contrasts.["right_foot"]);
         ("tongue", contrasts.["tongue"]);
         ("left_hand-avg", contrasts.["left_hand"] ⊖ contrasts.["Average"]);
         ("right_hand-avg", contrasts.["right_hand"] ⊖ contrasts.["Average"]);
         ("left_foot-avg", contrasts.["left_foot"] ⊖ contrasts.["Average"]);
         ("right_foot-avg", contrasts.["right_foot"] ⊖ contrasts.["Average"]);
         ("tongue-avg", contrasts.["tongue"] ⊖ contrasts.["Average"])];
      finish columns contrast_names contrasts
  end.

Definition hcp_relational (design_matrix_columns : option (list string))
  : result contrast_set :=
  let contrast_names := ["relational"; "relational-match"; "match"] in
  match design_matrix_columns with
  | None => Ok (schema contrast_names)
  | Some columns =>
      let contrasts := lower_contrasts columns in
      contrasts ← select contrasts ["relational"; "control"];
      contrasts ← Py.display
        [("match", contrasts.["control"]);
         ("relational", contrasts.["relational"]);
         ("relational-match",
          contrasts.["relational"] ⊖ contrasts.["control"])];
      finish columns contrast_names contrasts
  end.

Definition hcp_social (design_matrix_columns : option (list string))
  : result contrast_set :=
  let contrast_names := ["mental-random"; "mental"; "random"] in
  match design_matrix_columns with
  | None => Ok (schema contrast_names)
  | Some columns =>
      let contrasts := lower_contrasts columns in
      contrasts ← select contrasts ["mental"; "random"];
      contrasts ← Py.display
        [("mental-random", contrasts.["mental"] ⊖ contrasts.["random"]);
         ("random", contrasts.["random"]);
         ("mental", contrasts.["mental"])];
      finish columns contrast_names contrasts
  end.

Definition hcp_wm (design_matrix_columns : option (list string))
  : result contrast_set :=
  let contrast_names :=
    ["2back-0back"; "0back-2back"; "body-avg";
     "face-avg"; "place-avg"; "tools-avg";
     "0back_body"; "2back_body"; "0back_face"; "2back_face";
     "0back_tools"; "2back_tools"; "0back_place";
     "2back_place"] in
  match design_matrix_columns with
  | None => Ok (schema contrast_names)
  | Some columns =>
      let contrasts := lower_contrasts columns in
      contrasts ← select contrasts
        ["2back_body"; "0back_body"; "2back_face"; "0back_face";
         "2back_tools"; "0back_tools"; "0back_place"; "2back_place"];
      contrasts ← Py.setitem contrasts "2back"
        (contrasts.["2back_body"] ⊕ contrasts.["2back_face"]
         ⊕ contrasts.["2back_tools"] ⊕ contrasts.["2back_place"]);
      contrasts ← Py.setitem contrasts "0back"
        (contrasts.["0back_body"] ⊕ contrasts.["0back_face"]
         ⊕ contrasts.["0back_tools"] ⊕ contrasts.["0back_place"]);
      contrasts ← Py.setitem contrasts "body"
        ((contrasts.["2back_body"] ⊕ contrasts.["0back_body"]) ⊘ qc 2);
      contrasts ← Py.setitem contrasts "face"
        ((contrasts.["2back_face"] ⊕ contrasts.["0back_face"]) ⊘ qc 2);
      contrasts ← Py.setitem contrasts "place"
        ((contrasts.["2back_place"] ⊕ contrasts.["0back_place"]) ⊘ qc 2);
      contrasts ← Py.setitem contrasts "tools"
        ((contrasts.["2back_tools"] ⊕ contrasts.["0back_tools"]) ⊘ qc 2);
      contrasts ← Py.setitem contrasts "average"
        ((contrasts.["2back"] ⊕ contrasts.["0back"]) ⊘ qc 8);
      contrasts ← Py.display
        [("0back_body", contrasts.["0back_body"]);
         ("2back_body", contrasts.["2back_body"]);
         ("0back_face", contrasts.["0back_face"]);
         ("2back_face", contrasts.["2back_face"]);
         ("0back_tools", contrasts.["0back_tools"]);
         ("2back_tools", contrasts.["2back_tools"]);
         ("0back_place", contrasts.["0back_place"]);
         ("2back_place", contrasts.["2back_place"]);
         ("2back-0back", contrasts.["2back"] ⊖ contrasts.["0back"]);
         ("0back-2back", contrasts.["0back"] ⊖ contrasts.["2back"]);
         ("body-avg", contrasts.["body"] ⊖ contrasts.["average"]);
         ("face-avg", contrasts.["face"] ⊖ contrasts.["average"]);
         ("place-avg", contrasts.["place"] ⊖ contrasts.["average"]);
         ("tools-avg", contrasts.["tools"] ⊖ contrasts.["average"])];
      finish columns contrast_names contrasts
  end.

(** ** The dispatcher *)

Definition make_contrasts (paradigm_id : string)
  (design_matrix_columns : option (list string)) : result contrast_set :=
  if String.eqb paradigm_id "archi_standard" then
    archi_standard design_matrix_columns
  else if String.eqb paradigm_id "archi_social" then
    archi_social design_matrix_columns
  else if String.eqb paradigm_id "archi_spatial" then
    archi_spatial design_matrix_columns
  else if String.eqb paradigm_id "archi_emotional" then
    archi_emotional design_matrix_columns
  else if String.eqb paradigm_id "hcp_emotion" then
    hcp_emotion design_matrix_columns
  else if String.eqb paradigm_id "hcp_gambling" then
    hcp_gambling design_matrix_columns
  else if String.eqb paradigm_id "hcp_language" then
    hcp_language design_matrix_columns
  else if String.eqb paradigm_id "hcp_motor" then
    hcp_motor design_matrix_columns
  else if String.eqb paradigm_id "hcp_wm" then
    hcp_wm design_matrix_columns
  else if String.eqb paradigm_id "hcp_relational" then
    hcp_relational design_matrix_columns
  else if String.eqb paradigm_id "hcp_social" then
    hcp_social design_matrix_columns
  else if String.eqb paradigm_id "language" then
    rsvp_language design_matrix_columns
  else if String.eqb paradigm_id "colour" then
    colour design_matrix_columns
  else if bool_decide (paradigm_id ∈ ["wedge"; "wedge_anti"; "wedge_clock"]) then
    wedge design_matrix_columns
  else if bool_decide (paradigm_id ∈ ["ring"; "cont_ring"; "exp_ring"]) then
    ring design_matrix_columns
  else if String.eqb (Py.take 10 paradigm_id) "preference" then
    let domain := Py.drop 11 paradigm_id in
    c ← Py.last_char domain;
    let domain :=
      if Ascii.eqb c "s"%char then Py.drop_last domain else domain in
    preferences design_matrix_columns domain
  else if String.eqb paradigm_id "MTTWE" then
    mtt_we_relative design_matrix_columns
  else if String.eqb paradigm_id "MTTNS" then
    mtt_sn_relative design_matrix_columns
  else if String.eqb paradigm_id "emotional_pain" then
    emotional_pain design_matrix_columns
  else if String.eqb paradigm_id "pain_movie" then
    pain_movie design_matrix_columns
  else if String.eqb paradigm_id "theory_of_mind" then
    theory_of_mind design_matrix_columns
  else if String.eqb paradigm_id "VSTM" then
    vstm design_matrix_columns
  else if String.eqb paradigm_id "enumeration" then
    enumeration design_matrix_columns
  else if String.eqb paradigm_id "clips_trn" then
    Ok ∅
  else if String.eqb paradigm_id "self" then
    self_localizer design_matrix_columns
  else if String.eqb paradigm_id "lyon_moto" then
    lyon_moto design_matrix_columns
  else if String.eqb paradigm_id "lyon_mcse" then
    lyon_mcse design_matrix_columns
  else if String.eqb paradigm_id "lyon_mveb" then
    lyon_mveb design_matrix_columns
  else if String.eqb paradigm_id "lyon_mvis" then
    lyon_mvis design_matrix_columns
  else if String.eqb paradigm_id "lyon_lec1" then
    lyon_lec1 design_matrix_columns
  else if String.eqb paradigm_id "lyon_lec2" then
    lyon_lec2 design_matrix_columns
  else if String.eqb paradigm_id "lyon_audi" then
    lyon_audi design_matrix_columns
  else if String.eqb paradigm_id "lyon_visu" then
    lyon_visu design_matrix_columns
  else if String.eqb paradigm_id "audio" then
    audio design_matrix_columns
  else if String.eqb paradigm_id "bang" then
    bang design_matrix_columns
  else if String.eqb paradigm_id "selective_stop_signal" then
    selective_stop_signal design_matrix_columns
  else if String.eqb paradigm_id "stop_signal" then
    stop_signal design_matrix_columns
  else if String.eqb paradigm_id "stroop" then
    stroop design_matrix_columns
  else if String.eqb paradigm_id "discount" then
    discount design_matrix_columns
  else if String.eqb paradigm_id "attention" then
    attention design_matrix_columns
  else if String.eqb paradigm_id "ward_and_aliport" then
    towertask design_matrix_columns
  else if String.eqb paradigm_id "two_by_two" then
    two_by_two design_matrix_columns
  else if String.eqb paradigm_id "columbia_cards" then
    columbia_cards design_matrix_columns
  else if String.eqb paradigm_id "dot_patterns" then
    dot_patterns design_matrix_columns
  else if String.eqb paradigm_id "biological_motion1" then
    biological_motion1 design_matrix_columns
  else if String.eqb paradigm_id "biological_motion2" then
    biological_motion2 design_matrix_columns
  else if String.eqb paradigm_id "math_language" then
    math_language design_matrix_columns
  else if String.eqb paradigm_id "spatial_navigation" then
    spatial_navigation design_matrix_columns
  else Raise (ValueError (paradigm_id +:+ " Unknown paradigm")).

(** ** Group-level analysis: the floor put on the three effect maps *)

Module GlobalStat.

(** A statistical map is known here through its voxel values. *)
Abbreviation img := (list Qc).

Definition threshold : Qc := Q2Qc (-82095 # 10000).

(** [img > -8.2095] at one voxel, as the 0/1 factor it becomes in the product. *)
Definition above (x : Qc) : Qc :=
  if bool_decide (threshold < x)%Qc then 1%Qc else 0%Qc.

(** [math_img('img * (img > -8.2095)', img=m)] *)
Definition math_img_floor (m : img) : img := (λ x, (x * above x)%Qc) <$> m.

(** The last three assignments of [anova], applied to the z-score maps that
    the second-level model returned for the three factors. *)
Definition anova_maps (subject_map contrast_map acq_map : img)
  : img * img * img :=
  (math_img_floor subject_map,
   math_img_floor contrast_map,
   math_img_floor acq_map).

End GlobalStat.

(** ** Specification-side definitions

    These follow the wording of the specification, or name a set of inputs;
    they are what the embedded code is compared with. *)

Module Spec.

(** [name] ends in [suffix]. *)
Definition has_suffix (suffix name : string) : Prop :=
  ∃ stem, name = stem +:+ suffix.

(** [name.endswith(suffix)] for a non-empty suffix. *)
Definition endswith (suffix name : string) : bool :=
  bool_decide (Py.last (String.length suffix) name = suffix).

(** The nuisance set, stated by cases. *)
Definition is_nuisance (c : string) : Prop :=
  c ∈ ["tx"; "ty"; "tz"; "rx"; "ry"; "rz"; "constant"]
  ∨ ∃ k : nat, k < 20 ∧ (c = "drift_" +:+ pretty k ∨ c = "conf_" +:+ pretty k).

(** The effects-of-interest rows as the specification words them: every
    column except the nuisance ones and those whose name ends in the
    derivative suffix. *)
Fixpoint effects_interest_from (n i : nat) (columns : list string) : list vec :=
  match columns with
  | [] => []
  | c :: columns' =>
      if bool_decide (c ∈ nuisance) || endswith "_derivative" c
      then effects_interest_from n (S i) columns'
      else eye n i :: effects_interest_from n (S i) columns'
  end.

Definition effects_interest_rows (columns : list string) : list vec :=
  effects_interest_from (length columns) 0 columns.

(** The indices, counted from [i], of the columns that pass a test. *)
Fixpoint indices_where (p : string → bool) (i : nat) (columns : list string)
  : list nat :=
  match columns with
  | [] => []
  | c :: columns' =>
      if p c then i :: indices_where p (S i) columns'
      else indices_where p (S i) columns'
  end.

(** The test that a column passes to become an effects-of-interest row. *)
Definition interest_test (c : string) : bool :=
  negb (bool_decide (c ∈ nuisance)) && negb (derivative_test c).

(** The first candidate key present in a dict. *)
Fixpoint first_present {A} (con : gmap string A) (candidates : list string)
  : option A :=
  match candidates with
  | [] => None
  | k :: candidates' =>
      match con !! k with
      | Some v => Some v
      | None => first_present con candidates'
      end
  end.

(** A sum of two regressors that degrades to the one that is present. *)
Definition sum_or_present (con : gmap string vec) (k1 k2 : string)
  : option vec :=
  match con !! k1, con !! k2 with
  | Some u, Some v => Some (vadd u v)
  | Some u, None => Some u
  | None, Some v => Some v
  | None, None => None
  end.

(** A floor in the usual sense: values below the bound are raised to it. *)
Definition clip_floor (bound x : Qc) : Qc :=
  if bool_decide (bound < x)%Qc then x else bound.

(** The column of level [k] of the ordinal response factor. *)
Definition response_name (k : nat) : string := "response_num_" +:+ pretty k.

(** The coefficient that a column receives from the coefficient vector
    [coefs] of the levels [k], [k + 1], ...: that of its level, zero when
    it is no response column. *)
Fixpoint level_coefficient (coefs : vec) (k : nat) (c : string) : Qc :=
  match coefs with
  | [] => 0%Qc
  | x :: coefs' =>
      if bool_decide (c = response_name k) then x
      else level_coefficient coefs' (S k) c
  end.

(** [r] is the elementary contrast of level [k]: a basis vector at a
    position that holds that level's column. *)
Definition is_response (columns : list string) (k : nat) (r : vec) : Prop :=
  ∃ i, columns !! i = Some (response_name k)
       ∧ r = eye (length columns) i
       ∧ _elementary_contrasts columns !! response_name k = Some r.

(** The identifiers that the dispatcher compares its argument with. *)
Definition paradigm_ids : list string :=
  ["archi_standard"; "archi_social"; "archi_spatial"; "archi_emotional";
   "hcp_emotion"; "hcp_gambling"; "hcp_language"; "hcp_motor"; "hcp_wm";
   "hcp_relational"; "hcp_social"; "language"; "colour";
   "wedge"; "wedge_anti"; "wedge_clock"; "ring"; "cont_ring"; "exp_ring";
   "MTTWE"; "MTTNS"; "emotional_pain"; "pain_movie"; "theory_of_mind";
   "VSTM"; "enumeration"; "clips_trn"; "self";
   "lyon_moto"; "lyon_mcse"; "lyon_mveb"; "lyon_mvis"; "lyon_lec1";
   "lyon_lec2"; "lyon_audi"; "lyon_visu"; "audio"; "bang";
   "selective_stop_signal"; "stop_signal"; "stroop"; "discount";
   "attention"; "ward_and_aliport"; "two_by_two"; "columbia_cards";
   "dot_patterns"; "biological_motion1"; "biological_motion2";
   "math_language"; "spatial_navigation"].

(** A contrast value fit for the contrast evaluator: a vector of the given
    length, or a matrix whose rows are such vectors. *)
Definition numeric (n : nat) (v : value) : Prop :=
  match v with
  | VVec u => length u = n
  | VMat rows => Forall (λ r, length r = n) rows
  | VEmpty | VStr _ => False
  end.

End Spec.

(** ** Definitions for the properties of all paradigms *)

(** The two keys that the extensions add. *)
Definition reserved : gset string := {["effects_interest"; "derivatives"]}.

(** A dict all of whose vectors have the design's length, and an expression
    that returns such a vector when it returns. *)
Definition sized (n : nat) (d : gmap string vec) : Prop :=
  map_Forall (λ _ v, length v = n) d.

Definition rsized (n : nat) (r : result vec) : Prop :=
  ∀ v, r = Ok v → length v = n.

Definition numeric_set (n : nat) (m : contrast_set) : Prop :=
  map_Forall (λ _ v, Spec.numeric n v) m.

(** An expression that returns (that raises nothing). *)
Definition returns {A} (r : result A) : Prop := ∃ v, r = Ok v.

(** [r] raises nothing but a [KeyError], and only for a key that [con] does
    not hold. *)
Definition missing_key {A B} (con : gmap string A) (r : result B) : Prop :=
  ∀ e, r = Raise e → ∃ k, e = KeyError k ∧ con !! k = None.

(** The mapping that [self_localizer] builds from the terms it resolved. *)
Definition self_contrasts (es eo ins fa h cr sh s o oh : vec)
  : gmap string vec :=
  Py.dict
    [("encode_self-other", vsub es eo);
     ("encode_other", eo);
     ("encode_self", es);
     ("instructions", ins);
     ("false_alarm", fa);
     ("recognition_hit", h);
     ("recognition_self_hit", sh);
     ("recognition_hit-correct_rejection", vsub h cr);
     ("correct_rejection", cr);
     ("recognition_self-other", vsub s o);
     ("recognition_other_hit", oh)].


(** *** Group-level analysis: the labels of the design and the contrasts of
    the three factors *)

Module Anova.

(** The position that a slice bound [i] stands for in a sequence of length
    [n]: a negative bound counts from the end, and every bound is clipped
    to the sequence. *)
Definition slice_bound (n : nat) (i : Z) : nat :=
  Z.to_nat (if bool_decide (i < 0)%Z then Z.max 0 (i + Z.of_nat n)
            else Z.min i (Z.of_nat n)).

(** [l[lo:hi]], where an omitted bound is [None]. *)
Definition slice {A} (lo hi : option Z) (l : list A) : list A :=
  let n := length l in
  let lo' := from_option (slice_bound n) 0 lo in
  let hi' := from_option (slice_bound n) n hi in
  take (hi' - lo') (drop lo' l).

(** [np.eye(n)], by rows. *)
Definition np_eye (n : nat) : list vec := eye n <$> seq 0 n.

(** [np.hstack((subject_[: -1], contrast_[: -1], acq_[: -1],
    ['intercept']))] for the levels of the three factors. *)
Definition labels (subject_ contrast_ acq_ : list string) : list string :=
  slice None (Some (-1)%Z) subject_ ++ slice None (Some (-1)%Z) contrast_
  ++ slice None (Some (-1)%Z) acq_ ++ ["intercept"].

(** [len(levels) - 1] *)
Definition dof (levels : list string) : Z := (Z.of_nat (length levels) - 1)%Z.

(** The three arguments of [compute_contrast]. *)
Definition subject_contrast (subject_ contrast_ acq_ : list string)
  : list vec :=
  slice None (Some (dof subject_))
    (np_eye (length (labels subject_ contrast_ acq_))).

Definition contrast_contrast (subject_ contrast_ acq_ : list string)
  : list vec :=
  slice (Some (dof subject_)) (Some (dof subject_ + dof contrast_)%Z)
    (np_eye (length (labels subject_ contrast_ acq_))).

Definition acq_contrast (subject_ contrast_ acq_ : list string) : list vec :=
  slice (Some (-1 - dof acq_)%Z) (Some (-1)%Z)
    (np_eye (length (labels subject_ contrast_ acq_))).

End Anova.


(** * Properties *)

(** ** Strings *)

Section strings.
Implicit Types s t stem : string.

Lemma length_app s t : String.length (s +:+ t) = String.length s + String.length t.
Proof. induction s as [|c s IH]; simpl; [done | by rewrite IH]. Qed.

Lemma substring_all s : String.substring 0 (String.length s) s = s.
Proof. induction s as [|c s IH]; simpl; [done | by rewrite IH]. Qed.

Lemma substring_skip s t :
  String.substring (String.length s) (String.length t) (s +:+ t) = t.
Proof. induction s as [|c s IH]; simpl; [apply substring_all | done]. Qed.

Lemma substring_split s k :
  k ≤ String.length s →
  s = String.substring 0 k s +:+ String.substring k (String.length s - k) s.
Proof.
  revert k. induction s as [|c s IH]; intros [|k] Hk; simpl in *; try lia.
  - done.
  - by rewrite substring_all.
  - transitivity
      (String c (String.substring 0 k s
                 +:+ String.substring k (String.length s - k) s));
      [f_equal; apply IH; lia | reflexivity].
Qed.

Lemma last_app stem t : Py.last (String.length t) (stem +:+ t) = t.
Proof.
  unfold Py.last. rewrite length_app.
  replace (String.length stem + String.length t - String.length t)
    with (String.length stem) by lia.
  apply substring_skip.
Qed.

Lemma derivative_test_true name :
  derivative_test name = true
  ↔ ∃ stem, stem ≠ "" ∧ name = stem +:+ "_derivative".
Proof.
  unfold derivative_test. rewrite andb_true_iff, !bool_decide_eq_true. split.
  - intros [Hlen Hlast].
    exists (String.substring 0 (String.length name - 11) name). split.
    + intros Hstem.
      pose proof (substring_split name (String.length name - 11)) as Hs.
      rewrite Hstem in Hs. simpl in Hs.
      replace (String.length name - (String.length name - 11)) with 11 in Hs by lia.
      unfold Py.last in Hlast. rewrite Hlast in Hs.
      rewrite Hs in Hlen by lia. simpl in Hlen. lia.
    + rewrite <- Hlast. unfold Py.last.
      etrans; [apply (substring_split name (String.length name - 11)); lia |].
      do 2 f_equal. lia.
  - intros (stem & Hne & ->). split.
    + rewrite length_app. destruct stem; [done | simpl; lia].
    + apply (last_app stem "_derivative").
Qed.

Lemma derivative_test_bare : derivative_test "_derivative" = false.
Proof. reflexivity. Qed.

Lemma derivative_test_length name :
  derivative_test name = true → 11 < String.length name.
Proof.
  unfold derivative_test. rewrite andb_true_iff, bool_decide_eq_true. tauto.
Qed.

Lemma elem_of_nuisance c : c ∈ nuisance ↔ Spec.is_nuisance c.
Proof.
  unfold nuisance, Spec.is_nuisance.
  rewrite !elem_of_app, !list_elem_of_fmap. split.
  - intros [H | [(k & -> & Hk) | (k & -> & Hk)]]; [by left | right; exists k ..];
      apply elem_of_seq in Hk; split; auto; lia.
  - intros [H | (k & Hk & [-> | ->])]; [by left | right; left | right; right];
      exists k; split; auto; apply elem_of_seq; lia.
Qed.

End strings.

(** ** Basis vectors *)

Lemma length_eye n i : length (eye n i) = n.
Proof. unfold eye. by rewrite length_fmap, length_seq. Qed.

Lemma lookup_eye n i j :
  j < n → eye n i !! j = Some (if bool_decide (j = i) then 1%Qc else 0%Qc).
Proof.
  intros Hj. unfold eye. by rewrite list_lookup_fmap, lookup_seq_lt.
Qed.

Lemma eye_inj n i j : i < n → eye n i = eye n j → i = j.
Proof.
  intros Hi Heq. pose proof (lookup_eye n i i Hi) as H1.
  rewrite Heq, lookup_eye in H1 by done.
  rewrite (bool_decide_eq_true_2 (i = i)) in H1 by done.
  case_bool_decide; [done | by inversion H1].
Qed.

(** ** The indices selected by a test *)

Section indices.
Variable p : string → bool.

Lemma elem_of_indices_where i columns j :
  j ∈ Spec.indices_where p i columns
  ↔ i ≤ j ∧ ∃ c, columns !! (j - i) = Some c ∧ p c = true.
Proof.
  revert i. induction columns as [|c columns IH]; intros i; simpl.
  - split; [by intros ?%elem_of_nil | by intros (_ & c & ? & _)].
  - destruct (p c) eqn:Hc; rewrite ?elem_of_cons, IH; split.
    + intros [-> | (Hle & c' & Hl & Hp)].
      * split; [lia |]. exists c. by rewrite Nat.sub_diag.
      * split; [lia |]. exists c'. split; [| done].
        replace (j - i) with (S (j - S i)) by lia. done.
    + intros (Hle & c' & Hl & Hp).
      destruct (decide (j = i)) as [-> | Hne]; [by left | right].
      split; [lia |]. exists c'. split; [| done].
      replace (j - i) with (S (j - S i)) in Hl by lia. done.
    + intros (Hle & c' & Hl & Hp). split; [lia |]. exists c'. split; [| done].
      replace (j - i) with (S (j - S i)) by lia. done.
    + intros (Hle & c' & Hl & Hp).
      destruct (decide (j = i)) as [-> | Hne].
      * rewrite Nat.sub_diag in Hl. simpl in Hl. congruence.
      * split; [lia |]. exists c'. split; [| done].
        replace (j - i) with (S (j - S i)) in Hl by lia. done.
Qed.

Lemma indices_where_sorted i columns :
  StronglySorted lt (Spec.indices_where p i columns).
Proof.
  revert i. induction columns as [|c columns IH]; intros i; simpl.
  - constructor.
  - destruct (p c); [| apply IH]. constructor; [apply IH |].
    apply Forall_forall. intros j Hj%elem_of_indices_where. lia.
Qed.

Lemma indices_where_lt i columns j :
  j ∈ Spec.indices_where p i columns → j < i + length columns.
Proof.
  intros (Hle & c & Hl & _)%elem_of_indices_where.
  apply lookup_lt_Some in Hl. lia.
Qed.

End indices.

(** ** The two extension loops *)

Lemma effects_interest_loop_indices n i columns con :
  effects_interest_loop n i columns con
  = con ++ (eye n <$> Spec.indices_where Spec.interest_test i columns).
Proof.
  revert i con. induction columns as [|c columns IH]; intros i con; simpl.
  - by rewrite app_nil_r.
  - unfold Spec.interest_test at 1.
    case_bool_decide; simpl; [apply IH |].
    destruct (derivative_test c); simpl; [apply IH |].
    by rewrite IH, <- app_assoc.
Qed.

Lemma derivative_loop_indices n i columns con :
  derivative_loop n i columns con
  = con ++ (eye n <$> Spec.indices_where derivative_test i columns).
Proof.
  revert i con. induction columns as [|c columns IH]; intros i con; simpl.
  - by rewrite app_nil_r.
  - destruct (derivative_test c); simpl; [| apply IH].
    by rewrite IH, <- app_assoc.
Qed.

Lemma effects_interest_rows_indices columns :
  effects_interest_rows columns
  = eye (length columns) <$> Spec.indices_where Spec.interest_test 0 columns.
Proof. apply effects_interest_loop_indices. Qed.

Lemma derivative_rows_indices columns :
  derivative_rows columns
  = eye (length columns) <$> Spec.indices_where derivative_test 0 columns.
Proof. apply derivative_loop_indices. Qed.

Lemma interest_test_true c :
  Spec.interest_test c = true
  ↔ ¬ Spec.is_nuisance c ∧ ¬ ∃ stem, stem ≠ "" ∧ c = stem +:+ "_derivative".
Proof.
  unfold Spec.interest_test.
  rewrite andb_true_iff, !negb_true_iff, bool_decide_eq_false.
  rewrite elem_of_nuisance, <- derivative_test_true.
  by destruct (derivative_test c); intuition.
Qed.

(** A basis vector is a row of [eye n <$> idxs] only through its index. *)
Lemma eye_elem_of_fmap n i (idxs : list nat) :
  i < n → eye n i ∈ eye n <$> idxs ↔ i ∈ idxs.
Proof.
  intros Hi. rewrite list_elem_of_fmap. split.
  - by intros (j & ->%eye_inj & Hj).
  - intros Hin. by exists i.
Qed.

(** ** The extensions on a contrast set *)

Lemma append_effects_interest_unfold columns (contrast : contrast_set) :
  _append_effects_interest_contrast columns contrast
  = if decide (effects_interest_rows columns = []) then contrast
    else <["effects_interest" := VMat (effects_interest_rows columns)]> contrast.
Proof.
  unfold _append_effects_interest_contrast. simpl.
  case_bool_decide; case_decide; done.
Qed.

Lemma append_derivative_unfold columns (contrast : contrast_set) :
  _append_derivative_contrast columns contrast
  = if decide (derivative_rows columns = []) then contrast
    else <["derivatives" := VMat (derivative_rows columns)]> contrast.
Proof.
  unfold _append_derivative_contrast. simpl.
  case_bool_decide; case_decide; done.
Qed.

(** C3 (effects of interest, amended).  The rows are the basis vectors, in
    column order, of exactly the columns that are not nuisance columns and
    are not a non-empty stem followed by '_derivative'; the extension puts
    them under 'effects_interest' when there is at least one and leaves the
    contrast set as it is otherwise; on ['a','b','constant','drift_0'] the
    rows are those of 'a' and 'b'. *)
Theorem effects_interest_extension columns (contrast : contrast_set) :
  let n := length columns in
  let rows := effects_interest_rows columns in
  (∃ idxs : list nat,
      rows = eye n <$> idxs ∧ StronglySorted lt idxs
      ∧ ∀ i, i ∈ idxs ↔
          ∃ c, columns !! i = Some c ∧ ¬ Spec.is_nuisance c
               ∧ ¬ ∃ stem, stem ≠ "" ∧ c = stem +:+ "_derivative")
  ∧ _append_effects_interest_contrast columns contrast
    = (if decide (rows = []) then contrast
       else <["effects_interest" := VMat rows]> contrast)
  ∧ effects_interest_rows ["a"; "b"; "constant"; "drift_0"]
    = [eye 4 0; eye 4 1].
Proof.
  intros n rows. split; [| split].
  - exists (Spec.indices_where Spec.interest_test 0 columns). split; [| split].
    + apply effects_interest_rows_indices.
    + apply indices_where_sorted.
    + intros i. rewrite elem_of_indices_where, Nat.sub_0_r. split.
      * intros (_ & c & Hc & Hp%interest_test_true). by exists c.
      * intros (c & Hc & Hp). split; [lia |]. exists c.
        by rewrite interest_test_true.
  - apply append_effects_interest_unfold.
  - reflexivity.
Qed.

(** C3, as stated, fails on the single column '_derivative': the name ends
    in the derivative suffix and is no nuisance column, so the rows as the
    claim words them are empty, yet the code keeps its basis vector and adds
    the entry. *)
Lemma effects_interest_bare_suffix_counterexample :
  Spec.has_suffix "_derivative" "_derivative"
  ∧ ("_derivative" ∉ nuisance)
  ∧ effects_interest_rows ["_derivative"] = [eye 1 0]
  ∧ Spec.effects_interest_rows ["_derivative"] = []
  ∧ effects_interest_rows ["_derivative"]
    ≠ Spec.effects_interest_rows ["_derivative"]
  ∧ _append_effects_interest_contrast ["_derivative"] ∅
    = {["effects_interest" := VMat [eye 1 0]]}.
Proof.
  split; [by exists "" |]. split; [| done].
  apply (bool_decide_eq_false_1 ("_derivative" ∈ nuisance)). reflexivity.
Qed.

(** C4 (idempotence).  Each extension applied twice gives what it gives
    applied once, and so does the pair of them, in the order the definitions
    use. *)
Theorem extensions_idempotent columns (contrast : contrast_set) :
  let eff := _append_effects_interest_contrast columns in
  let der := _append_derivative_contrast columns in
  eff (eff contrast) = eff contrast
  ∧ der (der contrast) = der contrast
  ∧ eff (eff (der (der contrast))) = eff (der contrast)
  ∧ eff (der (eff (der contrast))) = eff (der contrast).
Proof.
  intros eff der. subst eff der.
  rewrite !append_effects_interest_unfold, !append_derivative_unfold.
  destruct (decide (effects_interest_rows columns = []));
    destruct (decide (derivative_rows columns = []));
    rewrite ?insert_insert_eq; try done.
  split; [done |]. split; [done |]. split; [done |].
  rewrite (insert_insert_ne _ "derivatives" "effects_interest") by done.
  by rewrite !insert_insert_eq.
Qed.

(** C10 (a column named exactly '_derivative').  The suffix is examined only
    on names longer than 11 characters; the basis vector of such a column
    is no row of the derivative matrix and is a row of the
    effects-of-interest matrix, which the extension therefore records. *)
Theorem bare_derivative_column columns (contrast : contrast_set) i :
  columns !! i = Some "_derivative" →
  let n := length columns in
  (∀ name, derivative_test name = true → 11 < String.length name)
  ∧ (eye n i ∉ derivative_rows columns)
  ∧ eye n i ∈ effects_interest_rows columns
  ∧ _append_derivative_contrast columns contrast !! "derivatives"
    = (if decide (derivative_rows columns = []) then contrast !! "derivatives"
       else Some (VMat (derivative_rows columns)))
  ∧ _append_effects_interest_contrast columns contrast !! "effects_interest"
    = Some (VMat (effects_interest_rows columns)).
Proof.
  intros Hi n. pose proof (lookup_lt_Some _ _ _ Hi) as Hlt. fold n in Hlt.
  assert (eye n i ∈ effects_interest_rows columns) as Hin.
  { rewrite effects_interest_rows_indices. fold n.
    apply eye_elem_of_fmap; [done |].
    apply elem_of_indices_where. split; [lia |].
    exists "_derivative". by rewrite Nat.sub_0_r. }
  split; [apply derivative_test_length |]. split; [| split; [done |]].
  - rewrite derivative_rows_indices. fold n.
    rewrite eye_elem_of_fmap by done.
    intros (_ & c & Hc & Hp)%elem_of_indices_where.
    rewrite Nat.sub_0_r in Hc. by simplify_eq.
  - split.
    + rewrite append_derivative_unfold. case_decide; [done |].
      by rewrite lookup_insert_eq.
    + rewrite append_effects_interest_unfold. case_decide as Hnil.
      * rewrite Hnil in Hin. by apply elem_of_nil in Hin.
      * by rewrite lookup_insert_eq.
Qed.

Lemma bare_derivative_column_witness :
  let columns := ["go"; "_derivative"; "go_derivative"] in
  (eye 3 1 ∉ derivative_rows columns)
  ∧ eye 3 1 ∈ effects_interest_rows columns
  ∧ _append_derivative_contrast columns ∅ !! "derivatives"
    = Some (VMat [eye 3 2])
  ∧ _append_effects_interest_contrast columns ∅ !! "effects_interest"
    = Some (VMat [eye 3 0; eye 3 1]).
Proof.
  intros columns.
  destruct (bare_derivative_column columns ∅ 1 eq_refl)
    as (_ & Hder & Heff & Hd & He).
  split; [exact Hder |]. split; [exact Heff |]. split; [exact Hd | exact He].
Defined.

(** ** The dispatcher *)

(** C5 (identifier families).  The three wedge identifiers all give the
    output of [wedge], the three ring identifiers that of [ring], on every
    input. *)
Theorem wedge_and_ring_families (columns : option (list string)) :
  (make_contrasts "wedge" columns = wedge columns
   ∧ make_contrasts "wedge_anti" columns = wedge columns
   ∧ make_contrasts "wedge_clock" columns = wedge columns)
  ∧ (make_contrasts "ring" columns = ring columns
     ∧ make_contrasts "cont_ring" columns = ring columns
     ∧ make_contrasts "exp_ring" columns = ring columns).
Proof. repeat split; reflexivity. Qed.

Ltac known_id H :=
  exfalso; apply H; apply (bool_decide_unpack _); vm_compute; exact I.

Ltac skip_exact_id H :=
  match goal with
  | |- context [String.eqb ?s ?t] =>
      destruct (String.eqb_spec s t) as [-> | _]; [H |]
  end.

Lemma make_contrasts_unknown paradigm_id columns :
  paradigm_id ∉ Spec.paradigm_ids →
  Py.take 10 paradigm_id ≠ "preference" →
  make_contrasts paradigm_id columns
  = Raise (ValueError (paradigm_id +:+ " Unknown paradigm")).
Proof.
  intros Hid Hpref. unfold make_contrasts.
  do 13 skip_exact_id ltac:(known_id Hid).
  do 2 (case_bool_decide as Hfam;
        [rewrite !elem_of_cons in Hfam;
         destruct Hfam as [-> | [-> | [-> | ?%elem_of_nil]]];
         [known_id Hid .. | done] | clear Hfam]).
  destruct (String.eqb_spec (Py.take 10 paradigm_id) "preference"); [done |].
  repeat skip_exact_id ltac:(known_id Hid).
  reflexivity.
Qed.

Lemma make_contrasts_bad_domain paradigm_id columns c :
  Py.take 10 paradigm_id = "preference" →
  Py.last_char (Py.drop 11 paradigm_id) = Ok c →
  (if Ascii.eqb c "s" then Py.drop_last (Py.drop 11 paradigm_id)
   else Py.drop 11 paradigm_id) ∉ ["painting"; "house"; "face"; "food"] →
  make_contrasts paradigm_id columns = Raise (ValueError "Not a correct domain").
Proof.
  intros Hpref Hc Hdom. unfold make_contrasts.
  do 13 skip_exact_id ltac:(by vm_compute in Hpref).
  do 2 (case_bool_decide as Hfam;
        [rewrite !elem_of_cons in Hfam;
         destruct Hfam as [-> | [-> | [-> | ?%elem_of_nil]]];
         [by vm_compute in Hpref .. | done] | clear Hfam]).
  rewrite Hpref, Hc. simpl. unfold preferences.
  by rewrite bool_decide_eq_true_2.
Qed.

(** C6 (unrecognized identifiers, amended).  An identifier that is none of
    the dispatcher's names and does not start with 'preference' raises the
    [ValueError] that names it.  An identifier that starts with
    'preference' and whose domain, once a final 's' is dropped, is not one
    of the four domains raises the [ValueError] of [preferences], which does
    not name it. *)
Theorem unrecognized_paradigm paradigm_id columns :
  (paradigm_id ∉ Spec.paradigm_ids →
   Py.take 10 paradigm_id ≠ "preference" →
   make_contrasts paradigm_id columns
   = Raise (ValueError (paradigm_id +:+ " Unknown paradigm")))
  ∧ (∀ c, Py.take 10 paradigm_id = "preference" →
          Py.last_char (Py.drop 11 paradigm_id) = Ok c →
          (if Ascii.eqb c "s" then Py.drop_last (Py.drop 11 paradigm_id)
           else Py.drop 11 paradigm_id) ∉ ["painting"; "house"; "face"; "food"] →
          make_contrasts paradigm_id columns
          = Raise (ValueError "Not a correct domain")).
Proof.
  split; [apply make_contrasts_unknown | intros c; apply make_contrasts_bad_domain].
Qed.

Lemma unrecognized_paradigm_witness :
  (∀ columns, make_contrasts "retino" columns
              = Raise (ValueError "retino Unknown paradigm"))
  ∧ (∀ columns, make_contrasts "preference_cars" columns
                = Raise (ValueError "Not a correct domain")).
Proof.
  split; intros columns.
  - apply (proj1 (unrecognized_paradigm "retino" columns)).
    + apply (bool_decide_eq_false_1 ("retino" ∈ Spec.paradigm_ids)). reflexivity.
    + discriminate.
  - apply (proj2 (unrecognized_paradigm "preference_cars" columns) "s"%char).
    + reflexivity.
    + reflexivity.
    + apply (bool_decide_eq_false_1
               ("car" ∈ ["painting"; "house"; "face"; "food"])). reflexivity.
Defined.

(** C6, as stated, fails on 'preference_cars': the dispatcher returns a
    contrast set for it on no input, and the error it raises is not the one
    that names the identifier. *)
Lemma preference_domain_counterexample :
  (∀ columns m, make_contrasts "preference_cars" columns ≠ Ok m)
  ∧ (∀ columns, make_contrasts "preference_cars" columns
                = Raise (ValueError "Not a correct domain"))
  ∧ "Not a correct domain" ≠ "preference_cars" +:+ " Unknown paradigm".
Proof.
  assert (∀ columns, make_contrasts "preference_cars" columns
                     = Raise (ValueError "Not a correct domain")) as H.
  { intros columns. reflexivity. }
  split; [| split; [exact H | discriminate]].
  intros columns m. rewrite H. discriminate.
Qed.

(** ** Results of binds *)

Lemma is_Ok_true {A} (r : result A) : is_Ok r = true → ∃ x, r = Ok x.
Proof. destruct r as [x | e]; [by exists x | done]. Qed.

Lemma bind_Ok {A B} (r : result A) (k : A → result B) (y : B) :
  r ≫= k = Ok y → ∃ x, r = Ok x ∧ k x = Ok y.
Proof. destruct r as [x | e]; [by exists x | done]. Qed.

Ltac bind_inv H :=
  repeat
    (let x := fresh "x" in
     let Hx := fresh "Hx" in
     apply bind_Ok in H as (x & Hx & H); simpl in H).

Lemma finish_Ok columns names d m :
  finish columns names d = Ok m →
  Py.sorted (Py.keys d) = Py.sorted names
  ∧ m = _append_effects_interest_contrast columns
          (_append_derivative_contrast columns (vectors d)).
Proof.
  unfold finish, assert_names. case_bool_decide; [| done].
  simpl. intros [= <-]. done.
Qed.

Lemma two_by_two_never_returns columns m : two_by_two (Some columns) ≠ Ok m.
Proof.
  unfold two_by_two. intros H. simpl in H.
  apply bind_Ok in H as (d & Hd & H).
  apply finish_Ok in H as [Hkeys _].
  unfold Py.display in Hd. simpl in Hd. bind_inv Hd.
  injection Hd as <-. vm_compute in Hkeys. discriminate.
Qed.

(** ** Elementary contrasts *)

Lemma elementary_loop_notin n i columns (con : gmap string vec) k :
  k ∉ columns → elementary_loop n i columns con !! k = con !! k.
Proof.
  revert i con. induction columns as [|c columns IH]; intros i con Hk; simpl.
  - done.
  - apply not_elem_of_cons in Hk as [Hne Hk].
    rewrite IH by done. by rewrite lookup_insert_ne.
Qed.

Lemma elementary_loop_in n i columns (con : gmap string vec) k :
  k ∈ columns →
  ∃ j, columns !! j = Some k
       ∧ elementary_loop n i columns con !! k = Some (eye n (i + j)).
Proof.
  revert i con. induction columns as [|c columns IH]; intros i con Hk; simpl.
  - by apply elem_of_nil in Hk.
  - destruct (decide (k ∈ columns)) as [Hin | Hnotin].
    + destruct (IH (S i) (<[c:=eye n i]> con) Hin) as (j & Hj & Hl).
      exists (S j). split; [done |]. rewrite Hl. do 2 f_equal. lia.
    + apply elem_of_cons in Hk as [-> | Hk]; [| done].
      exists 0. split; [done |].
      rewrite elementary_loop_notin by done.
      rewrite lookup_insert_eq. do 2 f_equal. lia.
Qed.

Lemma elementary_contrasts_in columns k :
  k ∈ columns →
  ∃ j, columns !! j = Some k
       ∧ _elementary_contrasts columns !! k = Some (eye (length columns) j).
Proof. apply elementary_loop_in. Qed.

Lemma elementary_contrasts_notin columns k :
  k ∉ columns → _elementary_contrasts columns !! k = None.
Proof. intros Hk. unfold _elementary_contrasts. by rewrite elementary_loop_notin. Qed.

Lemma elementary_contrasts_is_Some columns k :
  is_Some (_elementary_contrasts columns !! k) ↔ k ∈ columns.
Proof.
  split.
  - intros Hs. destruct (decide (k ∈ columns)) as [| Hk]; [done |].
    rewrite elementary_contrasts_notin in Hs by done. by destruct Hs.
  - intros (j & _ & ->)%elementary_contrasts_in. by eexists.
Qed.

Lemma elementary_contrasts_NoDup columns j k :
  NoDup columns → columns !! j = Some k →
  _elementary_contrasts columns !! k = Some (eye (length columns) j).
Proof.
  intros Hnd Hj.
  destruct (elementary_contrasts_in columns k) as (j' & Hj' & ->).
  { by eapply list_elem_of_lookup_2. }
  by rewrite (NoDup_lookup _ _ _ _ Hnd Hj Hj').
Qed.

(** ** Lookups through the extensions *)

Lemma lookup_extensions columns (d : contrast_set) k :
  k ≠ "effects_interest" → k ≠ "derivatives" →
  _append_effects_interest_contrast columns
    (_append_derivative_contrast columns d) !! k = d !! k.
Proof.
  intros He Hd.
  rewrite append_effects_interest_unfold, append_derivative_unfold.
  repeat case_decide; by rewrite ?lookup_insert_ne.
Qed.

(** ** Lookups in a dict display *)

Ltac lookup_literal :=
  repeat (rewrite lookup_insert_ne by done); rewrite lookup_insert_eq.

(** ** Orthogonal-polynomial contrasts *)

Ltac qc_decide := apply (bool_decide_unpack _); vm_compute; exact I.

Lemma response_name_inj : Inj (=) (=) Spec.response_name.
Proof.
  intros k k' Heq. unfold Spec.response_name in Heq.
  apply (inj (String.app "response_num_")) in Heq. by apply (inj pretty).
Qed.

Lemma level_coefficient_later coefs k k' :
  k < k' → Spec.level_coefficient coefs k' (Spec.response_name k) = 0%Qc.
Proof.
  revert k'. induction coefs as [|x coefs IH]; intros k' Hlt;
    cbn [Spec.level_coefficient]; [reflexivity |].
  rewrite bool_decide_eq_false_2; [apply IH; lia |].
  intros ?%response_name_inj. lia.
Qed.

Lemma comprehension_Forall2 {A B} (f : A → result B) (P : A → B → Prop) l :
  (∀ x, x ∈ l → ∃ y, f x = Ok y ∧ P x y) →
  ∃ ys, Py.comprehension f l = Ok ys ∧ Forall2 P l ys.
Proof.
  induction l as [|x l IH]; intros H; simpl.
  - by exists [].
  - destruct (H x) as (y & -> & Hy); [by left |].
    destruct IH as (ys & -> & Hys); [intros; apply H; by right |].
    exists (y :: ys). simpl. split; [done | by constructor].
Qed.

Lemma response_rows_Ok columns lo hi :
  (∀ k, lo ≤ k < hi → Spec.response_name k ∈ columns) →
  ∃ response,
    response_rows (_elementary_contrasts columns) lo hi = Ok response
    ∧ Forall2 (Spec.is_response columns) (seq lo (hi - lo)) response.
Proof.
  intros H. apply comprehension_Forall2. intros k Hk%elem_of_seq.
  destruct (elementary_contrasts_in columns (Spec.response_name k))
    as (i & Hi & Hl); [apply H; lia |].
  exists (eye (length columns) i). unfold Py.getitem.
  fold (Spec.response_name k). rewrite Hl. split; [done |]. by exists i.
Qed.

Lemma np_dot_lookup columns coefs lo response j c :
  NoDup columns →
  Forall2 (Spec.is_response columns) (seq lo (length coefs)) response →
  columns !! j = Some c →
  np_dot (length columns) coefs response !! j
  = Some (Spec.level_coefficient coefs lo c).
Proof.
  intros Hnd Hresp Hj. pose proof (lookup_lt_Some _ _ _ Hj) as Hlt.
  revert lo response Hresp.
  induction coefs as [|x coefs IH]; intros lo response Hresp; simpl.
  - by apply lookup_replicate_2.
  - simpl in Hresp. apply Forall2_cons_inv_l in Hresp
      as (r & response' & (i & Hi & -> & _) & Hresp & ->).
    unfold vadd, vscale. rewrite lookup_zip_with, list_lookup_fmap.
    rewrite lookup_eye, (IH _ _ Hresp) by done. simpl. f_equal.
    case_bool_decide as Hji; case_bool_decide as Hc; subst.
    + rewrite level_coefficient_later by lia. ring.
    + congruence.
    + exfalso. apply Hji. by eapply NoDup_lookup.
    + ring.
Qed.

(** The floats that the theorems below name, by their decimal writing in
    the sources: [-0.6], [-0.19999999999999996], [0.20000000000000018],
    [0.6000000000000001], and the floats nearest to [-0.2], [0.2] and
    [0.6]. *)
Lemma to_Qc_inj_ne (x y : float) : to_Qc x ≠ to_Qc y → x ≠ y.
Proof. by intros Hne ->. Qed.

(** C8 (polynomial contrasts of the 6-level factor, amended).  On columns
    that hold response_num_1 to response_num_6, [vstm] returns; its three
    contrasts are the products of the constant, linear and quadratic
    coefficient vectors with the six elementary response vectors in level
    order.  The linear coefficients are the binary64 values that
    [np.linspace(-1, 1, 6)] computes: -1, -0.6, -0.19999999999999996,
    0.20000000000000018, 0.6000000000000001 and 1, each within 2^-52 of
    -1, -3/5, -1/5, 1/5, 3/5 and 1.  The quadratic coefficients are the
    binary64 squares of the linear ones minus their binary64 mean.  When the
    labels are unique, each contrast holds, at every column, the exact value
    of the coefficient of that column's level, and zero at the other
    columns. *)
Theorem vstm_polynomial_contrasts columns :
  (∀ k, 1 ≤ k ≤ 6 → "response_num_" +:+ pretty k ∈ columns) →
  let n := length columns in
  let constant : vec := [1; 1; 1; 1; 1; 1]%Qc in
  let linear : list float :=
    [-1; -0x1.3333333333333p-1; -0x1.9999999999998p-3;
     0x1.99999999999a0p-3; 0x1.3333333333334p-1; 1]%float in
  let quadratic : list float :=
    (λ x, (x - vmean (vsquare linear))%float) <$> vsquare linear in
  ∃ (m : contrast_set) (response : list vec),
    vstm (Some columns) = Ok m
    ∧ Forall2 (Spec.is_response columns) (seq 1 6) response
    ∧ m !! "vstm_constant" = Some (VVec (np_dot n constant response))
    ∧ m !! "vstm_linear"
      = Some (VVec (np_dot n (to_Qc <$> linear) response))
    ∧ m !! "vstm_quadratic"
      = Some (VVec (np_dot n (to_Qc <$> quadratic) response))
    ∧ np_linspace (-1) 1 6 = linear
    ∧ to_Qc <$> linear
      = [-1; Q2Qc (-5404319552844595 # 9007199254740992);
         Q2Qc (-900719925474099 # 4503599627370496);
         Q2Qc (225179981368525 # 1125899906842624);
         Q2Qc (1351079888211149 # 2251799813685248); 1]%Qc
    ∧ Forall2
        (λ x d : Qc, d - Q2Qc (1 # 4503599627370496) ≤ x
                     ≤ d + Q2Qc (1 # 4503599627370496))%Qc
        (to_Qc <$> linear)
        [-1; Q2Qc (-3 # 5); Q2Qc (-1 # 5); Q2Qc (1 # 5); Q2Qc (3 # 5); 1]%Qc
    ∧ vsquare linear
      = [1; 0x1.70a3d70a3d70ap-2; 0x1.47ae147ae1478p-5;
         0x1.47ae147ae1485p-5; 0x1.70a3d70a3d70cp-2; 1]%float
    ∧ quadratic
      = [0x1.1111111111112p-1; -0x1.b4e81b4e81b4cp-4;
         -0x1.b4e81b4e81b4ep-2; -0x1.b4e81b4e81b4cp-2;
         -0x1.b4e81b4e81b44p-4; 0x1.1111111111112p-1]%float
    ∧ (NoDup columns → ∀ j c, columns !! j = Some c →
       np_dot n constant response !! j
       = Some (Spec.level_coefficient constant 1 c)
       ∧ np_dot n (to_Qc <$> linear) response !! j
         = Some (Spec.level_coefficient (to_Qc <$> linear) 1 c)
       ∧ np_dot n (to_Qc <$> quadratic) response !! j
         = Some (Spec.level_coefficient (to_Qc <$> quadratic) 1 c)).
Proof.
  intros H n constant linear quadratic.
  destruct (response_rows_Ok columns 1 7) as (response & Hr & Hresp).
  { intros k Hk. apply H. lia. }
  assert (np_ones 6 = constant) as Hc by reflexivity.
  assert (np_linspace (-1) 1 6 = linear) as Hl by (vm_compute; reflexivity).
  exists (_append_effects_interest_contrast columns
            (_append_derivative_contrast columns
               (vectors
                  (<["vstm_quadratic"
                     := np_dot n (to_Qc <$> quadratic) response]>
                     (<["vstm_linear"
                        := np_dot n (to_Qc <$> linear) response]>
                        (<["vstm_constant"
                           := np_dot n constant response]> ∅)))))), response.
  split; [| split; [done |]].
  - unfold vstm. cbv zeta. rewrite Hc, Hl, Hr. fold n quadratic.
    clearbody constant linear quadratic n. simpl.
    unfold finish, assert_names.
    rewrite bool_decide_eq_true_2; [done |]. by vm_compute.
  - rewrite !lookup_extensions by done. unfold vectors. rewrite !lookup_fmap.
    split; [by lookup_literal |]. split; [by lookup_literal |].
    split; [by lookup_literal |]. split; [done |].
    split; [qc_decide |]. split; [qc_decide |].
    split; [vm_compute; reflexivity |]. split; [vm_compute; reflexivity |].
    intros Hnd j c Hj.
    rewrite !(np_dot_lookup columns _ 1 response j c); try done.
Qed.

Lemma vstm_polynomial_contrasts_witness :
  let columns :=
    ["response_num_1"; "response_num_2"; "response_num_3";
     "response_num_4"; "response_num_5"; "response_num_6"; "constant"] in
  ∃ (m : contrast_set) (v : vec),
    vstm (Some columns) = Ok m
    ∧ m !! "vstm_linear" = Some (VVec v)
    ∧ v !! 1 = Some (Q2Qc (-5404319552844595 # 9007199254740992))
    ∧ v !! 6 = Some 0%Qc.
Proof.
  intros columns.
  assert (∀ k, 1 ≤ k ≤ 6 → "response_num_" +:+ pretty k ∈ columns) as H.
  { intros k Hk.
    destruct k as [|[|[|[|[|[|[|k]]]]]]]; try lia;
      apply (bool_decide_unpack _); vm_compute; exact I. }
  destruct (vstm_polynomial_contrasts columns H)
    as (m & response & Hm & _ & _ & Hl & _ & _ & _ & _ & _ & _ & Hpt).
  assert (NoDup columns) as Hnd by (apply (bool_decide_unpack _); vm_compute; exact I).
  eexists m, _. split; [exact Hm |]. split; [exact Hl |]. split.
  - destruct (Hpt Hnd 1 "response_num_2" eq_refl) as (_ & -> & _).
    reflexivity.
  - destruct (Hpt Hnd 6 "constant" eq_refl) as (_ & -> & _).
    reflexivity.
Defined.

(** C8, as stated, fails at the third level: the coefficient that the code
    computes there is 0.8 - 1 in binary64, which is
    -0.19999999999999996; it is not the float nearest to -0.2, its exact
    value is not -1/5, and the linear contrast holds it at the column of
    response_num_3. *)
Lemma vstm_linear_counterexample :
  np_linspace (-1) 1 6 !! 2 = Some (-0x1.9999999999998p-3)%float
  ∧ (-0x1.9999999999998p-3)%float ≠ (-0x1.999999999999ap-3)%float
  ∧ to_Qc (-0x1.9999999999998p-3)
    = Q2Qc (-900719925474099 # 4503599627370496)
  ∧ to_Qc (-0x1.9999999999998p-3) ≠ Q2Qc (-1 # 5)
  ∧ ∃ (m : contrast_set) (v : vec),
      vstm (Some ["response_num_1"; "response_num_2"; "response_num_3";
                  "response_num_4"; "response_num_5"; "response_num_6"])
      = Ok m
      ∧ m !! "vstm_linear" = Some (VVec v)
      ∧ v !! 2 = Some (Q2Qc (-900719925474099 # 4503599627370496))
      ∧ v !! 2 ≠ Some (Q2Qc (-1 # 5)).
Proof.
  split; [vm_compute; reflexivity |].
  split; [apply to_Qc_inj_ne; apply (bool_decide_eq_false_1 _);
          vm_compute; reflexivity |].
  split; [qc_decide |].
  split; [apply (bool_decide_eq_false_1 _); vm_compute; reflexivity |].
  destruct (is_Ok_true
              (vstm (Some ["response_num_1"; "response_num_2";
                           "response_num_3"; "response_num_4";
                           "response_num_5"; "response_num_6"])))
    as [m Hm]; [vm_compute; reflexivity |].
  assert (vstm (Some ["response_num_1"; "response_num_2"; "response_num_3";
                      "response_num_4"; "response_num_5"; "response_num_6"])
            ≫= (λ m, Ok (m !! "vstm_linear"))
          = Ok (Some (VVec
              [-1; Q2Qc (-5404319552844595 # 9007199254740992);
               Q2Qc (-900719925474099 # 4503599627370496);
               Q2Qc (225179981368525 # 1125899906842624);
               Q2Qc (1351079888211149 # 2251799813685248); 1]%Qc))) as Hv
    by (vm_compute; reflexivity).
  rewrite Hm in Hv. cbn [mbind result_bind] in Hv. injection Hv as Hv.
  eexists m, _. split; [exact Hm |]. split; [exact Hv |].
  split; [reflexivity |].
  cbn [lookup list_lookup]. by intros [= Heq].
Qed.

(** ** The floor on the group-level maps *)

Lemma math_img_floor_keep (m : GlobalStat.img) :
  GlobalStat.math_img_floor m
  = (λ x, if decide (GlobalStat.threshold < x)%Qc then x else 0%Qc) <$> m.
Proof.
  unfold GlobalStat.math_img_floor, GlobalStat.above.
  apply list_fmap_ext. intros _ x _.
  case_bool_decide; case_decide; try done; ring.
Qed.

(** C9 (floor on the group-level maps, amended).  Each of the three maps
    keeps a voxel value above -8.2095 and turns any other into zero; every
    resulting value is above -8.2095. *)
Theorem anova_maps_zero_below (subject_map contrast_map acq_map : GlobalStat.img) :
  let keep := λ x, if decide (GlobalStat.threshold < x)%Qc then x else 0%Qc in
  GlobalStat.anova_maps subject_map contrast_map acq_map
  = (keep <$> subject_map, keep <$> contrast_map, keep <$> acq_map)
  ∧ ∀ x, (GlobalStat.threshold < keep x)%Qc.
Proof.
  intros keep. split.
  - unfold GlobalStat.anova_maps. by rewrite !math_img_floor_keep.
  - intros x. unfold keep. case_decide; [done |]. reflexivity.
Qed.

(** C9, as stated, fails at a voxel of value -9: a floor at -8.2095 would
    give -8.2095, the code gives 0. *)
Lemma floor_zeroes_counterexample :
  let x := qc (-9) in
  GlobalStat.math_img_floor [x] = [0%Qc]
  ∧ Spec.clip_floor GlobalStat.threshold x = GlobalStat.threshold
  ∧ GlobalStat.math_img_floor [x]
    ≠ [Spec.clip_floor GlobalStat.threshold x].
Proof.
  intros x. split; [qc_decide |]. split; [qc_decide |].
  apply (bool_decide_eq_false_1 _). reflexivity.
Qed.

(** ** Definitions whose names differ from their declaration *)

Lemma stroop_never_returns columns m : stroop (Some columns) ≠ Ok m.
Proof.
  unfold stroop. intros H. simpl in H.
  apply bind_Ok in H as (d & Hd & H).
  apply finish_Ok in H as [Hkeys _].
  unfold Py.display in Hd. simpl in Hd. bind_inv Hd.
  injection Hd as <-. vm_compute in Hkeys. discriminate.
Qed.

Lemma lyon_mcse_never_returns columns m : lyon_mcse (Some columns) ≠ Ok m.
Proof.
  unfold lyon_mcse. intros H. simpl in H.
  apply bind_Ok in H as (d & Hd & H).
  apply finish_Ok in H as [Hkeys _].
  unfold Py.display in Hd. simpl in Hd. bind_inv Hd.
  injection Hd as <-. vm_compute in Hkeys. discriminate.
Qed.

(** C1 (declared names).  The claim asks that the names a definition returns
    be exactly its declared list.  Three definitions cannot meet their own
    assertion: [two_by_two] builds 'cue_switch' where 'task_repetition' is
    declared, [stroop] never builds 'congruent-incongruent', and [lyon_mcse]
    builds two names that are not declared.  Whatever the columns, none of
    them returns a contrast set; on columns holding every regressor they
    read, the dispatcher raises [AssertionError]. *)
Theorem declared_names_not_produced :
  (∀ columns m, two_by_two (Some columns) ≠ Ok m)
  ∧ make_contrasts "two_by_two"
      (Some ["taskstay_cuestay"; "taskswitch_cueswitch";
             "taskswitch_cuestay"; "taskstay_cueswitch"])
    = Raise AssertionError
  ∧ (∀ columns m, stroop (Some columns) ≠ Ok m)
  ∧ make_contrasts "stroop" (Some ["congruent"; "incongruent"])
    = Raise AssertionError
  ∧ (∀ columns m, lyon_mcse (Some columns) ≠ Ok m)
  ∧ make_contrasts "lyon_mcse"
      (Some ["hi_salience_left"; "hi_salience_right";
             "low_salience_left"; "low_salience_right"])
    = Raise AssertionError.
Proof.
  split; [apply two_by_two_never_returns |]. split; [by vm_compute |].
  split; [apply stroop_never_returns |]. split; [by vm_compute |].
  split; [apply lyon_mcse_never_returns | by vm_compute].
Qed.

(** ** The string entry of the MTT definitions *)

Lemma lookup_effects_interest_ne columns (d : contrast_set) k :
  k ≠ "effects_interest" →
  _append_effects_interest_contrast columns d !! k = d !! k.
Proof.
  intros Hk. rewrite append_effects_interest_unfold.
  case_decide; by rewrite ?lookup_insert_ne.
Qed.

Lemma mtt_we_relative_response columns m :
  mtt_we_relative (Some columns) = Ok m →
  m !! "we_all_event_response" = Some (VStr "we_all_event_response").
Proof.
  unfold mtt_we_relative. intros H. simpl in H. bind_inv H.
  injection H as <-.
  rewrite lookup_effects_interest_ne by done. by rewrite lookup_insert_eq.
Qed.

Lemma mtt_sn_relative_response columns m :
  mtt_sn_relative (Some columns) = Ok m →
  m !! "sn_all_event_response" = Some (VStr "sn_all_event_response").
Proof.
  unfold mtt_sn_relative. intros H. simpl in H. bind_inv H.
  injection H as <-.
  rewrite lookup_effects_interest_ne by done. by rewrite lookup_insert_eq.
Qed.

(** C2 (kinds of values).  Whenever the west-east or the south-north MTT
    definition returns, its entry for the event response is the string
    literal itself, so the returned mapping is not made of vectors and
    matrices only; and the west-east definition does return on the columns
    it reads. *)
Theorem mtt_event_response_is_a_string :
  (∀ columns m,
      make_contrasts "MTTWE" (Some columns) = Ok m →
      m !! "we_all_event_response" = Some (VStr "we_all_event_response")
      ∧ ¬ map_Forall (λ _ v, Spec.numeric (length columns) v) m)
  ∧ (∀ columns m,
        make_contrasts "MTTNS" (Some columns) = Ok m →
        m !! "sn_all_event_response" = Some (VStr "sn_all_event_response")
        ∧ ¬ map_Forall (λ _ v, Spec.numeric (length columns) v) m)
  ∧ ∃ m, make_contrasts "MTTWE"
           (Some ["we_all_reference"; "we_all_space_cue"; "we_all_time_cue";
                  "we_westside_close_event"; "we_westside_far_event";
                  "we_eastside_close_event"; "we_eastside_far_event";
                  "we_before_close_event"; "we_before_far_event";
                  "we_after_close_event"; "we_after_far_event"]) = Ok m.
Proof.
  split; [| split].
  - intros columns m H%mtt_we_relative_response. split; [done |].
    intros Hall. by apply Hall in H.
  - intros columns m H%mtt_sn_relative_response. split; [done |].
    intros Hall. by apply Hall in H.
  - apply is_Ok_true. vm_compute. reflexivity.
Qed.

(** * Properties of all paradigms *)

(** ** Names of the returned mapping *)

Lemma dom_keys {A} (d : gmap string A) : dom d = list_to_set (Py.keys d).
Proof.
  apply set_eq. intros k. rewrite elem_of_dom, elem_of_list_to_set.
  unfold Py.keys. rewrite list_elem_of_fmap. split.
  - intros [v Hv]. exists (k, v). split; [done |]. by apply elem_of_map_to_list.
  - intros ([k' v] & -> & Hkv%elem_of_map_to_list). by exists v.
Qed.

Lemma sorted_permutation l : Py.sorted l ≡ₚ l.
Proof. apply merge_sort_Permutation. Qed.

Lemma difference_insert_reserved k (X : gset string) :
  k ∈ reserved → ({[k]} ∪ X) ∖ reserved = X ∖ reserved.
Proof.
  intros Hk. apply set_eq. intros x.
  rewrite !elem_of_difference, elem_of_union, elem_of_singleton. split.
  - intros [[-> | Hx] Hn]; done.
  - intros [Hx Hn]. split; [by right | done].
Qed.

Lemma dom_extensions columns (d : contrast_set) :
  dom (_append_effects_interest_contrast columns
         (_append_derivative_contrast columns d)) ∖ reserved
  = dom d ∖ reserved.
Proof.
  rewrite append_effects_interest_unfold, append_derivative_unfold.
  repeat case_decide; rewrite ?dom_insert_L;
    rewrite ?difference_insert_reserved; try done;
    apply (bool_decide_unpack _); vm_compute; exact I.
Qed.

Lemma finish_names columns names d m :
  finish columns names d = Ok m →
  dom m ∖ reserved = list_to_set names ∖ reserved.
Proof.
  intros [Hkeys ->]%finish_Ok. rewrite dom_extensions. unfold vectors.
  rewrite dom_fmap_L, dom_keys. f_equal.
  apply set_eq. intros k. rewrite !elem_of_list_to_set.
  by rewrite <- (sorted_permutation (Py.keys d)), Hkeys, sorted_permutation.
Qed.

(** ** Lengths of the returned vectors *)

Section sized.
Variable n : nat.

Lemma rsized_Ok v : length v = n → rsized n (Ok v).
Proof. intros Hv v' [= <-]. done. Qed.

Lemma rsized_getitem d k : sized n d → rsized n d.[k].
Proof.
  intros Hd v. unfold Py.getitem.
  destruct (d !! k) as [u |] eqn:Hk; [| done]. intros [= <-]. by eapply Hd.
Qed.

Lemma rsized_bin (f : Qc → Qc → Qc) (a b : result vec) :
  rsized n a → rsized n b →
  rsized n (a ≫= λ u : vec, b ≫= λ v : vec, Ok (zip_with f u v)).
Proof.
  intros Ha Hb w. destruct a as [u |]; [| done]. destruct b as [v |]; [| done].
  simpl. intros [= <-]. rewrite length_zip_with, (Ha u), (Hb v) by done. lia.
Qed.

Lemma rsized_add a b : rsized n a → rsized n b → rsized n (a ⊕ b).
Proof. apply rsized_bin. Qed.

Lemma rsized_sub a b : rsized n a → rsized n b → rsized n (a ⊖ b).
Proof. apply rsized_bin. Qed.

Lemma rsized_un (f : Qc → Qc) (a : result vec) :
  rsized n a → rsized n (a ≫= λ u : vec, Ok (f <$> u)).
Proof.
  intros Ha w. destruct a as [u |]; [| done]. simpl. intros [= <-].
  rewrite length_fmap. by apply Ha.
Qed.

Lemma rsized_neg a : rsized n a → rsized n (⊖ a).
Proof. apply rsized_un. Qed.

Lemma rsized_scale c a : rsized n a → rsized n (c ⊛ a).
Proof. apply rsized_un. Qed.

Lemma rsized_div a c : rsized n a → rsized n (a ⊘ c).
Proof. apply (rsized_un (λ x, (x / c)%Qc)). Qed.

Lemma rsized_except a h :
  rsized n a → rsized n h → rsized n (except_KeyError a h).
Proof. intros Ha Hh. by destruct a as [|[]]. Qed.

Lemma rsized_if (b : bool) a a' :
  rsized n a → rsized n a' → rsized n (if b then a else a').
Proof. by destruct b. Qed.

Lemma sized_empty : sized n ∅.
Proof. apply map_Forall_empty. Qed.

Lemma sized_insert d k v : sized n d → length v = n → sized n (<[k := v]> d).
Proof. intros Hd Hv. by apply map_Forall_insert_2. Qed.

Lemma sized_setitem d k r d' :
  sized n d → rsized n r → Py.setitem d k r = Ok d' → sized n d'.
Proof.
  intros Hd Hr. unfold Py.setitem. destruct r as [v |]; [| done].
  simpl. intros [= <-]. apply sized_insert; [done | by apply Hr].
Qed.

Lemma sized_display_from d l d' :
  sized n d → Forall (λ kr, rsized n kr.2) l →
  Py.display_from d l = Ok d' → sized n d'.
Proof.
  revert d. induction l as [|[k r] l IH]; intros d Hd Hl; simpl.
  - by intros [= <-].
  - apply Forall_cons in Hl as [Hr Hl]. destruct r as [v |]; [| done].
    simpl. apply IH; [| done]. apply sized_insert; [done | by apply Hr].
Qed.

Lemma sized_display l d :
  Forall (λ kr, rsized n kr.2) l → Py.display l = Ok d → sized n d.
Proof. apply sized_display_from, sized_empty. Qed.

Lemma sized_dict_foldl (l : list (string * vec)) d :
  sized n d → Forall (λ kv, length kv.2 = n) l →
  sized n (foldl (λ d kv, <[kv.1 := kv.2]> d) d l).
Proof.
  revert d. induction l as [|[k v] l IH]; intros d Hd Hl; simpl; [done |].
  apply Forall_cons in Hl as [Hv Hl]. apply IH; [| done].
  by apply sized_insert.
Qed.

Lemma sized_comprehension con (f : string → string) names kvs :
  sized n con →
  Py.comprehension (λ name, v ← con.[f name]; Ok (name, v)) names = Ok kvs →
  Forall (λ kv : string * vec, length kv.2 = n) kvs.
Proof.
  intros Hcon. revert kvs. induction names as [|name names IH]; intros kvs; simpl.
  - by intros [= <-].
  - pose proof (rsized_getitem con (f name) Hcon) as Hv.
    destruct (con.[f name]) as [v |]; [| done]. simpl.
    destruct (Py.comprehension _ names) as [kvs' |]; [| done]. simpl.
    intros [= <-]. constructor; [by apply Hv | by apply IH].
Qed.

Lemma sized_select con names d :
  sized n con → select con names = Ok d → sized n d.
Proof.
  intros Hcon. unfold select.
  destruct (Py.comprehension _ names) as [kvs |] eqn:Hk; [| done].
  simpl. intros [= <-].
  apply sized_dict_foldl; [apply sized_empty |].
  by apply (sized_comprehension con id names).
Qed.

Lemma sized_minus_base_loop con suffix base names d d' :
  sized n con → sized n d →
  minus_base_loop con suffix base names d = Ok d' → sized n d'.
Proof.
  intros Hcon. revert d. induction names as [|name names IH]; intros d Hd; simpl.
  - by intros [= <-].
  - intros (d1 & H1 & H)%bind_Ok. apply (IH d1); [| done].
    eapply sized_setitem; [done | | done].
    apply rsized_sub; by apply rsized_getitem.
Qed.

Lemma length_np_dot c (m : list vec) :
  Forall (λ r, length r = n) m → length (np_dot n c m) = n.
Proof.
  revert m. induction c as [|x c IH]; intros m Hm; simpl.
  - apply length_replicate.
  - destruct m as [|r m]; [apply length_replicate |].
    apply Forall_cons in Hm as [Hr Hm]. unfold vadd, vscale.
    rewrite length_zip_with, length_fmap, Hr, IH by done. lia.
Qed.

Lemma sized_response_rows con lo hi rows :
  sized n con → response_rows con lo hi = Ok rows →
  Forall (λ r, length r = n) rows.
Proof.
  intros Hcon. unfold response_rows. generalize (seq lo (hi - lo)).
  intros l. revert rows. induction l as [|i l IH]; intros rows; simpl.
  - by intros [= <-].
  - pose proof (rsized_getitem con ("response_num_" +:+ pretty i) Hcon) as Hv.
    destruct (con.[_]) as [v |]; [| done]. simpl.
    destruct (Py.comprehension _ l) as [rows' |]; [| done]. simpl.
    intros [= <-]. constructor; [by apply Hv | by apply IH].
Qed.

End sized.

Lemma sized_elementary_loop n i columns con :
  sized n con → sized n (elementary_loop n i columns con).
Proof.
  revert i con. induction columns as [|c columns IH]; intros i con Hcon; simpl.
  - done.
  - apply IH, sized_insert; [done | apply length_eye].
Qed.

Lemma sized_elementary columns :
  sized (length columns) (_elementary_contrasts columns).
Proof. apply sized_elementary_loop, sized_empty. Qed.

Lemma sized_lower_loop n i columns con :
  sized n con → sized n (lower_loop n i columns con).
Proof.
  revert i con. induction columns as [|c columns IH]; intros i con Hcon; simpl.
  - done.
  - apply IH, sized_insert; [done | apply length_eye].
Qed.

Lemma sized_lower columns : sized (length columns) (lower_contrasts columns).
Proof. apply sized_lower_loop, sized_empty. Qed.

Lemma sized_beta columns : sized (length columns) (_beta_contrasts columns).
Proof.
  unfold _beta_contrasts. intros k v Hk.
  apply map_lookup_filter_Some in Hk as [Hk _].
  by eapply sized_elementary.
Qed.

Lemma numeric_vectors n d : sized n d → numeric_set n (vectors d).
Proof.
  intros Hd k v. unfold vectors. rewrite lookup_fmap.
  destruct (d !! k) as [u |] eqn:Hk; [| done]. intros [= <-]. by eapply Hd.
Qed.

Lemma numeric_effects_interest columns m :
  numeric_set (length columns) m →
  numeric_set (length columns) (_append_effects_interest_contrast columns m).
Proof.
  intros Hm. rewrite append_effects_interest_unfold. case_decide; [done |].
  apply map_Forall_insert_2; [| done]. simpl.
  rewrite effects_interest_rows_indices. apply Forall_fmap, Forall_forall.
  intros i _. apply length_eye.
Qed.

Lemma numeric_derivative columns m :
  numeric_set (length columns) m →
  numeric_set (length columns) (_append_derivative_contrast columns m).
Proof.
  intros Hm. rewrite append_derivative_unfold. case_decide; [done |].
  apply map_Forall_insert_2; [| done]. simpl.
  rewrite derivative_rows_indices. apply Forall_fmap, Forall_forall.
  intros i _. apply length_eye.
Qed.

Lemma numeric_finish columns names d m :
  sized (length columns) d → finish columns names d = Ok m →
  numeric_set (length columns) m.
Proof.
  intros Hd [_ ->]%finish_Ok.
  by apply numeric_effects_interest, numeric_derivative, numeric_vectors.
Qed.

Lemma sized_dict n (kvs : list (string * vec)) :
  Forall (λ kv, length kv.2 = n) kvs → sized n (Py.dict kvs).
Proof. intros Hk. by apply sized_dict_foldl; [apply sized_empty |]. Qed.

Ltac solve_rsized' :=
  repeat first
    [ eassumption
    | apply rsized_add | apply rsized_sub | apply rsized_neg
    | apply rsized_scale | apply rsized_div
    | apply rsized_except | apply rsized_if
    | apply rsized_getitem; eassumption
    | apply rsized_Ok; first [eassumption | apply length_np_dot; eassumption] ].

Ltac solve_entries' :=
  repeat (apply Forall_cons; split; [cbn [snd]; solve_rsized' |]);
  apply Forall_nil_2.

Ltac sized_step' columns H :=
  lazymatch type of H with
  | finish _ _ _ = _ => fail
  | Ok _ = _ => fail
  | _ =>
      let x := fresh "x" in
      let Hx := fresh "Hx" in
      apply bind_Ok in H as (x & Hx & H); cbv beta in H;
      first
        [ eapply sized_select in Hx; [| eassumption]
        | eapply sized_setitem in Hx; [| eassumption | solve_rsized']
        | eapply sized_display in Hx; [| solve_entries']
        | eapply sized_minus_base_loop in Hx; [| eassumption | eassumption]
        | eapply sized_response_rows in Hx; [| eassumption]
        | eapply sized_comprehension in Hx; [| eassumption];
          apply sized_dict in Hx
        | let Hr := fresh "Hr" in
          lazymatch type of Hx with
          | ?r = Ok _ =>
              assert (rsized (length columns) r) as Hr by solve_rsized';
              apply Hr in Hx
          end ]
  end.

Ltac numeric_body columns H :=
  cbv beta iota zeta in H;
  pose proof (sized_elementary columns);
  pose proof (sized_lower columns);
  repeat sized_step' columns H;
  lazymatch type of H with
  | finish _ _ _ = _ => eapply numeric_finish; [| exact H]; assumption
  | Ok (vectors _) = _ => injection H as <-; by apply numeric_vectors
  | Ok ∅ = _ => injection H as <-; apply map_Forall_empty
  end.

Ltac numeric_branch columns H :=
  lazymatch type of H with
  | Raise _ = _ => discriminate H
  | Ok ∅ = _ => injection H as <-; apply map_Forall_empty
  | ?P (Some _) = _ => unfold P in H; numeric_body columns H
  end.

(** X1 (kinds of values).  Apart from the two MTT definitions, whenever
    [make_contrasts] returns on a column sequence, every value of the
    returned mapping is a vector as long as the column sequence or a matrix
    of such rows: no empty list and no string. *)
Theorem returned_values_numeric paradigm_id columns m :
  paradigm_id ≠ "MTTWE" → paradigm_id ≠ "MTTNS" →
  make_contrasts paradigm_id (Some columns) = Ok m →
  numeric_set (length columns) m.
Proof.
  intros Hwe Hsn H. unfold make_contrasts in H.
  repeat
    match type of H with
    | context [String.eqb (Py.take 10 paradigm_id) ?t] =>
        destruct (String.eqb (Py.take 10 paradigm_id) t);
        [ apply bind_Ok in H as (c & _ & H); cbv beta zeta in H;
          unfold preferences in H; case_bool_decide; [discriminate H |];
          numeric_body columns H |]
    | context [bool_decide ?P] =>
        destruct (bool_decide P); [numeric_branch columns H |]
    | context [String.eqb paradigm_id ?t] =>
        destruct (String.eqb_spec paradigm_id t) as [Heq | _];
        [first [done | numeric_branch columns H] |]
    end.
  discriminate H.
Qed.

Lemma returned_values_numeric_witness :
  ∃ m, make_contrasts "stop_signal" (Some ["go"; "stop"; "go_derivative"]) = Ok m
       ∧ numeric_set 3 m.
Proof.
  destruct (is_Ok_true (make_contrasts "stop_signal"
                          (Some ["go"; "stop"; "go_derivative"]))) as [m Hm];
    [vm_compute; reflexivity |].
  exists m. split; [exact Hm |].
  by apply (returned_values_numeric "stop_signal"
              ["go"; "stop"; "go_derivative"] m).
Defined.

(** ** The returned names are the declared ones *)

Lemma schema_lookup names k v : schema names !! k = Some v → v = VEmpty.
Proof.
  unfold schema, Py.dict.
  assert (∀ (l : list string) (d : contrast_set),
            map_Forall (λ _ v, v = VEmpty) d →
            map_Forall (λ _ v, v = VEmpty)
              (foldl (λ d kv, <[kv.1 := kv.2]> d) d
                 ((λ name, (name, VEmpty)) <$> l))) as Hall.
  { induction l as [|x l IH]; intros d Hd; simpl; [done |].
    apply IH. by apply map_Forall_insert_2. }
  apply (Hall names ∅ (map_Forall_empty _)).
Qed.

Ltac names_body H Hs :=
  cbv beta iota zeta in H, Hs;
  lazymatch type of Hs with
  | Ok ?s = Ok _ => injection Hs as <-
  end;
  repeat
    lazymatch type of H with
    | finish _ _ _ = _ => fail
    | Ok _ = _ => fail
    | _ => apply bind_Ok in H as (? & ? & H); cbv beta in H
    end;
  lazymatch type of H with
  | finish _ _ _ = _ =>
      apply finish_names in H; rewrite H;
      apply (bool_decide_unpack _); vm_compute; exact I
  end.

Ltac names_branch H Hs :=
  lazymatch type of H with
  | Raise _ = _ => discriminate H
  | Ok ∅ = _ => injection H as <-; injection Hs as <-; 
                apply (bool_decide_unpack _); vm_compute; exact I
  | ?P (Some _) = _ => unfold P in H, Hs; names_body H Hs
  end.

Lemma colour_names columns m s :
  colour (Some columns) = Ok m → colour None = Ok s →
  dom m ∖ reserved = dom s.
Proof.
  unfold colour. intros H [= <-]. apply bind_Ok in H as (d & Hd & [= <-]).
  unfold Py.display in Hd. simpl in Hd.
  apply bind_Ok in Hd as (v1 & _ & Hd). apply bind_Ok in Hd as (v2 & _ & Hd).
  apply bind_Ok in Hd as (v3 & _ & [= <-]).
  apply (bool_decide_unpack _). vm_compute. exact I.
Qed.

Lemma preferences_names columns domain m s :
  preferences (Some columns) domain = Ok m →
  preferences None domain = Ok s →
  dom m ∖ reserved = dom s.
Proof.
  unfold preferences. case_bool_decide as Hd; [done |].
  intros H Hs.
  rewrite !elem_of_cons in Hd.
  destruct Hd as [-> | [-> | [-> | [-> | ?%elem_of_nil]]]]; [.. | done];
    names_body H Hs.
Qed.

(** X2 (returned names).  Apart from the two MTT definitions, whenever
    [make_contrasts] returns on a column sequence, the names of the returned
    mapping, the two reserved keys set aside, are exactly the names that the
    call without columns returns for the same identifier. *)
Theorem returned_names_declared paradigm_id columns m s :
  paradigm_id ≠ "MTTWE" → paradigm_id ≠ "MTTNS" →
  make_contrasts paradigm_id (Some columns) = Ok m →
  make_contrasts paradigm_id None = Ok s →
  dom m ∖ reserved = dom s.
Proof.
  intros Hwe Hsn. unfold make_contrasts.
  repeat
    match goal with
    | |- context [String.eqb (Py.take 10 paradigm_id) ?t] =>
        destruct (String.eqb (Py.take 10 paradigm_id) t);
        [ intros H Hs;
          apply bind_Ok in H as (c & Hc & H);
          apply bind_Ok in Hs as (c' & Hc' & Hs);
          rewrite Hc in Hc'; injection Hc' as <-;
          by eapply preferences_names |]
    | |- context [bool_decide ?P] =>
        destruct (bool_decide P);
        [intros H Hs; names_branch H Hs |]
    | |- context [String.eqb paradigm_id ?t] =>
        destruct (String.eqb_spec paradigm_id t) as [Heq | _];
        [first [done
               | by apply colour_names
               | intros H Hs; names_branch H Hs] |]
    end.
  discriminate.
Qed.

Lemma returned_names_declared_witness :
  ∃ m s, make_contrasts "stop_signal" (Some ["go"; "stop"; "go_derivative"]) = Ok m
         ∧ make_contrasts "stop_signal" None = Ok s
         ∧ dom m ∖ reserved = dom s.
Proof.
  destruct (is_Ok_true (make_contrasts "stop_signal"
                          (Some ["go"; "stop"; "go_derivative"]))) as [m Hm];
    [vm_compute; reflexivity |].
  destruct (is_Ok_true (make_contrasts "stop_signal" None)) as [s Hs];
    [vm_compute; reflexivity |].
  exists m, s. split; [exact Hm |]. split; [exact Hs |].
  by apply (returned_names_declared "stop_signal"
              ["go"; "stop"; "go_derivative"] m s).
Defined.

(** ** When an expression returns *)

Lemma bind_Ok_l {A B} (x : A) (k : A → result B) : Ok x ≫= k = k x.
Proof. reflexivity. Qed.

Section returns.

Lemma returns_Ok {A} (v : A) : returns (Ok v).
Proof. by exists v. Qed.

Lemma returns_getitem {A} (d : gmap string A) k :
  returns d.[k] ↔ k ∈ dom d.
Proof.
  unfold returns, Py.getitem. rewrite elem_of_dom.
  destruct (d !! k) as [v |]; split.
  - by eexists.
  - by eexists.
  - by intros [v [=]].
  - by intros [v [=]].
Qed.

Lemma returns_bin (f : vec → vec → vec) (a b : result vec) :
  returns (a ≫= λ u, b ≫= λ v, Ok (f u v)) ↔ returns a ∧ returns b.
Proof.
  unfold returns. destruct a as [u |], b as [v |]; simpl; split;
    try (intros [? [=]]); try (intros [[? [=]] [? [=]]]);
    try (intros [[? ?] [? [=]]]); try (intros [[? [=]] [? ?]]); eauto.
Qed.

Lemma returns_un (f : vec → vec) (a : result vec) :
  returns (a ≫= λ u, Ok (f u)) ↔ returns a.
Proof.
  unfold returns. destruct a as [u |]; simpl; split;
    try (intros [? [=]]); eauto.
Qed.

Lemma returns_add a b : returns (a ⊕ b) ↔ returns a ∧ returns b.
Proof. apply (returns_bin vadd). Qed.
Lemma returns_sub a b : returns (a ⊖ b) ↔ returns a ∧ returns b.
Proof. apply (returns_bin vsub). Qed.
Lemma returns_neg a : returns (⊖ a) ↔ returns a.
Proof. apply (returns_un vneg). Qed.
Lemma returns_scale c a : returns (c ⊛ a) ↔ returns a.
Proof. apply (returns_un (vscale c)). Qed.
Lemma returns_div a c : returns (a ⊘ c) ↔ returns a.
Proof. apply (returns_un (λ u, vdiv u c)). Qed.

Lemma setitem_returns {A} (d : gmap string A) k r d' :
  Py.setitem d k r = Ok d' → returns r ∧ dom d' = {[k]} ∪ dom d.
Proof.
  unfold Py.setitem. destruct r as [v |]; [| done]. simpl. intros [= <-].
  split; [by exists v | apply dom_insert_L].
Qed.

Lemma returns_setitem {A} (d : gmap string A) k r :
  returns r → ∃ d', Py.setitem d k r = Ok d' ∧ dom d' = {[k]} ∪ dom d.
Proof.
  intros [v ->]. exists (<[k := v]> d). split; [done | apply dom_insert_L].
Qed.

Lemma display_from_returns {A} (d : gmap string A) l d' :
  Py.display_from d l = Ok d' →
  Forall (λ kr, returns kr.2) l ∧ dom d' = list_to_set l.*1 ∪ dom d.
Proof.
  revert d. induction l as [|[k r] l IH]; intros d; simpl.
  - intros [= <-]. split; [done |]. by rewrite (left_id_L ∅ (∪)).
  - destruct r as [v |]; [| done]. simpl. intros [Hl Hd]%IH. split.
    + constructor; [by exists v | done].
    + rewrite Hd, dom_insert_L. clear. apply set_eq. intros x.
      rewrite !elem_of_union. tauto.
Qed.

Lemma display_returns {A} (l : list (string * result A)) d :
  Py.display l = Ok d →
  Forall (λ kr, returns kr.2) l ∧ dom d = list_to_set l.*1.
Proof.
  intros [Hl Hd]%display_from_returns. split; [done |].
  by rewrite Hd, dom_empty_L, (right_id_L ∅ (∪)).
Qed.

Lemma returns_display_from {A} (d : gmap string A) l :
  Forall (λ kr, returns kr.2) l →
  ∃ d', Py.display_from d l = Ok d' ∧ dom d' = list_to_set l.*1 ∪ dom d.
Proof.
  revert d. induction l as [|[k r] l IH]; intros d Hl; simpl.
  - exists d. split; [done |]. by rewrite (left_id_L ∅ (∪)).
  - apply Forall_cons in Hl as [[v Hv] Hl]. simpl in Hv. subst r. simpl.
    destruct (IH (<[k := v]> d) Hl) as (d' & Hd' & Hdom).
    exists d'. split; [done |].
    rewrite Hdom, dom_insert_L. clear. apply set_eq. intros x.
    rewrite !elem_of_union. tauto.
Qed.

Lemma returns_display {A} (l : list (string * result A)) :
  Forall (λ kr, returns kr.2) l →
  ∃ d, Py.display l = Ok d ∧ dom d = list_to_set l.*1.
Proof.
  intros (d & Hd & Hdom)%(returns_display_from ∅). exists d. split; [done |].
  by rewrite Hdom, dom_empty_L, (right_id_L ∅ (∪)).
Qed.

Lemma dom_dict {A} (l : list (string * A)) : dom (Py.dict l) = list_to_set l.*1.
Proof.
  unfold Py.dict.
  assert (∀ d : gmap string A,
            dom (foldl (λ d kv, <[kv.1 := kv.2]> d) d l)
            = list_to_set l.*1 ∪ dom d) as Hgen.
  { induction l as [|[k v] l IH]; intros d; simpl.
    - by rewrite (left_id_L ∅ (∪)).
    - rewrite IH, dom_insert_L. apply set_eq. intros x.
      rewrite !elem_of_union. tauto. }
  by rewrite Hgen, dom_empty_L, (right_id_L ∅ (∪)).
Qed.

Lemma comprehension_keys {A} (con : gmap string A) (f : string → string)
    names kvs :
  Py.comprehension (λ name, v ← con.[f name]; Ok (name, v)) names = Ok kvs →
  Forall (λ name, f name ∈ dom con) names ∧ kvs.*1 = names.
Proof.
  revert kvs. induction names as [|name names IH]; intros kvs; simpl.
  - by intros [= <-].
  - destruct (con.[f name]) as [v |] eqn:Hv; [| done]. simpl.
    destruct (Py.comprehension _ names) as [kvs' |]; [| done]. simpl.
    intros [= <-]. destruct (IH kvs' eq_refl) as [Hn Hk]. split.
    + constructor; [| done]. apply returns_getitem. by exists v.
    + simpl. f_equal. exact Hk.
Qed.

Lemma returns_comprehension {A} (con : gmap string A) (f : string → string)
    names :
  Forall (λ name, f name ∈ dom con) names →
  ∃ kvs,
    Py.comprehension (λ name, v ← con.[f name]; Ok (name, v)) names = Ok kvs
    ∧ kvs.*1 = names.
Proof.
  induction names as [|name names IH]; intros Hn; simpl.
  - by exists [].
  - apply Forall_cons in Hn as [[v Hv]%returns_getitem Hn].
    destruct (IH Hn) as (kvs & Hk & Hfst). rewrite Hv, Hk. simpl.
    exists ((name, v) :: kvs). split; [done |]. simpl. f_equal. exact Hfst.
Qed.

Lemma select_returns (con : gmap string vec) names d :
  select con names = Ok d →
  Forall (λ name, name ∈ dom con) names ∧ dom d = list_to_set names.
Proof.
  unfold select.
  destruct (Py.comprehension _ names) as [kvs |] eqn:Hk; [| done].
  simpl. intros [= <-].
  apply (comprehension_keys con id) in Hk as [Hn Hfst].
  split; [done |]. by rewrite dom_dict, Hfst.
Qed.

Lemma returns_select (con : gmap string vec) names :
  Forall (λ name, name ∈ dom con) names →
  ∃ d, select con names = Ok d ∧ dom d = list_to_set names.
Proof.
  intros (kvs & Hk & Hfst)%(returns_comprehension con id).
  cbv beta delta [id] in Hk. unfold select. rewrite Hk. simpl. exists (Py.dict kvs).
  split; [done |]. by rewrite dom_dict, Hfst.
Qed.

Lemma returns_finish columns names (d : gmap string vec) :
  dom d = list_to_set names → NoDup names →
  returns (finish columns names d).
Proof.
  intros Hdom Hnd. unfold finish, assert_names.
  rewrite bool_decide_eq_true_2; [by eexists |].
  apply (Sorted_unique String.le).
  - apply Sorted_merge_sort. apply _.
  - apply Sorted_merge_sort. apply _.
  - rewrite !sorted_permutation.
    apply NoDup_Permutation; [apply NoDup_fst_map_to_list | done |].
    intros k. by rewrite <- (elem_of_list_to_set (C := gset string)),
      <- dom_keys, Hdom, elem_of_list_to_set.
Qed.

End returns.

Lemma comprehension_getitem_returns {A B} (con : gmap string A)
    (g : B → string) l :
  returns (Py.comprehension (λ i, con.[g i]) l)
  ↔ Forall (λ i, g i ∈ dom con) l.
Proof.
  induction l as [|i l IH]; simpl.
  - split; [done | by eexists].
  - rewrite Forall_cons, <- IH, <- returns_getitem. unfold returns.
    destruct (con.[g i]) as [v |]; simpl.
    + destruct (Py.comprehension _ l) as [vs |]; simpl.
      * split; [intros _; split; by eexists | by eexists].
      * split; [by intros [? [=]] | by intros [_ [? [=]]]].
    + split; [by intros [? [=]] | by intros [[? [=]] _]].
Qed.

Lemma response_rows_returns con lo hi :
  returns (response_rows con lo hi)
  ↔ Forall (λ i : nat, "response_num_" +:+ pretty i ∈ dom con)
      (seq lo (hi - lo)).
Proof. apply comprehension_getitem_returns. Qed.

Lemma minus_base_loop_returns con suffix base names d d' :
  minus_base_loop con suffix base names d = Ok d' →
  Forall (λ name, name ∈ dom con ∧ base ∈ dom con) names
  ∧ dom d' = list_to_set ((λ name, name +:+ suffix) <$> names) ∪ dom d.
Proof.
  revert d. induction names as [|name names IH]; intros d; simpl.
  - intros [= <-]. split; [done |]. by rewrite (left_id_L ∅ (∪)).
  - intros (d1 & [Hr Hd1]%setitem_returns & [Hn Hd']%IH)%bind_Ok.
    apply returns_sub in Hr as [Hname%returns_getitem Hbase%returns_getitem].
    split; [by constructor |].
    rewrite Hd', Hd1. apply set_eq. intros x. rewrite !elem_of_union. tauto.
Qed.

Lemma returns_minus_base_loop con suffix base names d :
  Forall (λ name, name ∈ dom con ∧ base ∈ dom con) names →
  ∃ d', minus_base_loop con suffix base names d = Ok d'
        ∧ dom d' = list_to_set ((λ name, name +:+ suffix) <$> names) ∪ dom d.
Proof.
  revert d. induction names as [|name names IH]; intros d Hn; simpl.
  - exists d. split; [done |]. by rewrite (left_id_L ∅ (∪)).
  - apply Forall_cons in Hn as [[Hname Hbase] Hn].
    destruct (returns_setitem d (name +:+ suffix) (con.[name] ⊖ con.[base]))
      as (d1 & Hd1 & Hdom1).
    { apply returns_sub. by rewrite !returns_getitem. }
    rewrite Hd1. simpl. destruct (IH d1 Hn) as (d' & Hd' & Hdom').
    exists d'. split; [done |]. rewrite Hdom', Hdom1.
    apply set_eq. intros x. rewrite !elem_of_union. tauto.
Qed.

(** Tactics *)

Ltac mem_list := apply (bool_decide_unpack _); vm_compute; exact I.

Ltac in_set :=
  lazymatch goal with
  | |- _ ∈ {[ _ ]} ∪ _ =>
      first [ apply elem_of_union_l, elem_of_singleton_2; reflexivity
            | apply elem_of_union_r; in_set ]
  | |- _ ∈ list_to_set _ ∪ _ =>
      first [ apply elem_of_union_l, elem_of_list_to_set; mem_list
            | apply elem_of_union_r; in_set ]
  | |- _ ∈ list_to_set _ => apply elem_of_list_to_set; mem_list
  | |- _ ∈ dom _ => in_dom
  end
with in_dom :=
  match goal with
  | H : dom ?d = _ |- _ ∈ dom ?d => rewrite H; in_set
  | H : ∀ k, k ∈ _ → k ∈ dom ?d |- _ ∈ dom ?d => apply H; mem_list
  end.

Ltac solve_returns :=
  lazymatch goal with
  | |- returns (Ok _) => apply returns_Ok
  | |- returns (radd _ _) =>
      apply (proj2 (returns_add _ _)); split; solve_returns
  | |- returns (rsub _ _) =>
      apply (proj2 (returns_sub _ _)); split; solve_returns
  | |- returns (rneg _) => apply (proj2 (returns_neg _)); solve_returns
  | |- returns (rscale _ _) => apply (proj2 (returns_scale _ _)); solve_returns
  | |- returns (rdiv _ _) => apply (proj2 (returns_div _ _)); solve_returns
  | |- returns (Py.getitem _ _) => apply (proj2 (returns_getitem _ _)); in_dom
  end.

Ltac solve_Forall tac :=
  lazymatch goal with
  | |- Forall ?P ?l =>
      let l' := eval vm_compute in l in
      change (Forall P l');
      repeat (apply Forall_cons; split; [cbn [snd]; tac |]);
      apply Forall_nil_2
  end.

Ltac solve_entries_returns :=
  repeat (apply Forall_cons; split; [cbn [snd]; solve_returns |]);
  apply Forall_nil_2.

Ltac rewrite_doms :=
  repeat match goal with
         | H : dom ?x = _ |- context [dom ?x] => rewrite H
         end.

Ltac forward_step :=
  let d := fresh "d" in
  let Hd := fresh "Hd" in
  let Hdom := fresh "Hdom" in
  lazymatch goal with
  | |- returns (select ?c ?names ≫= _) =>
      destruct (returns_select c names) as (d & Hd & Hdom);
      [ solve_Forall ltac:(idtac; in_dom) | rewrite Hd, bind_Ok_l; cbv beta; clear Hd ]
  | |- returns (Py.setitem ?d0 ?k ?r ≫= _) =>
      destruct (returns_setitem d0 k r) as (d & Hd & Hdom);
      [ solve_returns | rewrite Hd, bind_Ok_l; cbv beta; clear Hd ]
  | |- returns (Py.display ?l ≫= _) =>
      destruct (returns_display l) as (d & Hd & Hdom);
      [ solve_entries_returns | rewrite Hd, bind_Ok_l; cbv beta; clear Hd ]
  | |- returns (minus_base_loop ?c ?s ?b ?names ?d0 ≫= _) =>
      destruct (returns_minus_base_loop c s b names d0) as (d & Hd & Hdom);
      [ solve_Forall ltac:(idtac; split; in_dom)
      | rewrite Hd, bind_Ok_l; cbv beta; clear Hd ]
  | |- returns (response_rows ?c ?lo ?hi ≫= _) =>
      destruct (proj2 (response_rows_returns c lo hi)) as (d & Hd);
      [ solve_Forall ltac:(idtac; in_dom) | rewrite Hd, bind_Ok_l; cbv beta; clear Hd ]
  | |- returns (finish _ ?names _) =>
      apply returns_finish;
      [ rewrite_doms; mem_list | mem_list ]
  | |- returns (Ok _) => apply returns_Ok
  | |- returns (?r ≫= _) =>
      assert (returns r) as [d Hd] by solve_returns;
      rewrite Hd, bind_Ok_l; cbv beta; clear Hd
  end.

Ltac split_returns :=
  repeat
    match goal with
    | H : returns (radd _ _) |- _ =>
        apply (proj1 (returns_add _ _)) in H as [? ?]
    | H : returns (rsub _ _) |- _ =>
        apply (proj1 (returns_sub _ _)) in H as [? ?]
    | H : returns (rneg _) |- _ => apply (proj1 (returns_neg _)) in H
    | H : returns (rscale _ _) |- _ => apply (proj1 (returns_scale _ _)) in H
    | H : returns (rdiv _ _) |- _ => apply (proj1 (returns_div _ _)) in H
    | H : returns (Py.getitem _ _) |- _ =>
        apply (proj1 (returns_getitem _ _)) in H
    | H : returns (Ok _) |- _ => clear H
    | H : _ ∧ _ |- _ => destruct H
    | H : Forall _ (_ :: _) |- _ =>
        let H1 := fresh "H" in
        apply Forall_cons in H as [H1 H]; cbn [snd] in H1
    | H : Forall _ [] |- _ => clear H
    end.

Ltac normal_list H :=
  lazymatch type of H with
  | Forall ?P ?l =>
      let l' := eval vm_compute in l in change (Forall P l') in H
  end.

Ltac backward_step H :=
  lazymatch type of H with
  | finish _ _ _ = _ => fail
  | Ok _ = _ => fail
  | _ =>
      let x := fresh "x" in
      let Hx := fresh "Hx" in
      let Hn := fresh "Hn" in
      let Hdom := fresh "Hdom" in
      apply bind_Ok in H as (x & Hx & H); cbv beta in H;
      first
        [ apply select_returns in Hx as [Hn Hdom]; normal_list Hn
        | apply setitem_returns in Hx as [Hn Hdom]
        | apply display_returns in Hx as [Hn Hdom]
        | apply minus_base_loop_returns in Hx as [Hn Hdom]; normal_list Hn
        | lazymatch type of Hx with
          | response_rows ?c ?lo ?hi = Ok _ =>
              assert (returns (response_rows c lo hi)) as Hn
                by (by eexists);
              apply response_rows_returns in Hn; normal_list Hn; clear Hx
          end
        | lazymatch type of Hx with
          | ?r = Ok _ =>
              assert (returns r) as Hn by (by eexists); clear Hx
          end ]
  end.

Lemma elem_of_dom_elementary columns k :
  k ∈ dom (_elementary_contrasts columns) ↔ k ∈ columns.
Proof. rewrite elem_of_dom. apply elementary_contrasts_is_Some. Qed.

Lemma lower_contrasts_elementary columns :
  lower_contrasts columns = _elementary_contrasts (Py.lower <$> columns).
Proof.
  unfold lower_contrasts, _elementary_contrasts. rewrite length_fmap.
  generalize (length columns) 0 (∅ : gmap string vec).
  induction columns as [|c columns IH]; intros n i con; simpl; [done |].
  apply IH.
Qed.

Lemma elem_of_dom_lower columns k :
  k ∈ dom (lower_contrasts columns) ↔ k ∈ Py.lower <$> columns.
Proof. rewrite lower_contrasts_elementary. apply elem_of_dom_elementary. Qed.

Lemma elem_of_dom_beta columns k :
  k ∈ dom (_beta_contrasts columns)
  ↔ k ∈ columns
    ∧ startswith_any
        (["constant"; "rx"; "ry"; "rz"; "tx"; "ty"; "tz"]
         ++ ((λ d : nat, "drift_" +:+ pretty d) <$> seq 0 20)
         ++ ((λ d : nat, "conf_" +:+ pretty d) <$> seq 0 20)) k = false.
Proof.
  unfold _beta_contrasts. rewrite elem_of_dom. unfold is_Some.
  setoid_rewrite map_lookup_filter_Some. simpl.
  rewrite <- elem_of_dom_elementary, elem_of_dom. unfold is_Some.
  split; [intros (v & Hv & Hs); eauto | intros [[v Hv] Hs]; eauto].
Qed.

Ltac normal_key H :=
  lazymatch type of H with
  | ?k ∈ ?X =>
      let k' := eval vm_compute in k in change (k' ∈ X) in H
  end.

(** Bring a fact [k ∈ dom d] down to the columns, or drop it when [d] is a
    dict that the definition built itself. *)
Ltac normal_fact H :=
  normal_key H;
  repeat
    lazymatch type of H with
    | _ ∈ dom (_elementary_contrasts _) =>
        apply (proj1 (elem_of_dom_elementary _ _)) in H
    | _ ∈ dom (lower_contrasts _) =>
        apply (proj1 (elem_of_dom_lower _ _)) in H
    | _ ∈ dom (_beta_contrasts _) =>
        apply (proj1 (elem_of_dom_beta _ _)) in H as [H _]
    | _ ∈ dom ?d =>
        lazymatch goal with
        | Hd : dom d = _ |- _ => rewrite Hd in H
        end
    | ?k ∈ {[ ?k' ]} ∪ _ =>
        first [ unify k k'; clear H
              | apply (proj1 (elem_of_union _ _ _)) in H as [H | H];
                [apply (proj1 (elem_of_singleton _ _)) in H |];
                [discriminate H |] ]
    | _ ∈ list_to_set _ ∪ _ => clear H
    | _ ∈ list_to_set _ => clear H
    end.

Ltac normal_facts :=
  repeat
    match goal with
    | H : _ ∈ dom _ |- _ => progress normal_fact H
    end.

Ltac required_columns :=
  let k := fresh "k" in
  let Hk := fresh "Hk" in
  intros k Hk;
  repeat (apply elem_of_cons in Hk as [-> | Hk]; [assumption |]);
  by apply elem_of_nil in Hk.



(** ** The columns that a definition needs *)

Ltac pose_required columns Hreq :=
  lazymatch type of Hreq with
  | ∀ k, k ∈ ?R → _ =>
      try (assert (∀ k, k ∈ R → k ∈ dom (_elementary_contrasts columns))
            by (intros ? ?; apply elem_of_dom_elementary, Hreq; assumption));
      try (assert (∀ k, k ∈ R → k ∈ dom (lower_contrasts columns))
            by (intros ? ?; apply elem_of_dom_lower, Hreq; assumption));
      try (assert (∀ k, k ∈ R → k ∈ dom (_beta_contrasts columns))
            by (intros ? ?; apply elem_of_dom_beta;
                split; [apply Hreq; assumption |];
                match goal with
                | Hk : ?k ∈ _ |- _ =>
                    revert k Hk; apply Forall_forall;
                    apply (bool_decide_unpack _); vm_compute; exact I
                end))
  end.




(** ** Elementary contrasts: the last occurrence of a label wins *)

Lemma elementary_loop_last n i columns (con : gmap string vec) j c :
  columns !! j = Some c →
  (∀ j', j < j' → columns !! j' ≠ Some c) →
  elementary_loop n i columns con !! c = Some (eye n (i + j)).
Proof.
  revert i con j. induction columns as [|c' columns IH]; intros i con j Hj Hlast.
  - done.
  - destruct j as [|j]; simpl in *.
    + injection Hj as ->. rewrite elementary_loop_notin.
      * rewrite lookup_insert_eq. do 2 f_equal. lia.
      * intros (j' & Hj')%list_elem_of_lookup_1. apply (Hlast (S j')); [lia | done].
    + rewrite (IH (S i) _ j Hj).
      * do 2 f_equal. lia.
      * intros j' Hlt. apply (Hlast (S j')). lia.
Qed.

(** X4 (elementary contrasts).  The dict of elementary contrasts has the
    column labels as its keys; a label that is no column raises a KeyError
    naming it; a label is mapped to the basis vector of the last position
    at which it occurs, so a repeated label loses its earlier columns. *)
Theorem elementary_contrasts_last_occurrence columns :
  dom (_elementary_contrasts columns) = list_to_set columns
  ∧ (∀ k, k ∉ columns →
          (_elementary_contrasts columns).[k] = Raise (KeyError k))
  ∧ (∀ i c, columns !! i = Some c →
            (∀ j, i < j → columns !! j ≠ Some c) →
            (_elementary_contrasts columns).[c]
            = Ok (eye (length columns) i))
  ∧ (_elementary_contrasts ["a"; "b"; "a"]).["a"] = Ok (eye 3 2).
Proof.
  split; [| split; [| split]].
  - apply set_eq. intros k.
    by rewrite elem_of_dom_elementary, elem_of_list_to_set.
  - intros k Hk. unfold Py.getitem.
    by rewrite elementary_contrasts_notin.
  - intros i c Hi Hlast. unfold Py.getitem, _elementary_contrasts.
    by rewrite (elementary_loop_last _ 0 columns ∅ i c Hi Hlast).
  - reflexivity.
Qed.

(** ** The columns are shared out between the two extensions *)

Lemma nuisance_not_derivative c : c ∈ nuisance → derivative_test c = false.
Proof.
  revert c. apply Forall_forall. apply (bool_decide_unpack _).
  vm_compute. exact I.
Qed.

Lemma indices_partition i columns :
  length (Spec.indices_where Spec.interest_test i columns)
  + length (Spec.indices_where derivative_test i columns)
  + length (filter (λ c, c ∈ nuisance) columns)
  = length columns.
Proof.
  revert i. induction columns as [|c columns IH]; intros i; [done |].
  specialize (IH (S i)). simpl. rewrite filter_cons. unfold Spec.interest_test at 1.
  destruct (decide (c ∈ nuisance)) as [Hn | Hn].
  - rewrite (nuisance_not_derivative c Hn).
    rewrite (bool_decide_eq_true_2 (c ∈ nuisance)) by done. simpl. lia.
  - rewrite (bool_decide_eq_false_2 (c ∈ nuisance)) by done.
    destruct (derivative_test c); simpl; lia.
Qed.

(** X5 (every column is counted once).  A column contributes a row to the
    effects-of-interest matrix, or a row to the derivatives matrix, or is a
    nuisance column, and never two of these: the row counts and the number
    of nuisance columns add up to the number of columns, and no basis
    vector is a row of both matrices. *)
Theorem columns_shared_out columns :
  length (effects_interest_rows columns) + length (derivative_rows columns)
  + length (filter (λ c, c ∈ nuisance) columns)
  = length columns
  ∧ ∀ v, v ∈ effects_interest_rows columns → v ∉ derivative_rows columns.
Proof.
  rewrite effects_interest_rows_indices, derivative_rows_indices.
  rewrite !length_fmap. split; [apply indices_partition |].
  intros v (i & -> & Hi)%list_elem_of_fmap.
  pose proof (indices_where_lt _ _ _ _ Hi) as Hlt. simpl in Hlt.
  rewrite eye_elem_of_fmap by done.
  apply elem_of_indices_where in Hi as (_ & c & Hc & Hp).
  intros (_ & c' & Hc' & Hp')%elem_of_indices_where.
  rewrite Hc in Hc'. injection Hc' as <-.
  unfold Spec.interest_test in Hp. rewrite Hp' in Hp.
  by rewrite andb_false_r in Hp.
Qed.

(** X6 (derivatives).  The rows of the derivatives matrix are the basis
    vectors, in column order, of exactly the columns made of a non-empty
    stem followed by '_derivative'; the extension files them under
    'derivatives' when there is at least one and leaves the contrast set as
    it is otherwise. *)
Theorem derivative_extension columns (contrast : contrast_set) :
  let n := length columns in
  let rows := derivative_rows columns in
  (∃ idxs : list nat,
      rows = eye n <$> idxs ∧ StronglySorted lt idxs
      ∧ ∀ i, i ∈ idxs ↔
          ∃ c, columns !! i = Some c
               ∧ ∃ stem, stem ≠ "" ∧ c = stem +:+ "_derivative")
  ∧ _append_derivative_contrast columns contrast
    = (if decide (rows = []) then contrast
       else <["derivatives" := VMat rows]> contrast)
  ∧ derivative_rows ["a"; "a_derivative"; "constant"; "_derivative"]
    = [eye 4 1].
Proof.
  intros n rows. split; [| split].
  - exists (Spec.indices_where derivative_test 0 columns). split; [| split].
    + apply derivative_rows_indices.
    + apply indices_where_sorted.
    + intros i. rewrite elem_of_indices_where, Nat.sub_0_r. split.
      * intros (_ & c & Hc & Hp%derivative_test_true). by exists c.
      * intros (c & Hc & Hp). split; [lia |]. exists c.
        by rewrite derivative_test_true.
  - apply append_derivative_unfold.
  - reflexivity.
Qed.

(** X7 (the extensions compose).  The two extensions commute, whatever the
    columns each is given; together they leave every entry filed under
    another name as it was, drop no key, and add no key but the two
    reserved ones. *)
Theorem extensions_commute columns1 columns2 (contrast : contrast_set) :
  let eff := _append_effects_interest_contrast columns1 in
  let der := _append_derivative_contrast columns2 in
  eff (der contrast) = der (eff contrast)
  ∧ (∀ k, k ∉ reserved → eff (der contrast) !! k = contrast !! k)
  ∧ dom contrast ⊆ dom (eff (der contrast))
  ∧ dom (eff (der contrast)) ⊆ dom contrast ∪ reserved.
Proof.
  intros eff der. subst eff der.
  rewrite !append_effects_interest_unfold, !append_derivative_unfold.
  assert ("effects_interest" ∈ reserved ∧ "derivatives" ∈ reserved) as [He Hd].
  { split; apply (bool_decide_unpack _); vm_compute; exact I. }
  split; [| split; [| split]].
  - repeat case_decide; try done. by apply insert_insert_ne.
  - intros k Hk.
    repeat case_decide; rewrite ?lookup_insert_ne; try done;
      by intros <-.
  - intros k Hk. repeat case_decide; rewrite ?dom_insert; try done;
      rewrite ?elem_of_union; auto.
  - intros k. repeat case_decide; rewrite ?dom_insert_L;
      rewrite !elem_of_union, ?elem_of_singleton;
      intuition (subst; auto).
Qed.

(** ** Beta contrasts *)

Lemma startswith_any_true names cname :
  startswith_any names cname = true
  ↔ ∃ p, p ∈ names ∧ String.prefix p cname = true.
Proof.
  unfold startswith_any. rewrite existsb_exists.
  by setoid_rewrite list_elem_of_In.
Qed.

Lemma prefix_refl s : String.prefix s s = true.
Proof.
  induction s as [|a s IH]; [done |]. simpl.
  destruct (ascii_dec a a); [apply IH | done].
Qed.

Lemma startswith_any_nuisance k :
  startswith_any
    (["constant"; "rx"; "ry"; "rz"; "tx"; "ty"; "tz"]
     ++ ((λ d : nat, "drift_" +:+ pretty d) <$> seq 0 20)
     ++ ((λ d : nat, "conf_" +:+ pretty d) <$> seq 0 20)) k = false
  ↔ ∀ p, p ∈ nuisance → String.prefix p k = false.
Proof.
  rewrite <- not_true_iff_false, startswith_any_true.
  assert (∀ p, p ∈ ["constant"; "rx"; "ry"; "rz"; "tx"; "ty"; "tz"]
                     ++ ((λ d : nat, "drift_" +:+ pretty d) <$> seq 0 20)
                     ++ ((λ d : nat, "conf_" +:+ pretty d) <$> seq 0 20)
               ↔ p ∈ nuisance) as Hsame.
  { intros p. unfold nuisance.
    rewrite !elem_of_app, !elem_of_cons, !elem_of_nil. tauto. }
  split.
  - intros Hno p Hp. apply not_true_iff_false. intros Hpre.
    apply Hno. exists p. by rewrite Hsame.
  - intros Hall (p & Hp%Hsame & Hpre). by rewrite (Hall p Hp) in Hpre.
Qed.

(** X8 (beta contrasts).  The beta contrasts are the elementary contrasts of
    the columns whose label does not start with a nuisance name: the names
    are those of the nuisance set of the effects-of-interest extension, but
    matched as prefixes, so the kept labels are never nuisance columns,
    while a column such as 'txt' or 'constants' is dropped here and is an
    effect of interest there. *)
Theorem beta_contrasts_prefix columns k v :
  (_beta_contrasts columns !! k = Some v
   ↔ _elementary_contrasts columns !! k = Some v
     ∧ ∀ p, p ∈ nuisance → String.prefix p k = false)
  ∧ (k ∈ dom (_beta_contrasts columns) → k ∈ columns ∧ k ∉ nuisance)
  ∧ _beta_contrasts ["txt"; "constants"; "go"; "rx"] = {["go" := eye 4 2]}
  ∧ effects_interest_rows ["txt"; "constants"; "go"; "rx"]
    = [eye 4 0; eye 4 1; eye 4 2].
Proof.
  split; [| split; [| split]].
  - unfold _beta_contrasts. cbv zeta. rewrite map_lookup_filter_Some.
    cbn [fst]. by rewrite startswith_any_nuisance.
  - intros [Hk Hs]%elem_of_dom_beta. split; [done |].
    intros Hn. rewrite startswith_any_nuisance in Hs.
    specialize (Hs k Hn). by rewrite prefix_refl in Hs.
  - apply map_eq. intros k'. apply option_eq. intros v'.
    unfold _beta_contrasts. cbv zeta. rewrite map_lookup_filter_Some. cbn [fst].
    rewrite lookup_singleton_Some. split.
    + intros [Hv Hs].
      assert (k' ∈ ["txt"; "constants"; "go"; "rx"]) as Hin.
      { apply elementary_contrasts_is_Some. by eexists. }
      rewrite !elem_of_cons, elem_of_nil in Hin.
      destruct Hin as [-> | [-> | [-> | [-> | []]]]];
        vm_compute in Hs; try discriminate Hs.
      split; [done |]. vm_compute in Hv. by injection Hv as <-.
    + intros [<- <-]. split; reflexivity.
  - reflexivity.
Qed.

(** X9 (the preference family).  An identifier made of 'preference', any one
    character, and one of the four domains, with or without a final 's', is
    handed to the preference definition of that domain; the definition
    returns exactly when the three columns '<domain>_linear',
    '<domain>_constant' and '<domain>_quadratic' are present, and without
    columns it returns those three names. *)
Theorem preference_family (sep : ascii) domain columns :
  domain ∈ ["painting"; "house"; "face"; "food"] →
  let names :=
    [domain +:+ "_linear"; domain +:+ "_constant"; domain +:+ "_quadratic"] in
  (∀ c, make_contrasts ("preference" +:+ String sep domain) c
        = preferences c domain)
  ∧ (∀ c, make_contrasts ("preference" +:+ String sep (domain +:+ "s")) c
          = preferences c domain)
  ∧ (returns (preferences (Some columns) domain)
     ↔ ∀ k, k ∈ names → k ∈ columns)
  ∧ preferences None domain = Ok (schema names).
Proof.
  intros Hd names.
  rewrite !elem_of_cons, elem_of_nil in Hd.
  destruct Hd as [-> | [-> | [-> | [-> | []]]]];
    (split; [reflexivity |]; split; [reflexivity |]; split; [| reflexivity]);
    subst names; unfold preferences;
    (case_bool_decide as Hn; [exfalso; apply Hn; mem_list |]);
    repeat
      match goal with
      | |- context [String.append ?a ?b] =>
          let s := eval vm_compute in (String.append a b) in
          change (String.append a b) with s
      end;
    cbv beta iota zeta;
    (split;
     [ intros [m H]; repeat backward_step H; split_returns; normal_facts;
       required_columns
     | intros Hreq; pose_required columns Hreq; clear Hreq;
       repeat forward_step ]).
Qed.

Lemma preference_family_witness :
  make_contrasts "preference_houses" None
  = Ok (schema ["house_linear"; "house_constant"; "house_quadratic"])
  ∧ returns (make_contrasts "preference_houses"
               (Some ["house_constant"; "house_linear"; "house_quadratic"])).
Proof.
  assert ("house" ∈ ["painting"; "house"; "face"; "food"]) as Hd by mem_list.
  destruct (preference_family "_" "house"
              ["house_constant"; "house_linear"; "house_quadratic"] Hd)
    as (_ & Hs & Hr & Hn).
  split.
  - etrans; [apply Hs | exact Hn].
  - rewrite (Hs (Some _)). apply Hr. apply Forall_forall. mem_list.
Defined.

(** ** The names returned by the MTT definitions *)

Lemma dom_effects_interest columns (d : contrast_set) :
  dom (_append_effects_interest_contrast columns d) ∖ reserved
  = dom d ∖ reserved.
Proof.
  rewrite append_effects_interest_unfold.
  case_decide; rewrite ?dom_insert_L;
    rewrite ?difference_insert_reserved; try done; mem_list.
Qed.

Ltac mtt_names H :=
  cbv beta iota zeta in H;
  repeat backward_step H;
  lazymatch type of H with
  | Ok _ = Ok _ => injection H as <-
  end;
  rewrite dom_effects_interest, dom_insert_L;
  unfold vectors; rewrite dom_fmap_L;
  rewrite_doms; mem_list.

(** X10 (names of the MTT definitions).  Whatever the columns, the mapping
    that an MTT definition returns holds, besides the fifteen names it
    declares (and the reserved key), the four intermediate sums
    it builds on the way, which it does not declare. *)
Theorem mtt_undeclared_names columns :
  (∀ m s, make_contrasts "MTTWE" (Some columns) = Ok m →
          make_contrasts "MTTWE" None = Ok s →
          dom m ∖ reserved
          = dom s ∪ {["we_westside_event"; "we_eastside_event";
                      "we_before_event"; "we_after_event"]})
  ∧ (∀ m s, make_contrasts "MTTNS" (Some columns) = Ok m →
            make_contrasts "MTTNS" None = Ok s →
            dom m ∖ reserved
            = dom s ∪ {["sn_southside_event"; "sn_northside_event";
                        "sn_before_event"; "sn_after_event"]}).
Proof.
  split; intros m s H Hs; injection Hs as <-.
  - change (mtt_we_relative (Some columns) = Ok m) in H.
    unfold mtt_we_relative in H. mtt_names H.
  - change (mtt_sn_relative (Some columns) = Ok m) in H.
    unfold mtt_sn_relative in H. mtt_names H.
Qed.

Lemma mtt_undeclared_names_witness :
  ∃ m, make_contrasts "MTTWE"
         (Some ["we_all_reference"; "we_all_space_cue"; "we_all_time_cue";
                "we_westside_close_event"; "we_westside_far_event";
                "we_eastside_close_event"; "we_eastside_far_event";
                "we_before_close_event"; "we_before_far_event";
                "we_after_close_event"; "we_after_far_event"]) = Ok m
       ∧ "we_westside_event" ∈ dom m
       ∧ "we_westside_event" ∉ dom (schema
           ["we_average_reference"; "we_all_space_cue"; "we_all_time_cue";
            "we_all_space-time_cue"; "we_all_time-space_cue";
            "we_average_event"; "we_space_event"; "we_time_event";
            "we_space-time_event"; "we_time-space_event";
            "westside-eastside_event"; "eastside-westside_event";
            "we_before-after_event"; "we_after-before_event";
            "we_all_event_response"]).
Proof.
  match goal with
  | |- ∃ m, ?r = Ok m ∧ _ =>
      destruct (is_Ok_true r) as [m Hm]; [vm_compute; reflexivity |]
  end.
  exists m. split; [exact Hm |].
  pose proof (proj1 (mtt_undeclared_names _) m _ Hm eq_refl) as Hdom.
  split.
  - assert ("we_westside_event" ∈ dom m ∖ reserved) as Hin.
    { rewrite Hdom. apply elem_of_union_r. mem_list. }
    by apply elem_of_difference in Hin as [Hin _].
  - apply (bool_decide_eq_false_1 _). vm_compute. reflexivity.
Defined.

(** ** The call without columns *)

Lemma schema_empty names : map_Forall (λ _ v, v = VEmpty) (schema names).
Proof. intros k v. apply schema_lookup. Qed.

(** X11 (the call without columns).  For every identifier of the dispatcher,
    the call without columns returns, and every value of the mapping it
    returns is the empty list; this holds also for the three definitions
    that return on no columns. *)
Theorem schema_call_returns paradigm_id :
  paradigm_id ∈ Spec.paradigm_ids →
  ∃ s, make_contrasts paradigm_id None = Ok s
       ∧ map_Forall (λ _ v, v = VEmpty) s.
Proof.
  revert paradigm_id. apply Forall_forall. unfold Spec.paradigm_ids.
  repeat (apply Forall_cons; split;
          [first [ eexists; split; [reflexivity | apply schema_empty]
                 | eexists; split; [reflexivity | apply map_Forall_empty]
                 | eexists; split;
                   [reflexivity
                   | apply (schema_empty ["color"; "grey"; "color-grey"])] ]
          |]).
  apply Forall_nil_2.
Qed.

Lemma schema_call_returns_witness :
  ∃ s, make_contrasts "two_by_two" None = Ok s
       ∧ map_Forall (λ _ v, v = VEmpty) s.
Proof. apply (schema_call_returns "two_by_two"). mem_list. Defined.

(** ** Entries of a dict display *)

Lemma Ok_inj {A} (x y : A) : Ok x = Ok y → x = y.
Proof. by intros [= ->]. Qed.

(** A dict display with distinct keys holds, under each key, the value of
    that key's expression. *)
Lemma display_from_lookup {A} (d : gmap string A) l d' :
  Py.display_from d l = Ok d' → NoDup l.*1 →
  ∀ k r, (k, r) ∈ l → ∃ v, r = Ok v ∧ d' !! k = Some v.
Proof.
  revert d. induction l as [|[k0 r0] l IH]; intros d Hd Hnd k r Hin; simpl in *.
  - by apply elem_of_nil in Hin.
  - apply NoDup_cons in Hnd as [Hk0 Hnd].
    apply bind_Ok in Hd as (v0 & -> & Hd).
    apply elem_of_cons in Hin as [[= -> ->] | Hin].
    + exists v0. split; [done |].
      assert (∀ (l : list (string * result A)) d d',
                Py.display_from d l = Ok d' → k0 ∉ l.*1 → d' !! k0 = d !! k0)
        as Hkeep.
      { clear. induction l as [|[k r] l IH]; intros d d' Hd Hk; simpl in *.
        - by injection Hd as <-.
        - apply bind_Ok in Hd as (v & -> & Hd).
          apply not_elem_of_cons in Hk as [Hne Hk].
          rewrite (IH _ _ Hd Hk). by rewrite lookup_insert_ne. }
      rewrite (Hkeep _ _ _ Hd Hk0). by rewrite lookup_insert_eq.
    + by apply (IH _ Hd Hnd).
Qed.

Lemma display_lookup {A} (l : list (string * result A)) d :
  Py.display l = Ok d → NoDup l.*1 →
  ∀ k r, (k, r) ∈ l → ∃ v, r = Ok v ∧ d !! k = Some v.
Proof. apply display_from_lookup. Qed.

Lemma finish_lookup columns names d m k :
  finish columns names d = Ok m → k ∉ reserved →
  m !! k = VVec <$> d !! k.
Proof.
  intros [_ ->]%finish_Ok Hk. rewrite lookup_extensions.
  - unfold vectors. by rewrite lookup_fmap.
  - intros ->. apply Hk. mem_list.
  - intros ->. apply Hk. mem_list.
Qed.

(** ** The fallbacks of the self paradigm *)

Section fallbacks.
Variable con : gmap string vec.

Lemma except_first_present primary fallback v :
  except_KeyError con.[primary] con.[fallback] = Ok v
  ↔ Spec.first_present con [primary; fallback] = Some v.
Proof.
  unfold Py.getitem. simpl.
  destruct (con !! primary), (con !! fallback); simpl; split; congruence.
Qed.

Lemma except_sum_or_third k1 k2 k3 v :
  except_KeyError (con.[k1] ⊕ con.[k2])
    (if has_key con k2 then con.[k2]
     else if has_key con k1 then con.[k1] else con.[k3]) = Ok v
  ↔ match Spec.sum_or_present con k1 k2 with
    | Some u => Some u
    | None => con !! k3
    end = Some v.
Proof.
  unfold Py.getitem, has_key, Spec.sum_or_present, radd. simpl.
  destruct (con !! k1), (con !! k2), (con !! k3); simpl; split; congruence.
Qed.

Lemma except_sum_or_second k1 k2 v :
  except_KeyError (con.[k1] ⊕ con.[k2])
    (if has_key con k2 then con.[k2] else con.[k1]) = Ok v
  ↔ Spec.sum_or_present con k1 k2 = Some v.
Proof.
  unfold Py.getitem, has_key, Spec.sum_or_present, radd. simpl.
  destruct (con !! k1), (con !! k2); simpl; split; congruence.
Qed.

Lemma except_sum_or_first k1 k2 v :
  except_KeyError (con.[k1] ⊕ con.[k2])
    (if has_key con k1 then con.[k1] else con.[k2]) = Ok v
  ↔ Spec.sum_or_present con k1 k2 = Some v.
Proof.
  unfold Py.getitem, has_key, Spec.sum_or_present, radd. simpl.
  destruct (con !! k1), (con !! k2); simpl; split; congruence.
Qed.

Lemma getitem_Ok {A} (d : gmap string A) k v : d.[k] = Ok v ↔ d !! k = Some v.
Proof. unfold Py.getitem. destruct (d !! k); split; congruence. Qed.

Lemma missing_key_Ok {B} (v : B) : missing_key con (Ok v).
Proof. by intros e. Qed.

Lemma missing_key_getitem k : missing_key con con.[k].
Proof.
  intros e. unfold Py.getitem. destruct (con !! k) eqn:Hk; [done |].
  intros [= <-]. by exists k.
Qed.

Lemma missing_key_add a b :
  missing_key con a → missing_key con b → missing_key con (a ⊕ b).
Proof.
  intros Ha Hb e. destruct a as [u | ea]; [| intros [= <-]; by apply Ha].
  destruct b as [v | eb]; [done | intros [= <-]; by apply Hb].
Qed.

Lemma missing_key_sub a b :
  missing_key con a → missing_key con b → missing_key con (a ⊖ b).
Proof.
  intros Ha Hb e. destruct a as [u | ea]; [| intros [= <-]; by apply Ha].
  destruct b as [v | eb]; [done | intros [= <-]; by apply Hb].
Qed.

Lemma missing_key_except {B} (r h : result B) :
  missing_key con r → missing_key con h →
  missing_key con (except_KeyError r h).
Proof.
  intros Hr Hh e. destruct r as [v | er]; [done |].
  destruct (Hr er eq_refl) as (k & -> & _). simpl. apply Hh.
Qed.

Lemma missing_key_if {B} (b : bool) (r h : result B) :
  missing_key con r → missing_key con h →
  missing_key con (if b then r else h).
Proof. by destruct b. Qed.

Lemma missing_key_bind {B C} (r : result B) (k : B → result C) :
  missing_key con r → (∀ x, r = Ok x → missing_key con (k x)) →
  missing_key con (r ≫= k).
Proof.
  intros Hr Hk e. destruct r as [x | er]; simpl.
  - by apply Hk.
  - intros [= <-]. by apply Hr.
Qed.

Lemma missing_key_display_from {B} (d : gmap string B) l :
  Forall (λ kr, missing_key con kr.2) l →
  missing_key con (Py.display_from d l).
Proof.
  revert d. induction l as [|[k r] l IH]; intros d Hl; simpl; [done |].
  apply Forall_cons in Hl as [Hr Hl].
  apply missing_key_bind; [done |]. intros x _. by apply IH.
Qed.

End fallbacks.

Ltac solve_missing_key :=
  repeat first
    [ apply missing_key_Ok | apply missing_key_getitem
    | apply missing_key_add | apply missing_key_sub
    | apply missing_key_except | apply missing_key_if ].

Lemma finish_returns_Ok columns names (d : gmap string vec) :
  dom d = list_to_set names → NoDup names →
  finish columns names d
  = Ok (_append_effects_interest_contrast columns
          (_append_derivative_contrast columns (vectors d))).
Proof.
  intros Hd Hn. destruct (returns_finish columns names d Hd Hn) as [m Hm].
  rewrite Hm. f_equal. by apply finish_Ok in Hm as [_ ->].
Qed.

Lemma self_localizer_Ok columns m :
  let con := _elementary_contrasts columns in
  self_localizer (Some columns) = Ok m
  ↔ ∃ es eo ins fa h cr sh s o oh,
      con !! "encode_self" = Some es
      ∧ con !! "encode_other" = Some eo
      ∧ con !! "instructions" = Some ins
      ∧ con !! "false_alarm" = Some fa
      ∧ match Spec.sum_or_present con
                "recognition_other_hit" "recognition_self_hit" with
        | Some v => Some v
        | None => con !! "recognition_other_no_response"
        end = Some h
      ∧ Spec.first_present con ["correct_rejection"; "false_alarm"] = Some cr
      ∧ Spec.first_present con
          ["recognition_self_hit"; "recognition_self_miss"] = Some sh
      ∧ Spec.sum_or_present con
          "recognition_self_hit" "recognition_self_miss" = Some s
      ∧ Spec.sum_or_present con
          "recognition_other_hit" "recognition_other_miss" = Some o
      ∧ Spec.first_present con
          ["recognition_other_hit"; "recognition_other_miss"] = Some oh
      ∧ m = _append_effects_interest_contrast columns
              (_append_derivative_contrast columns
                 (vectors (self_contrasts es eo ins fa h cr sh s o oh))).
Proof.
  intros con. unfold self_localizer. cbv beta iota zeta. fold con.
  generalize dependent con. intros con. split.
  - intros H.
    apply bind_Ok in H as (h & Hh%except_sum_or_third & H).
    apply bind_Ok in H as (cr & Hcr%except_first_present & H).
    apply bind_Ok in H as (sh & Hsh%except_first_present & H).
    apply bind_Ok in H as (s & Hs%except_sum_or_second & H).
    apply bind_Ok in H as (o & Ho%except_sum_or_first & H).
    apply bind_Ok in H as (oh & Hoh%except_first_present & H).
    apply bind_Ok in H as (d & Hd & H).
    apply finish_Ok in H as [_ ->].
    unfold Py.display in Hd. cbn [Py.display_from] in Hd.
    apply bind_Ok in Hd as (x1 & Hx1 & Hd).
    apply bind_Ok in Hx1 as (es & Hes%getitem_Ok & Hx1).
    apply bind_Ok in Hx1 as (eo & Heo%getitem_Ok & [= <-]).
    rewrite !(proj2 (getitem_Ok _ _ _) Hes), !(proj2 (getitem_Ok _ _ _) Heo)
      in Hd.
    cbn [mbind result_bind] in Hd.
    apply bind_Ok in Hd as (ins & Hins%getitem_Ok & Hd).
    apply bind_Ok in Hd as (fa & Hfa%getitem_Ok & Hd).
    cbn [mbind result_bind rsub] in Hd. injection Hd as <-.
    by exists es, eo, ins, fa, h, cr, sh, s, o, oh.
  - intros (es & eo & ins & fa & h & cr & sh & s & o & oh
            & Hes & Heo & Hins & Hfa & Hh & Hcr & Hsh & Hs & Ho & Hoh & ->).
    rewrite (proj2 (except_sum_or_third _ _ _ _ _) Hh).
    rewrite (proj2 (except_first_present _ _ _ _) Hcr).
    rewrite (proj2 (except_first_present _ _ _ _) Hsh).
    rewrite (proj2 (except_sum_or_second _ _ _ _) Hs).
    rewrite (proj2 (except_sum_or_first _ _ _ _) Ho).
    rewrite (proj2 (except_first_present _ _ _ _) Hoh).
    cbn [mbind result_bind].
    rewrite !(proj2 (getitem_Ok _ _ _) Hes), !(proj2 (getitem_Ok _ _ _) Heo),
      !(proj2 (getitem_Ok _ _ _) Hins), !(proj2 (getitem_Ok _ _ _) Hfa).
    unfold Py.display.
    cbn [Py.display_from mbind result_bind rsub].
    rewrite finish_returns_Ok; [reflexivity | | ].
    + rewrite !dom_insert_L, dom_empty_L. mem_list.
    + mem_list.
Qed.

Lemma self_localizer_Raise columns e :
  self_localizer (Some columns) = Raise e →
  ∃ k, e = KeyError k ∧ k ∉ columns.
Proof.
  intros H.
  assert (missing_key (_elementary_contrasts columns)
            (self_localizer (Some columns))) as Hmiss.
  { unfold self_localizer. cbv beta iota zeta.
    generalize (_elementary_contrasts columns). intros con.
    do 6 (apply missing_key_bind; [solve_missing_key | intros ? _]).
    apply missing_key_bind.
    - apply missing_key_display_from.
      repeat (apply Forall_cons; split; [cbn [snd]; solve_missing_key |]).
      apply Forall_nil_2.
    - intros d [_ Hdom]%display_returns.
      rewrite finish_returns_Ok; [apply missing_key_Ok | | mem_list].
      rewrite Hdom. mem_list. }
  destruct (Hmiss e H) as (k & -> & Hk). exists k. split; [done |].
  intros Hin%elementary_contrasts_is_Some. rewrite Hk in Hin. by destruct Hin.
Qed.

Lemma returns_except {A B} (con : gmap string A) (r h : result B) :
  missing_key con r →
  returns (except_KeyError r h) ↔ returns r ∨ returns h.
Proof.
  intros Hr. destruct r as [v | e]; simpl.
  - split; [by left | intros _; by exists v].
  - destruct (Hr e eq_refl) as (k & -> & _). split; [by right |].
    by intros [[v [=]] | Hh].
Qed.

Lemma returns_if_has_key {A B} (con : gmap string A) k (a b : result B) :
  returns (if has_key con k then a else b)
  ↔ (k ∈ dom con ∧ returns a) ∨ ((k ∉ dom con) ∧ returns b).
Proof.
  unfold has_key. rewrite elem_of_dom. case_bool_decide; tauto.
Qed.

Lemma self_localizer_returns columns :
  returns (self_localizer (Some columns))
  ↔ (∀ k, k ∈ ["encode_self"; "encode_other"; "instructions"; "false_alarm"]
          → k ∈ columns)
    ∧ ("recognition_self_hit" ∈ columns ∨ "recognition_self_miss" ∈ columns)
    ∧ ("recognition_other_hit" ∈ columns
       ∨ "recognition_other_miss" ∈ columns)
    ∧ ("recognition_self_hit" ∈ columns ∨ "recognition_other_hit" ∈ columns
       ∨ "recognition_other_no_response" ∈ columns).
Proof.
  unfold self_localizer. cbv beta iota zeta.
  rewrite <- Forall_forall, !Forall_cons, Forall_nil.
  rewrite <- !(elem_of_dom_elementary columns).
  generalize (_elementary_contrasts columns). intros con.
  split.
  - intros [m H]. repeat backward_step H.
    repeat
      match goal with
      | H : returns (except_KeyError _ _) |- _ =>
          apply (returns_except con) in H; [| solve_missing_key]
      end.
    split_returns.
    repeat
      match goal with
      | H : returns _ ∨ returns _ |- _ => revert H
      end.
    rewrite !returns_if_has_key, !returns_add, !returns_getitem.
    tauto.
  - intros ((Hes & Heo & Hin & Hfa & _) & Hself & Hother & Hhit).
    repeat
      match goal with
      | |- returns (except_KeyError ?r ?h ≫= _) =>
          let v := fresh "v" in
          let Hv := fresh "Hv" in
          assert (returns (except_KeyError r h)) as [v Hv];
          [ apply (returns_except con);
            [ solve_missing_key
            | rewrite ?returns_if_has_key, ?returns_add, ?returns_getitem;
              destruct (decide ("recognition_self_hit" ∈ dom con));
              destruct (decide ("recognition_other_hit" ∈ dom con));
              destruct (decide ("recognition_self_miss" ∈ dom con));
              tauto ]
          | rewrite Hv, bind_Ok_l; clear Hv ]
      end.
    assert (∀ k, k ∈ ["encode_self"; "encode_other"; "instructions";
                      "false_alarm"] → k ∈ dom con) as Hreq.
    { intros k Hk. rewrite !elem_of_cons, elem_of_nil in Hk.
      destruct Hk as [-> | [-> | [-> | [-> | []]]]]; assumption. }
    repeat forward_step.
Qed.

(** C7 (fallbacks of the self paradigm).  A key is in the elementary
    contrasts exactly when it is a column.  [self_localizer] returns exactly
    when the four columns it reads directly are present and each of its six
    terms resolves: 'correct_rejection', 'recognition_self_hit' and
    'recognition_other_hit' to the elementary contrast of the primary column
    when it is present and of the fallback column otherwise, and
    'recognition_hit', the self term and the other term to the sum of their
    two columns, or to the one that is present ('recognition_hit' to the
    no-response column when neither is); the mapping it returns is then the
    one built from these terms, whose eleven entries are listed.  In terms
    of columns, it returns exactly when 'encode_self', 'encode_other',
    'instructions' and 'false_alarm' are present, a hit or a miss column of
    each of self and other, and a self hit, an other hit or the no-response
    column.  Whenever it does not return, it raises a [KeyError] for a key
    that is no column: in particular when neither candidate column of a
    term is present. *)
Theorem self_localizer_fallbacks columns :
  let con := _elementary_contrasts columns in
  let hit :=
    match Spec.sum_or_present con
            "recognition_other_hit" "recognition_self_hit" with
    | Some v => Some v
    | None => con !! "recognition_other_no_response"
    end in
  let correct_rejection :=
    Spec.first_present con ["correct_rejection"; "false_alarm"] in
  let self_hit :=
    Spec.first_present con
      ["recognition_self_hit"; "recognition_self_miss"] in
  let self :=
    Spec.sum_or_present con "recognition_self_hit" "recognition_self_miss" in
  let other :=
    Spec.sum_or_present con
      "recognition_other_hit" "recognition_other_miss" in
  let other_hit :=
    Spec.first_present con
      ["recognition_other_hit"; "recognition_other_miss"] in
  let returned es eo ins fa h cr sh s o oh :=
    _append_effects_interest_contrast columns
      (_append_derivative_contrast columns
         (vectors (self_contrasts es eo ins fa h cr sh s o oh))) in
  (∀ k, is_Some (con !! k) ↔ k ∈ columns)
  ∧ (∀ m, self_localizer (Some columns) = Ok m
          ↔ ∃ es eo ins fa h cr sh s o oh,
              con !! "encode_self" = Some es
              ∧ con !! "encode_other" = Some eo
              ∧ con !! "instructions" = Some ins
              ∧ con !! "false_alarm" = Some fa
              ∧ hit = Some h ∧ correct_rejection = Some cr
              ∧ self_hit = Some sh ∧ self = Some s ∧ other = Some o
              ∧ other_hit = Some oh
              ∧ m = returned es eo ins fa h cr sh s o oh)
  ∧ (∀ es eo ins fa h cr sh s o oh,
       let m := returned es eo ins fa h cr sh s o oh in
       m !! "encode_self-other" = Some (VVec (vsub es eo))
       ∧ m !! "encode_other" = Some (VVec eo)
       ∧ m !! "encode_self" = Some (VVec es)
       ∧ m !! "instructions" = Some (VVec ins)
       ∧ m !! "false_alarm" = Some (VVec fa)
       ∧ m !! "recognition_hit" = Some (VVec h)
       ∧ m !! "recognition_self_hit" = Some (VVec sh)
       ∧ m !! "recognition_hit-correct_rejection" = Some (VVec (vsub h cr))
       ∧ m !! "correct_rejection" = Some (VVec cr)
       ∧ m !! "recognition_self-other" = Some (VVec (vsub s o))
       ∧ m !! "recognition_other_hit" = Some (VVec oh))
  ∧ (returns (self_localizer (Some columns))
     ↔ (∀ k, k ∈ ["encode_self"; "encode_other"; "instructions";
                  "false_alarm"] → k ∈ columns)
       ∧ ("recognition_self_hit" ∈ columns
          ∨ "recognition_self_miss" ∈ columns)
       ∧ ("recognition_other_hit" ∈ columns
          ∨ "recognition_other_miss" ∈ columns)
       ∧ ("recognition_self_hit" ∈ columns
          ∨ "recognition_other_hit" ∈ columns
          ∨ "recognition_other_no_response" ∈ columns))
  ∧ (∀ e, self_localizer (Some columns) = Raise e →
          ∃ k, e = KeyError k ∧ k ∉ columns)
  ∧ (hit = None ∨ correct_rejection = None ∨ self_hit = None ∨ self = None
     ∨ other = None ∨ other_hit = None →
     ∃ k, self_localizer (Some columns) = Raise (KeyError k) ∧ k ∉ columns).
Proof.
  intros con hit correct_rejection self_hit self other other_hit returned.
  split; [apply elementary_contrasts_is_Some |].
  split; [apply self_localizer_Ok |].
  split.
  { intros es eo ins fa h cr sh s o oh m. subst m returned. cbv beta.
    rewrite !lookup_extensions by done. unfold vectors. rewrite !lookup_fmap.
    unfold self_contrasts, Py.dict. cbn [foldl fst snd].
    repeat split; by lookup_literal. }
  split; [apply self_localizer_returns |].
  split; [apply self_localizer_Raise |].
  intros Hnone.
  destruct (self_localizer (Some columns)) as [m | e] eqn:Hm.
  - exfalso. apply self_localizer_Ok in Hm
      as (es & eo & ins & fa & h & cr & sh & s & o & oh
          & _ & _ & _ & _ & Hh & Hcr & Hsh & Hs & Ho & Hoh & _).
    fold con in Hh, Hcr, Hsh, Hs, Ho, Hoh.
    fold hit in Hh. fold correct_rejection in Hcr. fold self_hit in Hsh.
    fold self in Hs. fold other in Ho. fold other_hit in Hoh.
    destruct Hnone as [H | [H | [H | [H | [H | H]]]]]; congruence.
  - destruct (self_localizer_Raise columns e Hm) as (k & -> & Hk).
    by exists k.
Qed.

Lemma self_localizer_fallbacks_witness :
  let columns :=
    ["encode_self"; "encode_other"; "instructions"; "false_alarm";
     "recognition_self_miss"; "recognition_other_miss";
     "recognition_other_no_response"] in
  (∃ m, self_localizer (Some columns) = Ok m
        ∧ m !! "correct_rejection" = Some (VVec (eye 7 3))
        ∧ m !! "recognition_self_hit" = Some (VVec (eye 7 4))
        ∧ m !! "recognition_other_hit" = Some (VVec (eye 7 5))
        ∧ m !! "recognition_hit" = Some (VVec (eye 7 6))
        ∧ m !! "recognition_self-other"
          = Some (VVec (vsub (eye 7 4) (eye 7 5)))
        ∧ m !! "recognition_hit-correct_rejection"
          = Some (VVec (vsub (eye 7 6) (eye 7 3))))
  ∧ ∃ k, self_localizer
           (Some ["encode_self"; "encode_other"; "instructions";
                  "false_alarm"; "recognition_self_hit"])
         = Raise (KeyError k)
         ∧ k = "recognition_other_miss".
Proof.
  intros columns. split.
  - destruct (self_localizer_fallbacks columns) as (_ & Hok & Hm & _).
    eexists. split.
    + apply Hok.
      exists (eye 7 0), (eye 7 1), (eye 7 2), (eye 7 3), (eye 7 6),
        (eye 7 3), (eye 7 4), (eye 7 4), (eye 7 5), (eye 7 5).
      repeat (split; [reflexivity |]). reflexivity.
    + destruct (Hm (eye 7 0) (eye 7 1) (eye 7 2) (eye 7 3) (eye 7 6)
                  (eye 7 3) (eye 7 4) (eye 7 4) (eye 7 5) (eye 7 5))
        as (_ & _ & _ & _ & _ & Hh & Hsh & Hhc & Hcr & Hso & Hoh).
      repeat split; assumption.
  - destruct (self_localizer_fallbacks
                ["encode_self"; "encode_other"; "instructions";
                 "false_alarm"; "recognition_self_hit"])
      as (_ & _ & _ & _ & _ & Herr).
    destruct Herr as (k & Hk & _); [do 4 right; left; reflexivity |].
    exists k. split; [exact Hk |].
    assert (self_localizer
              (Some ["encode_self"; "encode_other"; "instructions";
                     "false_alarm"; "recognition_self_hit"])
            = Raise (KeyError "recognition_other_miss")) as Hc
      by (vm_compute; reflexivity).
    rewrite Hk in Hc. by injection Hc.
Defined.

(** ** The polynomial contrasts of the 8-level factor *)

(** X12 (polynomial contrasts of the 8-level factor).  On columns that hold
    response_num_1 to response_num_8, [enumeration] returns; its three
    contrasts are the products of the constant, linear and quadratic
    coefficient vectors with the eight elementary response vectors in level
    order.  The linear coefficients are the binary64 values that
    [np.linspace(-1, 1, 8)] computes, each within 2^-52 of -1, -5/7, -3/7,
    -1/7, 1/7, 3/7, 5/7 and 1; the quadratic ones are their binary64 squares
    minus the binary64 mean of the squares, the mean being the pairwise sum
    of the eight squares divided by 8.  When the labels are unique, each
    contrast holds, at every column, the exact value of the coefficient of
    that column's level, and zero at the other columns. *)
Theorem enumeration_polynomial_contrasts columns :
  (∀ k, 1 ≤ k ≤ 8 → "response_num_" +:+ pretty k ∈ columns) →
  let n := length columns in
  let constant : vec := [1; 1; 1; 1; 1; 1; 1; 1]%Qc in
  let linear : list float :=
    [-1; -0x1.6db6db6db6db7p-1; -0x1.b6db6db6db6dcp-2;
     -0x1.2492492492494p-3; 0x1.2492492492490p-3; 0x1.b6db6db6db6d8p-2;
     0x1.6db6db6db6db6p-1; 1]%float in
  let quadratic : list float :=
    (λ x, (x - vmean (vsquare linear))%float) <$> vsquare linear in
  ∃ (m : contrast_set) (response : list vec),
    enumeration (Some columns) = Ok m
    ∧ Forall2 (Spec.is_response columns) (seq 1 8) response
    ∧ m !! "enumeration_constant" = Some (VVec (np_dot n constant response))
    ∧ m !! "enumeration_linear"
      = Some (VVec (np_dot n (to_Qc <$> linear) response))
    ∧ m !! "enumeration_quadratic"
      = Some (VVec (np_dot n (to_Qc <$> quadratic) response))
    ∧ np_linspace (-1) 1 8 = linear
    ∧ to_Qc <$> linear
      = [-1; Q2Qc (-6433713753386423 # 9007199254740992);
         Q2Qc (-1930114126015927 # 4503599627370496);
         Q2Qc (-1286742750677285 # 9007199254740992);
         Q2Qc (321685687669321 # 2251799813685248);
         Q2Qc (965057063007963 # 2251799813685248);
         Q2Qc (3216856876693211 # 4503599627370496); 1]%Qc
    ∧ Forall2
        (λ x d : Qc, d - Q2Qc (1 # 4503599627370496) ≤ x
                     ≤ d + Q2Qc (1 # 4503599627370496))%Qc
        (to_Qc <$> linear)
        [-1; Q2Qc (-5 # 7); Q2Qc (-3 # 7); Q2Qc (-1 # 7); Q2Qc (1 # 7);
         Q2Qc (3 # 7); Q2Qc (5 # 7); 1]%Qc
    ∧ quadratic
      = [0x1.2492492492493p-1; 0x1.4e5e0a72f0540p-4;
         -0x1.f58d0fac687d2p-3; -0x1.a1f58d0fac686p-2;
         -0x1.a1f58d0fac687p-2; -0x1.f58d0fac687d9p-3;
         0x1.4e5e0a72f0538p-4; 0x1.2492492492493p-1]%float
    ∧ (NoDup columns → ∀ j c, columns !! j = Some c →
       np_dot n constant response !! j
       = Some (Spec.level_coefficient constant 1 c)
       ∧ np_dot n (to_Qc <$> linear) response !! j
         = Some (Spec.level_coefficient (to_Qc <$> linear) 1 c)
       ∧ np_dot n (to_Qc <$> quadratic) response !! j
         = Some (Spec.level_coefficient (to_Qc <$> quadratic) 1 c)).
Proof.
  intros H n constant linear quadratic.
  destruct (response_rows_Ok columns 1 9) as (response & Hr & Hresp).
  { intros k Hk. apply H. lia. }
  assert (np_ones 8 = constant) as Hc by reflexivity.
  assert (np_linspace (-1) 1 8 = linear) as Hl by (vm_compute; reflexivity).
  exists (_append_effects_interest_contrast columns
            (_append_derivative_contrast columns
               (vectors
                  (<["enumeration_quadratic"
                     := np_dot n (to_Qc <$> quadratic) response]>
                     (<["enumeration_linear"
                        := np_dot n (to_Qc <$> linear) response]>
                        (<["enumeration_constant"
                           := np_dot n constant response]> ∅)))))), response.
  split; [| split; [done |]].
  - unfold enumeration. cbv zeta. rewrite Hc, Hl, Hr. fold n quadratic.
    clearbody constant linear quadratic n. simpl.
    unfold finish, assert_names.
    rewrite bool_decide_eq_true_2; [done |]. by vm_compute.
  - rewrite !lookup_extensions by done. unfold vectors. rewrite !lookup_fmap.
    split; [by lookup_literal |]. split; [by lookup_literal |].
    split; [by lookup_literal |]. split; [done |].
    split; [qc_decide |]. split; [qc_decide |].
    split; [vm_compute; reflexivity |].
    intros Hnd j c Hj.
    rewrite !(np_dot_lookup columns _ 1 response j c); try done.
Qed.

Lemma enumeration_polynomial_contrasts_witness :
  let columns :=
    ["response_num_1"; "response_num_2"; "response_num_3";
     "response_num_4"; "response_num_5"; "response_num_6";
     "response_num_7"; "response_num_8"; "constant"] in
  ∃ (m : contrast_set) (v : vec),
    enumeration (Some columns) = Ok m
    ∧ m !! "enumeration_linear" = Some (VVec v)
    ∧ v !! 1 = Some (Q2Qc (-6433713753386423 # 9007199254740992))
    ∧ v !! 8 = Some 0%Qc.
Proof.
  intros columns.
  assert (∀ k, 1 ≤ k ≤ 8 → "response_num_" +:+ pretty k ∈ columns) as H.
  { intros k Hk.
    destruct k as [|[|[|[|[|[|[|[|[|k]]]]]]]]]; try lia;
      apply (bool_decide_unpack _); vm_compute; exact I. }
  destruct (enumeration_polynomial_contrasts columns H)
    as (m & response & Hm & _ & _ & Hl & _ & _ & _ & _ & _ & Hpt).
  assert (NoDup columns) as Hnd
    by (apply (bool_decide_unpack _); vm_compute; exact I).
  eexists m, _. split; [exact Hm |]. split; [exact Hl |]. split.
  - destruct (Hpt Hnd 1 "response_num_2" eq_refl) as (_ & -> & _).
    reflexivity.
  - destruct (Hpt Hnd 8 "constant" eq_refl) as (_ & -> & _).
    reflexivity.
Defined.

(** ** Upper and lower case in the HCP definitions *)

Lemma finish_columns columns1 columns2 names d m1 :
  finish columns1 names d = Ok m1 →
  ∃ m2, finish columns2 names d = Ok m2
        ∧ ∀ k, k ∉ reserved → m1 !! k = m2 !! k.
Proof.
  intros H. pose proof H as [Hkeys _]%finish_Ok.
  unfold finish, assert_names. rewrite bool_decide_eq_true_2 by done.
  eexists. split; [reflexivity |]. intros k Hk.
  rewrite (finish_lookup _ _ _ _ k H Hk).
  assert (k ≠ "effects_interest" ∧ k ≠ "derivatives") as [He Hd].
  { split; intros ->; apply Hk; mem_list. }
  rewrite lookup_extensions by done. unfold vectors. by rewrite lookup_fmap.
Qed.

Ltac same_body H :=
  repeat
    lazymatch type of H with
    | finish _ _ _ = _ => fail
    | _ =>
        let x := fresh "x" in
        let Hx := fresh "Hx" in
        apply bind_Ok in H as (x & Hx & H); cbv beta in H;
        rewrite Hx, bind_Ok_l; cbv beta; clear Hx
    end;
  by eapply finish_columns.

(** X13 (letter case in the HCP definitions).  The HCP definitions read the
    column labels in lower case: on two column sequences that differ in
    letter case only, a definition that returns on one returns on the
    other, with the same contrast under every name but the two reserved
    ones. *)
Theorem hcp_case_insensitive paradigm_id columns1 columns2 m1 :
  paradigm_id ∈ ["hcp_emotion"; "hcp_gambling"; "hcp_language"; "hcp_motor";
                 "hcp_wm"; "hcp_relational"; "hcp_social"] →
  Py.lower <$> columns1 = Py.lower <$> columns2 →
  make_contrasts paradigm_id (Some columns1) = Ok m1 →
  ∃ m2, make_contrasts paradigm_id (Some columns2) = Ok m2
        ∧ ∀ k, k ∉ reserved → m1 !! k = m2 !! k.
Proof.
  intros Hid Heq H. rewrite !elem_of_cons, elem_of_nil in Hid.
  assert (length columns1 = length columns2) as Hlen.
  { by rewrite <- (length_fmap Py.lower columns1), Heq, length_fmap. }
  destruct Hid as [-> | [-> | [-> | [-> | [-> | [-> | [-> | []]]]]]]].
  all: lazymatch type of H with
       | make_contrasts "hcp_emotion" _ = _ =>
           change (hcp_emotion (Some columns1) = Ok m1) in H;
           change (make_contrasts "hcp_emotion" (Some columns2))
             with (hcp_emotion (Some columns2));
           unfold hcp_emotion in H |- *
       | make_contrasts "hcp_gambling" _ = _ =>
           change (hcp_gambling (Some columns1) = Ok m1) in H;
           change (make_contrasts "hcp_gambling" (Some columns2))
             with (hcp_gambling (Some columns2));
           unfold hcp_gambling in H |- *
       | make_contrasts "hcp_language" _ = _ =>
           change (hcp_language (Some columns1) = Ok m1) in H;
           change (make_contrasts "hcp_language" (Some columns2))
             with (hcp_language (Some columns2));
           unfold hcp_language in H |- *
       | make_contrasts "hcp_motor" _ = _ =>
           change (hcp_motor (Some columns1) = Ok m1) in H;
           change (make_contrasts "hcp_motor" (Some columns2))
             with (hcp_motor (Some columns2));
           unfold hcp_motor in H |- *
       | make_contrasts "hcp_wm" _ = _ =>
           change (hcp_wm (Some columns1) = Ok m1) in H;
           change (make_contrasts "hcp_wm" (Some columns2))
             with (hcp_wm (Some columns2));
           unfold hcp_wm in H |- *
       | make_contrasts "hcp_relational" _ = _ =>
           change (hcp_relational (Some columns1) = Ok m1) in H;
           change (make_contrasts "hcp_relational" (Some columns2))
             with (hcp_relational (Some columns2));
           unfold hcp_relational in H |- *
       | make_contrasts "hcp_social" _ = _ =>
           change (hcp_social (Some columns1) = Ok m1) in H;
           change (make_contrasts "hcp_social" (Some columns2))
             with (hcp_social (Some columns2));
           unfold hcp_social in H |- *
       end.
  all: cbv beta iota zeta in H |- *;
    rewrite !lower_contrasts_elementary in H |- *;
    rewrite <- Heq.
  all: same_body H.
Qed.

Lemma hcp_case_insensitive_witness :
  ∃ m1 m2,
    make_contrasts "hcp_emotion" (Some ["Face"; "Shape"; "Constant"]) = Ok m1
    ∧ make_contrasts "hcp_emotion" (Some ["FACE"; "shape"; "constant"])
      = Ok m2
    ∧ m1 !! "face-shape" = m2 !! "face-shape"
    ∧ m1 !! "effects_interest" ≠ m2 !! "effects_interest".
Proof.
  destruct (is_Ok_true (make_contrasts "hcp_emotion"
                          (Some ["Face"; "Shape"; "Constant"]))) as [m1 Hm1];
    [vm_compute; reflexivity |].
  destruct (hcp_case_insensitive "hcp_emotion" ["Face"; "Shape"; "Constant"]
              ["FACE"; "shape"; "constant"] m1) as (m2 & Hm2 & Hsame);
    [mem_list | reflexivity | exact Hm1 |].
  exists m1, m2. split; [exact Hm1 |]. split; [exact Hm2 |]. split.
  - apply Hsame. apply (bool_decide_eq_false_1 _). vm_compute. reflexivity.
  - assert (make_contrasts "hcp_emotion" (Some ["Face"; "Shape"; "Constant"])
              ≫= (λ m, Ok (m !! "effects_interest"))
            = Ok (Some (VMat [eye 3 0; eye 3 1; eye 3 2]))) as H1
      by (vm_compute; reflexivity).
    assert (make_contrasts "hcp_emotion"
              (Some ["FACE"; "shape"; "constant"])
              ≫= (λ m, Ok (m !! "effects_interest"))
            = Ok (Some (VMat [eye 3 0; eye 3 1]))) as H2
      by (vm_compute; reflexivity).
    rewrite Hm1 in H1. rewrite Hm2 in H2.
    cbn [mbind result_bind] in H1, H2.
    apply Ok_inj in H1. apply Ok_inj in H2. rewrite H1, H2.
    intros [= Hrows].
Defined.

(** ** The contrasts of the group-level analysis *)

Lemma slice_drop_last {A} (l : list A) :
  Anova.slice None (Some (-1)%Z) l = take (length l - 1) l.
Proof.
  unfold Anova.slice, Anova.slice_bound. cbn [from_option].
  rewrite bool_decide_eq_true_2 by lia. rewrite Nat.sub_0_r, drop_0.
  f_equal. lia.
Qed.

Lemma length_np_eye n : length (Anova.np_eye n) = n.
Proof. unfold Anova.np_eye. by rewrite length_fmap, length_seq. Qed.

Lemma slice_np_eye n lo hi :
  lo ≤ hi ≤ n →
  take (hi - lo) (drop lo (Anova.np_eye n)) = eye n <$> seq lo (hi - lo).
Proof.
  intros Hle. unfold Anova.np_eye.
  rewrite <- fmap_drop, <- fmap_take, drop_seq, take_seq. simpl.
  do 2 f_equal. lia.
Qed.

Lemma length_labels subject_ contrast_ acq_ :
  length (Anova.labels subject_ contrast_ acq_)
  = (length subject_ - 1) + (length contrast_ - 1) + (length acq_ - 1) + 1.
Proof.
  unfold Anova.labels. rewrite !slice_drop_last, !List.length_app, !length_take.
  simpl. lia.
Qed.

(** X14 (the contrasts of the three factors).  With at least one level for
    each factor, the design has one column for each level but the last of
    every factor and a final intercept; the subject, contrast and
    acquisition contrasts are consecutive blocks of rows of the identity
    that, with the intercept row, make up the whole identity, and the
    rows of each block single out the columns labelled by the levels of
    its factor.  A factor with one level gets an empty contrast. *)
Theorem anova_contrast_blocks (subject_ contrast_ acq_ : list string) :
  subject_ ≠ [] → contrast_ ≠ [] → acq_ ≠ [] →
  let n := length (Anova.labels subject_ contrast_ acq_) in
  let s := length subject_ - 1 in
  let c := length contrast_ - 1 in
  let a := length acq_ - 1 in
  n = s + c + a + 1
  ∧ Anova.subject_contrast subject_ contrast_ acq_ = eye n <$> seq 0 s
  ∧ Anova.contrast_contrast subject_ contrast_ acq_ = eye n <$> seq s c
  ∧ Anova.acq_contrast subject_ contrast_ acq_ = eye n <$> seq (s + c) a
  ∧ Anova.subject_contrast subject_ contrast_ acq_
    ++ Anova.contrast_contrast subject_ contrast_ acq_
    ++ Anova.acq_contrast subject_ contrast_ acq_ ++ [eye n (s + c + a)]
    = Anova.np_eye n
  ∧ (∀ i, i < s →
       Anova.labels subject_ contrast_ acq_ !! i = subject_ !! i)
  ∧ (∀ i, i < c →
       Anova.labels subject_ contrast_ acq_ !! (s + i) = contrast_ !! i)
  ∧ (∀ i, i < a →
       Anova.labels subject_ contrast_ acq_ !! (s + c + i) = acq_ !! i)
  ∧ Anova.labels subject_ contrast_ acq_ !! (s + c + a) = Some "intercept".
Proof.
  intros Hs Hc Ha n s c a.
  assert (0 < length subject_ ∧ 0 < length contrast_ ∧ 0 < length acq_)
    as (Hs' & Hc' & Ha').
  { by destruct subject_, contrast_, acq_; simpl; repeat split; try lia. }
  assert (n = s + c + a + 1) as Hn by apply length_labels.
  assert (Anova.subject_contrast subject_ contrast_ acq_ = eye n <$> seq 0 s)
    as Hsub.
  { unfold Anova.subject_contrast, Anova.slice, Anova.slice_bound, Anova.dof.
    fold n. rewrite length_np_eye. cbn [from_option].
    rewrite bool_decide_eq_false_2 by lia.
    replace (Z.to_nat _) with s by lia.
    rewrite (slice_np_eye n 0 s) by lia. by rewrite Nat.sub_0_r. }
  assert (Anova.contrast_contrast subject_ contrast_ acq_
          = eye n <$> seq s c) as Hcon.
  { unfold Anova.contrast_contrast, Anova.slice, Anova.slice_bound, Anova.dof.
    fold n. rewrite length_np_eye. cbn [from_option].
    rewrite !bool_decide_eq_false_2 by lia.
    replace (Z.to_nat (Z.min (Z.of_nat (length subject_) - 1) _))
      with s by lia.
    replace (Z.to_nat _) with (s + c) by lia.
    rewrite (slice_np_eye n s (s + c)) by lia.
    by replace (s + c - s) with c by lia. }
  assert (Anova.acq_contrast subject_ contrast_ acq_
          = eye n <$> seq (s + c) a) as Hacq.
  { unfold Anova.acq_contrast, Anova.slice, Anova.slice_bound, Anova.dof.
    fold n. rewrite length_np_eye. cbn [from_option].
    rewrite !bool_decide_eq_true_2 by lia.
    replace (Z.to_nat (Z.max 0 (-1 - _ + _))) with (s + c) by lia.
    replace (Z.to_nat _) with (s + c + a) by lia.
    rewrite (slice_np_eye n (s + c) (s + c + a)) by lia.
    by replace (s + c + a - (s + c)) with a by lia. }
  split; [done |]. split; [done |]. split; [done |]. split; [done |].
  split; [| split; [| split; [| split]]].
  - rewrite Hsub, Hcon, Hacq. unfold Anova.np_eye.
    transitivity (eye n <$> seq 0 (s + c + a + 1)); [| by rewrite <- Hn].
    rewrite !seq_app, !fmap_app. simpl. by rewrite <- !app_assoc.
  - intros i Hi. unfold Anova.labels. rewrite slice_drop_last.
    rewrite lookup_app_l by (rewrite length_take; lia).
    by rewrite lookup_take_lt by lia.
  - intros i Hi. unfold Anova.labels. rewrite !slice_drop_last.
    rewrite lookup_app_r by (rewrite length_take; lia).
    rewrite length_take.
    replace (_ - _) with i by lia.
    rewrite lookup_app_l by (rewrite length_take; lia).
    by rewrite lookup_take_lt by lia.
  - intros i Hi. unfold Anova.labels. rewrite !slice_drop_last.
    rewrite lookup_app_r by (rewrite length_take; lia).
    rewrite length_take.
    rewrite lookup_app_r by (rewrite length_take; lia).
    rewrite length_take.
    replace (_ - _ - _) with i by lia.
    rewrite lookup_app_l by (rewrite length_take; lia).
    by rewrite lookup_take_lt by lia.
  - unfold Anova.labels. rewrite !slice_drop_last.
    rewrite lookup_app_r by (rewrite length_take; lia).
    rewrite length_take.
    rewrite lookup_app_r by (rewrite length_take; lia).
    rewrite length_take.
    rewrite lookup_app_r by (rewrite length_take; lia).
    rewrite length_take.
    by replace (_ - _ - _ - _) with 0 by lia.
Qed.

Lemma anova_contrast_blocks_witness :
  Anova.labels ["sub-01"; "sub-02"; "sub-04"] ["audio"; "video"] ["ap"; "pa"]
  = ["sub-01"; "sub-02"; "audio"; "ap"; "intercept"]
  ∧ Anova.subject_contrast ["sub-01"; "sub-02"; "sub-04"] ["audio"; "video"]
      ["ap"; "pa"] = [eye 5 0; eye 5 1]
  ∧ Anova.contrast_contrast ["sub-01"; "sub-02"; "sub-04"] ["audio"; "video"]
      ["ap"; "pa"] = [eye 5 2]
  ∧ Anova.acq_contrast ["sub-01"; "sub-02"; "sub-04"] ["audio"; "video"]
      ["ap"; "pa"] = [eye 5 3]
  ∧ Anova.acq_contrast ["sub-01"; "sub-02"; "sub-04"] ["audio"; "video"]
      ["ap"] = [].
Proof.
  split; [reflexivity |].
  destruct (anova_contrast_blocks ["sub-01"; "sub-02"; "sub-04"]
              ["audio"; "video"] ["ap"; "pa"])
    as (_ & Hs & Hc & Ha & _); [done | done | done |].
  destruct (anova_contrast_blocks ["sub-01"; "sub-02"; "sub-04"]
              ["audio"; "video"] ["ap"])
    as (_ & _ & _ & Ha' & _); [done | done | done |].
  split; [exact Hs |]. split; [exact Hc |]. split; [exact Ha | exact Ha'].
Defined.
